(** * Pipe Network guardian-node extension: background agent

    A shallow embedding of [src/background.js] and [src/utils.js].

    The JavaScript is a set of [async] functions over one global
    ([baseUrl]), one object used as a map ([notificationLinks]) and the
    browser platform ([fetch], timers, [chrome.storage], notifications).
    The embedding threads an explicit [World] through a small monad whose
    computations can return, throw, or stay pending for ever (an [await]
    on a promise that never settles).  Every platform call leaves an
    [Event] in the world's trace, so "how many network calls" and "which
    timer was armed" are statements about that trace. *)

From stdpp Require Import base strings list gmap pretty.
From Stdlib Require Import ZArith Lia.

Local Open Scope Z_scope.
Local Set Warnings "-register-all".

(** ** JavaScript values *)

(** JSON-shaped values plus [undefined].  Numbers are the integer-valued
    ones (status codes, millisecond counts); objects keep their fields in
    insertion order, as [Object.keys] observes it.  [JNative] stands for a
    built-in method reached through a prototype. *)
Inductive JsVal : Type :=
  | JUndefined
  | JNull
  | JBool (b : bool)
  | JNum (n : Z)
  | JStr (s : string)
  | JArr (items : list JsVal)
  | JObj (fields : list (string * JsVal))
  | JNative (name : string).

Inductive JsError : Type :=
  | Error (message : string)
  | TypeError (message : string)
  | SyntaxError (message : string).

(** ToBoolean. *)
Definition truthy (v : JsVal) : bool :=
  match v with
  | JUndefined | JNull => false
  | JBool b => b
  | JNum n => negb (n =? 0)
  | JStr s => negb (String.eqb s "")
  | JArr _ | JObj _ | JNative _ => true
  end.

(** [a || b] on values. *)
Definition js_or (a b : JsVal) : JsVal := if truthy a then a else b.

Fixpoint assoc (k : string) (fields : list (string * JsVal)) : option JsVal :=
  match fields with
  | [] => None
  | (k', v) :: rest => if String.eqb k k' then Some v else assoc k rest
  end.

(** Joining strings with a separator, as [Array.prototype.join] does. *)
Fixpoint join (sep : string) (parts : list string) : string :=
  match parts with
  | [] => ""
  | [p] => p
  | p :: rest => p +:+ sep +:+ join sep rest
  end.

(** ToString, the conversion a template literal applies to [${...}]. *)
Fixpoint ToString (v : JsVal) : string :=
  match v with
  | JUndefined => "undefined"
  | JNull => "null"
  | JBool true => "true"
  | JBool false => "false"
  | JNum n => pretty n
  | JStr s => s
  | JArr items =>
      join "," (map (fun x => match x with
                              | JUndefined | JNull => ""
                              | _ => ToString x
                              end) items)
  | JObj _ => "[object Object]"
  | JNative name => "function " +:+ name +:+ "() { [native code] }"
  end.

(** Property read [v.k].  Reading a property of [null] or [undefined]
    throws; an object yields its own field or [undefined]; the other
    values have none of the properties this program reads, except that
    strings inherit the legacy method [String.prototype.link]. *)
Definition get_prop (v : JsVal) (k : string) : JsError + JsVal :=
  match v with
  | JUndefined =>
      inl (TypeError ("Cannot read properties of undefined (reading '" +:+ k +:+ "')"))
  | JNull =>
      inl (TypeError ("Cannot read properties of null (reading '" +:+ k +:+ "')"))
  | JObj fields => inr (default JUndefined (assoc k fields))
  | JStr _ => inr (if String.eqb k "link" then JNative "link" else JUndefined)
  | _ => inr JUndefined
  end.

Definition index_keys (n : nat) : list string :=
  map (fun i : nat => pretty i) (seq 0 n).

(** [Object.keys(v)]. *)
Definition Object_keys (v : JsVal) : JsError + list string :=
  match v with
  | JUndefined | JNull =>
      inl (TypeError "Cannot convert undefined or null to object")
  | JObj fields => inr (map fst fields)
  | JArr items => inr (index_keys (length items))
  | JStr s => inr (index_keys (String.length s))
  | _ => inr []
  end.

(** The names every plain object inherits from [Object.prototype]. *)
Definition Object_prototype_keys : list string :=
  ["constructor"; "hasOwnProperty"; "isPrototypeOf"; "propertyIsEnumerable";
   "toLocaleString"; "toString"; "valueOf"; "__proto__";
   "__defineGetter__"; "__defineSetter__"; "__lookupGetter__"; "__lookupSetter__"].

(** What a plain object without an own property [k] yields for [o[k]]:
    the prototype itself under "__proto__", the [Object] function under
    "constructor", the built-in method of that name under the other
    inherited names, and [undefined] under any other name. *)
Definition Object_prototype_get (k : string) : JsVal :=
  if negb (existsb (String.eqb k) Object_prototype_keys) then JUndefined
  else if String.eqb k "__proto__" then JObj []
  else if String.eqb k "constructor" then JNative "Object"
  else JNative k.

(** [o[k]] on a plain object used as a map: the own property when there
    is one, otherwise what the prototype has under that name. *)
Definition object_get (o : gmap string JsVal) (k : string) : JsVal :=
  match o !! k with
  | Some v => v
  | None => Object_prototype_get k
  end.

Fixpoint chars (s : string) : list JsVal :=
  match s with
  | EmptyString => []
  | String c rest => JStr (String c EmptyString) :: chars rest
  end.

(** The elements a [for (const x of v)] loop visits: the items of an
    array, the characters of a string; nothing else here is iterable. *)
Definition iterate (v : JsVal) : JsError + list JsVal :=
  match v with
  | JArr items => inr items
  | JStr s => inr (chars s)
  | _ => inl (TypeError "nodes is not iterable")
  end.

(** ** The platform: requests, responses, promises, events *)

(** A [Response]: its status, its body as text, and what [json()] parses
    it to ([None]: the body is not JSON). *)
Record Response : Type := mkResponse {
  status : Z;
  text_body : string;
  json_body : option JsVal;
}.

(** [response.ok], as the Fetch standard defines it: the status is in the
    range 200 to 299. *)
Definition ok (r : Response) : bool := (200 <=? status r) && (status r <=? 299).

(** The [options] argument of [fetch].  [body] holds the value handed to
    [JSON.stringify]. *)
Record RequestInit : Type := mkInit {
  method : option string;
  headers : list (string * string);
  body : option JsVal;
  mode : option string;
}.

(** [options = {}] *)
Definition no_options : RequestInit := mkInit None [] None None.

Inductive Settlement (A : Type) : Type :=
  | Fulfilled (a : A)
  | Rejected (e : JsError).
Arguments Fulfilled {A} a.
Arguments Rejected {A} e.

(** A promise on the virtual clock: it settles at an instant, or never. *)
Inductive Promise (A : Type) : Type :=
  | Settles (at_ms : Z) (s : Settlement A)
  | NeverSettles.
Arguments Settles {A} at_ms s.
Arguments NeverSettles {A}.

(** The two [setInterval] callbacks of the program, as closures: the
    heartbeat callback closes over the [token] constant of
    [startHeartbeat]; the refresh callback closes over nothing. *)
Inductive Callback : Type :=
  | HeartbeatTick (token : JsVal)
  | RefreshBaseUrl.

Inductive LogLevel : Type := Log | Warn | Err.

Inductive LogArg : Type :=
  | LStr (s : string)
  | LVal (v : JsVal)
  | LErr (e : JsError).

Record NotificationOptions : Type := mkNotification {
  n_type : string;
  iconUrl : string;
  title : string;
  message : string;
  buttons : list string;
}.

Inductive Event : Type :=
  | EvFetch (url : string) (init : RequestInit)
  | EvSetTimeout (ms : Z)
  | EvSetInterval (cb : Callback) (ms : Z)
  | EvStorageGet (keys : list string)
  | EvNotificationCreate (id : string) (options : NotificationOptions)
  | EvTabsCreate (url : JsVal)
  | EvAlarmCreate (name : string) (periodInMinutes : Z)
  | EvConsole (level : LogLevel) (args : list LogArg).

(** ** The world *)

(** Program state ([baseUrl], [notificationLinks]), platform state
    ([storage], [clock], [trace]) and the environment's choices:
    [network k url init] is what the [k]-th [fetch] of the run does (the
    delay until it settles and how, or that it hangs), and
    [race_tie_first] is the scheduler's choice when both sides of a
    [Promise.race] settle at the same instant. *)
Record World : Type := mkWorld {
  baseUrl : JsVal;
  notificationLinks : gmap string JsVal;
  storage : gmap string JsVal;
  clock : Z;
  fetches : nat;
  trace : list Event;
  network : nat -> string -> RequestInit -> Promise Response;
  race_tie_first : bool;
}.

Definition set_baseUrl (v : JsVal) (w : World) : World :=
  mkWorld v (notificationLinks w) (storage w) (clock w) (fetches w) (trace w)
          (network w) (race_tie_first w).

Definition set_notificationLinks (m : gmap string JsVal) (w : World) : World :=
  mkWorld (baseUrl w) m (storage w) (clock w) (fetches w) (trace w)
          (network w) (race_tie_first w).

Definition set_storage (m : gmap string JsVal) (w : World) : World :=
  mkWorld (baseUrl w) (notificationLinks w) m (clock w) (fetches w) (trace w)
          (network w) (race_tie_first w).

Definition set_clock (t : Z) (w : World) : World :=
  mkWorld (baseUrl w) (notificationLinks w) (storage w) t (fetches w) (trace w)
          (network w) (race_tie_first w).

Definition record_fetch (url : string) (init : RequestInit) (w : World) : World :=
  mkWorld (baseUrl w) (notificationLinks w) (storage w) (clock w) (S (fetches w))
          (trace w ++ [EvFetch url init]) (network w) (race_tie_first w).

Definition record (e : Event) (w : World) : World :=
  mkWorld (baseUrl w) (notificationLinks w) (storage w) (clock w) (fetches w)
          (trace w ++ [e]) (network w) (race_tie_first w).

(** ** Async computations *)

Inductive Outcome (A : Type) : Type :=
  | Returned (a : A)
  | Thrown (e : JsError)
  | Pending.
Arguments Returned {A} a.
Arguments Thrown {A} e.
Arguments Pending {A}.

Definition Async (A : Type) : Type := World -> Outcome A * World.

Definition ret {A} (a : A) : Async A := fun w => (Returned a, w).

Definition throw {A} (e : JsError) : Async A := fun w => (Thrown e, w).

Definition bind {A B} (c : Async A) (k : A -> Async B) : Async B :=
  fun w =>
    match c w with
    | (Returned a, w') => k a w'
    | (Thrown e, w') => (Thrown e, w')
    | (Pending, w') => (Pending, w')
    end.

(** [try { body } catch (error) { handler }]: only a throw reaches the
    handler; a pending [await] stays pending. *)
Definition try_catch {A} (body : Async A) (handler : JsError -> Async A) : Async A :=
  fun w =>
    match body w with
    | (Thrown e, w') => handler e w'
    | other => other
    end.

Declare Scope async_scope.
Delimit Scope async_scope with async.
Notation "x <- c ;; k" := (bind c (fun x => k))
  (at level 100, c at next level, right associativity) : async_scope.
Notation "c ;; k" := (bind c (fun _ => k))
  (at level 100, right associativity) : async_scope.
Local Open Scope async_scope.

(** Lifting a partial pure operation: [inl e] throws [e]. *)
Definition lift {A} (r : JsError + A) : Async A :=
  match r with
  | inl e => throw e
  | inr a => ret a
  end.

Definition prop (v : JsVal) (k : string) : Async JsVal := lift (get_prop v k).

Definition get_baseUrl : Async JsVal := fun w => (Returned (baseUrl w), w).

Definition assign_baseUrl (v : JsVal) : Async unit :=
  fun w => (Returned tt, set_baseUrl v w).

Definition Date_now : Async Z := fun w => (Returned (clock w), w).

Definition emit (e : Event) : Async unit := fun w => (Returned tt, record e w).

Definition console_log (args : list LogArg) : Async unit := emit (EvConsole Log args).
Definition console_warn (args : list LogArg) : Async unit := emit (EvConsole Warn args).
Definition console_error (args : list LogArg) : Async unit := emit (EvConsole Err args).

(** [fetch(url, init)]: the call is issued now; the environment decides
    after which delay its promise settles. *)
Definition fetch (url : string) (init : RequestInit) : Async (Promise Response) :=
  fun w =>
    let p := match network w (fetches w) url init with
             | Settles d s => Settles (clock w + Z.max 0 d) s
             | NeverSettles => NeverSettles
             end in
    (Returned p, record_fetch url init w).

(** A promise settled by a [setTimeout(..., ms)] callback.  Timers are
    ideal: the callback runs exactly [ms] after the call (at once for a
    negative [ms]). *)
Definition setTimeout_promise {A} (ms : Z) (s : Settlement A) : Async (Promise A) :=
  fun w => (Returned (Settles (clock w + Z.max 0 ms) s), record (EvSetTimeout ms) w).

(** [await p]: resume when [p] settles; never, if it does not. *)
Definition await {A} (p : Promise A) : Async A :=
  fun w =>
    match p with
    | Settles t (Fulfilled a) => (Returned a, set_clock (Z.max (clock w) t) w)
    | Settles t (Rejected e) => (Thrown e, set_clock (Z.max (clock w) t) w)
    | NeverSettles => (Pending, w)
    end.

(** [Promise.race([p, q])]: whichever settles first. *)
Definition Promise_race {A} (p q : Promise A) : Async (Promise A) :=
  fun w =>
    (Returned
       match p, q with
       | NeverSettles, _ => q
       | _, NeverSettles => p
       | Settles tp _, Settles tq _ =>
           if (tp <? tq) || ((tp =? tq) && race_tie_first w) then p else q
       end, w).

(** [response.json()] *)
Definition json (r : Response) : Async JsVal :=
  match json_body r with
  | Some v => ret v
  | None => throw (SyntaxError "Unexpected token in JSON")
  end.

(** [response.text()] *)
Definition text (r : Response) : Async string := ret (text_body r).

Definition setInterval (cb : Callback) (ms : Z) : Async unit := emit (EvSetInterval cb ms).

(** [for (const x of items) { body }] once [items] is known. *)
Fixpoint for_each {A} (items : list A) (body : A -> Async unit) : Async unit :=
  match items with
  | [] => ret tt
  | x :: rest => body x ;; for_each rest body
  end.

(** [chrome.storage.local.get(keys, callback)]: the callback receives an
    object holding the stored entries among [keys]. *)
Definition chrome_storage_local_get (keys : list string) : Async JsVal :=
  emit (EvStorageGet keys) ;;
  fun w =>
    (Returned
       (JObj (omap (fun k => match storage w !! k with
                             | Some v => Some (k, v)
                             | None => None
                             end) keys)), w).

(** [chrome.notifications.create(id, options, callback)]: the callback
    receives the identifier of the notification created. *)
Definition chrome_notifications_create (id : string) (options : NotificationOptions)
    (callback : string -> Async unit) : Async unit :=
  emit (EvNotificationCreate id options) ;;
  callback id.

(** ** src/utils.js *)

Module Utils.

(** utils.js, lines 1-11 *)
Definition fetchBaseUrl : Async JsVal :=
  try_catch
    (p <- fetch "https://new-backend-api.com/getBaseUrl" no_options ;;
     response <- await p ;;
     (if negb (ok response) then throw (Error "Failed to fetch base URL") else ret tt) ;;
     data <- json response ;;
     prop data "baseUrl")
    (fun error =>
       console_error [LStr "Error fetching base URL:"; LErr error] ;;
       ret (JStr "https://api.pipecdn.app")).

(** utils.js, lines 14-28.  The [for] loop runs on [fuel]; [attempt] is
    the loop variable.  [fetchWithRetry] starts it with all the fuel the
    loop can use, so the [O] branch is the loop's own exit. *)
Fixpoint retry_loop (fuel : nat) (url : string) (options : RequestInit)
    (retries delay attempt : Z) : Async Response :=
  match fuel with
  | O => throw (Error "All retry attempts failed")
  | S fuel' =>
      if attempt <? retries then
        try_catch
          (p <- fetch url options ;;
           response <- await p ;;
           if negb (ok response)
           then throw (Error ("Request failed with status " +:+ pretty (status response)))
           else ret response)
          (fun error =>
             console_error [LStr ("Attempt " +:+ pretty (attempt + 1) +:+ " failed:"); LErr error] ;;
             (if attempt <? retries - 1
              then (t <- setTimeout_promise delay (Fulfilled tt) ;; await t)
              else ret tt) ;;
             retry_loop fuel' url options retries delay (attempt + 1))
      else throw (Error "All retry attempts failed")
  end.

Definition fetchWithRetry (url : string) (options : RequestInit) (retries delay : Z)
    : Async Response :=
  retry_loop (Z.to_nat retries) url options retries delay 0.

End Utils.

(** ** src/background.js *)

Module Background.

(** background.js, lines 30-44 (the same text as in utils.js). *)
Fixpoint retry_loop (fuel : nat) (url : string) (options : RequestInit)
    (retries delay attempt : Z) : Async Response :=
  match fuel with
  | O => throw (Error "All retry attempts failed")
  | S fuel' =>
      if attempt <? retries then
        try_catch
          (p <- fetch url options ;;
           response <- await p ;;
           if negb (ok response)
           then throw (Error ("Request failed with status " +:+ pretty (status response)))
           else ret response)
          (fun error =>
             console_error [LStr ("Attempt " +:+ pretty (attempt + 1) +:+ " failed:"); LErr error] ;;
             (if attempt <? retries - 1
              then (t <- setTimeout_promise delay (Fulfilled tt) ;; await t)
              else ret tt) ;;
             retry_loop fuel' url options retries delay (attempt + 1))
      else throw (Error "All retry attempts failed")
  end.

Definition fetchWithRetry (url : string) (options : RequestInit) (retries delay : Z)
    : Async Response :=
  retry_loop (Z.to_nat retries) url options retries delay 0.

(** background.js, lines 5-19.  [fetchWithRetry] is called with its
    default arguments: [options = {}], [retries = 3], [delay = 1000]. *)
Definition fetchBaseUrl : Async JsVal :=
  try_catch
    (response <- fetchWithRetry
       "https://pipe-network-backend.pipecanary.workers.dev/api/getBaseUrl"
       no_options 3 1000 ;;
     data <- json response ;;
     data_baseUrl <- (if truthy data then prop data "baseUrl" else ret data) ;;
     if truthy data_baseUrl
     then prop data "baseUrl"
     else (console_warn [LStr "No baseUrl provided by backend, using fallback."] ;;
           ret (JStr "https://api.pipecdn.app")))
    (fun error =>
       console_error [LStr "Error fetching base URL:"; LErr error] ;;
       ret (JStr "https://api.pipecdn.app")).

(** background.js, lines 22-27 *)
Definition ensureBaseUrl : Async unit :=
  b <- get_baseUrl ;;
  if negb (truthy b)
  then (url <- fetchBaseUrl ;;
        assign_baseUrl url ;;
        b' <- get_baseUrl ;;
        console_log [LStr "Base URL set to:"; LVal b'])
  else ret tt.

(** background.js, lines 47-53 *)
Definition getToken : Async JsVal :=
  data <- chrome_storage_local_get ["token"] ;;
  token <- prop data "token" ;;
  ret (js_or token JNull).

(** background.js, lines 75-89 *)
Definition testNodeLatency (node : JsVal) : Async Z :=
  start <- Date_now ;;
  let timeout := 5000 in
  try_catch
    (ip <- prop node "ip" ;;
     probe <- fetch ("http://" +:+ ToString ip) (mkInit None [] None (Some "no-cors")) ;;
     timer <- setTimeout_promise timeout (Rejected (Error "Timeout")) ;;
     first <- Promise_race probe timer ;;
     await first ;;
     now <- Date_now ;;
     ret (now - start))
    (fun error =>
       node_id <- prop node "node_id" ;;
       console_error [LStr ("Node " +:+ ToString node_id +:+ " latency test failed:");
                      LErr error] ;;
       ret (-1)).

(** background.js, lines 92-122 *)
Definition reportTestResult (node : JsVal) (latency : Z) : Async unit :=
  token <- getToken ;;
  if negb (truthy token)
  then console_warn [LStr "No token found. Skipping result reporting."]
  else
    try_catch
      (b <- get_baseUrl ;;
       node_id <- prop node "node_id" ;;
       ip <- prop node "ip" ;;
       p <- fetch (ToString b +:+ "/api/test")
              (mkInit (Some "POST")
                 [("Content-Type", "application/json");
                  ("Authorization", "Bearer " +:+ ToString token)]
                 (Some (JObj [("node_id", node_id);
                              ("ip", ip);
                              ("latency", JNum latency);
                              ("status", JStr (if latency >? 0 then "online" else "offline"))]))
                 None) ;;
       response <- await p ;;
       if ok response
       then (node_id <- prop node "node_id" ;;
             console_log [LStr ("Reported result for node " +:+ ToString node_id +:+ ".")])
       else (node_id <- prop node "node_id" ;;
             console_error [LStr ("Failed to report result for node "
                                  +:+ ToString node_id +:+ ":");
                            LVal (JNum (status response))]))
      (fun error =>
         node_id <- prop node "node_id" ;;
         console_error [LStr ("Error reporting result for node "
                              +:+ ToString node_id +:+ ":");
                        LErr error]).

(** background.js, lines 56-72 *)
Definition runNodeTests : Async unit :=
  ensureBaseUrl ;;
  try_catch
    (b <- get_baseUrl ;;
     response <- fetchWithRetry (ToString b +:+ "/api/nodes") no_options 3 1000 ;;
     nodes <- json response ;;
     items <- lift (iterate nodes) ;;
     for_each items
       (fun node =>
          latency <- testNodeLatency node ;;
          node_id <- prop node "node_id" ;;
          ip <- prop node "ip" ;;
          console_log [LStr ("Node " +:+ ToString node_id +:+ " (" +:+ ToString ip
                             +:+ ") latency: " +:+ pretty latency +:+ "ms")] ;;
          reportTestResult node latency) ;;
     console_log [LStr "All node tests completed."])
    (fun error => console_error [LStr "Error running node tests:"; LErr error]).

(** background.js, lines 157-169 *)
Definition showNotification (message : string) (link : JsVal) : Async unit :=
  let notificationOptions :=
    mkNotification "basic" "icons/icon48.png" "Pipe Network Guardian Node" message
                   ["Earn Rewards"] in
  chrome_notifications_create "rewardsNotification" notificationOptions
    (fun notificationId w =>
       (Returned tt,
        set_notificationLinks (<[notificationId := link]> (notificationLinks w)) w)).

(** background.js, lines 125-151 *)
Definition checkForRewards : Async unit :=
  ensureBaseUrl ;;
  token <- getToken ;;
  if negb (truthy token)
  then console_warn [LStr "No token found. Skipping rewards check."]
  else
    try_catch
      (b <- get_baseUrl ;;
       p <- fetch (ToString b +:+ "/api/rewards")
              (mkInit None [("Authorization", "Bearer " +:+ ToString token)] None None) ;;
       response <- await p ;;
       if ok response
       then (data <- json response ;;
             keys <- lift (Object_keys data) ;;
             if (0 <? length keys)%nat
             then (link <- prop data "link" ;;
                   showNotification ("Earn more rewards points! Visit: " +:+ ToString link)
                                    link)
             else console_log [LStr "No rewards available at the moment."])
       else console_warn [LStr "Failed to fetch rewards data."])
      (fun error => console_error [LStr "Error checking for rewards:"; LErr error]).

(** background.js, lines 172-177: the notification button listener.
    [notificationLinks] is a plain object, so the lookup also sees what
    the object inherits; [delete] only removes an own property. *)
Definition onButtonClicked (notificationId : string) (buttonIndex : Z) : Async unit :=
  fun w =>
    let link := object_get (notificationLinks w) notificationId in
    if truthy link && (buttonIndex =? 0)
    then (emit (EvTabsCreate link) ;;
          fun w' =>
            (Returned tt,
             set_notificationLinks (delete notificationId (notificationLinks w')) w')) w
    else (Returned tt, w).

(** background.js, lines 180-193 *)
Definition getGeoLocation : Async JsVal :=
  try_catch
    (p <- fetch "https://ipapi.co/json/" no_options ;;
     response <- await p ;;
     (if negb (ok response)
      then throw (Error "Failed to fetch Geo-location data")
      else ret tt) ;;
     data <- json response ;;
     ip <- prop data "ip" ;;
     city <- prop data "city" ;;
     region <- prop data "region" ;;
     country_name <- prop data "country_name" ;;
     ret (JObj [("ip", ip);
                ("location", JStr (ToString city +:+ ", " +:+ ToString region
                                   +:+ ", " +:+ ToString country_name))]))
    (fun error =>
       console_error [LStr "Geo-location error:"; LErr error] ;;
       ret (JObj [("ip", JStr "0.0.0.0"); ("location", JStr "Unknown Location")])).

(** background.js, lines 204-228: the body of the heartbeat timer
    callback, with the [token] it closed over. *)
Definition heartbeat (token : JsVal) : Async unit :=
  try_catch
    (geoInfo <- getGeoLocation ;;
     b <- get_baseUrl ;;
     ip <- prop geoInfo "ip" ;;
     location <- prop geoInfo "location" ;;
     timestamp <- Date_now ;;
     p <- fetch (ToString b +:+ "/api/heartbeat")
            (mkInit (Some "POST")
               [("Authorization", "Bearer " +:+ ToString token);
                ("Content-Type", "application/json")]
               (Some (JObj [("ip", ip);
                            ("location", location);
                            ("timestamp", JNum timestamp)]))
               None) ;;
     response <- await p ;;
     if ok response
     then console_log [LStr "Heartbeat sent successfully."]
     else (t <- text response ;;
           console_error [LStr "Heartbeat failed:"; LStr t]))
    (fun error => console_error [LStr "Error during heartbeat:"; LErr error]).

(** background.js, lines 196-229 *)
Definition startHeartbeat : Async unit :=
  ensureBaseUrl ;;
  token <- getToken ;;
  if negb (truthy token)
  then console_warn [LStr "No token found. Skipping heartbeat."]
  else setInterval (HeartbeatTick token) (6 * 60 * 60 * 1000).

(** background.js, lines 255-258: the body of the refresh timer callback. *)
Definition refreshBaseUrl : Async unit :=
  url <- fetchBaseUrl ;;
  assign_baseUrl url ;;
  b <- get_baseUrl ;;
  console_log [LStr "Base URL refreshed:"; LVal b].

(** What the platform runs when an interval fires. *)
Definition run_callback (cb : Callback) : Async unit :=
  match cb with
  | HeartbeatTick token => heartbeat token
  | RefreshBaseUrl => refreshBaseUrl
  end.

(** background.js, lines 232-245: the alarm listener. *)
Definition onAlarm (name : string) : Async unit :=
  if String.eqb name "nodeTestAlarm"
  then (console_log [LStr "Running node tests..."] ;; runNodeTests)
  else if String.eqb name "dailyRewardsCheck"
  then (console_log [LStr "Checking for rewards..."] ;; checkForRewards)
  else console_warn [LStr ("Unknown alarm triggered: " +:+ name)].

(** background.js, lines 248-252: the install listener. *)
Definition onInstalled : Async unit :=
  emit (EvAlarmCreate "nodeTestAlarm" 30) ;;
  emit (EvAlarmCreate "dailyRewardsCheck" 1440) ;;
  startHeartbeat.

(** background.js, lines 255-258: loading the script arms the refresh
    timer. *)
Definition load : Async unit := setInterval RefreshBaseUrl (60 * 60 * 1000).

End Background.

(** * Vocabulary of the properties *)

Definition is_console (e : Event) : bool :=
  match e with
  | EvConsole _ _ => true
  | _ => false
  end.

(** The platform calls of a trace: everything but the console output. *)
Fixpoint without_console (evs : list Event) : list Event :=
  match evs with
  | [] => []
  | e :: rest => if is_console e then without_console rest else e :: without_console rest
  end.

(** The network calls of a trace. *)
Fixpoint network_calls (evs : list Event) : list (string * RequestInit) :=
  match evs with
  | [] => []
  | EvFetch url init :: rest => (url, init) :: network_calls rest
  | _ :: rest => network_calls rest
  end.

(** What a run leaves alone: the program's variables, the storage and the
    environment. *)
Record frame (w w' : World) : Prop := mkFrame {
  frame_baseUrl : baseUrl w' = baseUrl w;
  frame_links : notificationLinks w' = notificationLinks w;
  frame_storage : storage w' = storage w;
  frame_network : network w' = network w;
  frame_tie : race_tie_first w' = race_tie_first w;
}.

(** How one attempt ends, read off the environment's answer: it fails
    when the promise rejects (a network error) or fulfils with a response
    that is not [ok]. *)
Definition failed (p : Promise Response) : bool :=
  match p with
  | Settles _ (Rejected _) => true
  | Settles _ (Fulfilled r) => negb (ok r)
  | NeverSettles => false
  end.

Definition settle_delay (p : Promise Response) : Z :=
  match p with
  | Settles d _ => Z.max 0 d
  | NeverSettles => 0
  end.

(** The time the [n] fetches numbered [k], [k+1], ... spend on the
    network. *)
Fixpoint total_latency (net : nat -> string -> RequestInit -> Promise Response)
    (url : string) (options : RequestInit) (k n : nat) : Z :=
  match n with
  | O => 0
  | S n' => settle_delay (net k url options) + total_latency net url options (S k) n'
  end.

(** The platform calls of [n] attempts: each attempt but the last is
    followed by one timer of [delay] milliseconds. *)
Definition attempts_io (url : string) (options : RequestInit) (delay : Z) (n : nat)
    : list Event :=
  match n with
  | O => []
  | S m => concat (repeat [EvFetch url options; EvSetTimeout delay] m)
           ++ [EvFetch url options]
  end.

(** What a run of the loop from [attempt] in world [w] amounts to, when
    it makes [n] attempts and ends with [out] in world [w']. *)
Record RetryRun (url : string) (options : RequestInit) (retries delay : Z)
    (attempt : Z) (w : World) (out : Outcome Response) (w' : World)
    (n : nat) : Prop := mkRetryRun {
  run_bound : Z.of_nat n <= Z.max 0 (retries - attempt);
  run_fetches : fetches w' = (fetches w + n)%nat;
  run_trace : exists evs,
    trace w' = trace w ++ evs /\ without_console evs = attempts_io url options delay n;
  run_clock :
    clock w' = clock w + total_latency (network w) url options (fetches w) n
               + Z.of_nat (pred n) * Z.max 0 delay;
  run_frame : frame w w';
  run_earlier :
    forall i, (S i < n)%nat -> failed (network w (fetches w + i)%nat url options) = true;
  run_outcome :
    match out with
    | Returned r =>
        (1 <= n)%nat /\ ok r = true /\
        exists d, network w (fetches w + pred n)%nat url options = Settles d (Fulfilled r)
    | Thrown e =>
        e = Error "All retry attempts failed" /\
        Z.of_nat n = Z.max 0 (retries - attempt) /\
        (forall i, (i < n)%nat -> failed (network w (fetches w + i)%nat url options) = true)
    | Pending =>
        (1 <= n)%nat /\ network w (fetches w + pred n)%nat url options = NeverSettles
    end;
}.

(** The two source files that define [fetchWithRetry]. *)
Inductive SourceFile : Type := background_js | utils_js.

Definition fetchWithRetry_of (file : SourceFile)
    : string -> RequestInit -> Z -> Z -> Async Response :=
  match file with
  | background_js => Background.fetchWithRetry
  | utils_js => Utils.fetchWithRetry
  end.

Definition retry_loop_of (file : SourceFile)
    : nat -> string -> RequestInit -> Z -> Z -> Z -> Async Response :=
  match file with
  | background_js => Background.retry_loop
  | utils_js => Utils.retry_loop
  end.

(** ** Sample environments *)

(** The world when the script is loaded: [let baseUrl = null], no
    notification link, an empty trace. *)
Definition initial_world (net : nat -> string -> RequestInit -> Promise Response)
    (store : gmap string JsVal) : World :=
  mkWorld JNull ∅ store 0 0 [] net true.

(** A network that answers the [k]-th fetch with the [k]-th entry of a
    script, and hangs once the script is over. *)
Definition scripted (answers : list (Promise Response))
    : nat -> string -> RequestInit -> Promise Response :=
  fun k _ _ => nth k answers NeverSettles.

(** A network on which every request fails after 5 ms. *)
Definition offline : nat -> string -> RequestInit -> Promise Response :=
  fun _ _ _ => Settles 5 (Rejected (TypeError "Failed to fetch")).

Definition respond (after : Z) (code : Z) (payload : option JsVal) : Promise Response :=
  Settles after (Fulfilled (mkResponse code "" payload)).

(** ** The base URL *)

Definition fallback : JsVal := JStr "https://api.pipecdn.app".

Definition config_url : string :=
  "https://pipe-network-backend.pipecanary.workers.dev/api/getBaseUrl".

(** The base URL a configuration response provides: the [baseUrl] field
    of its JSON object, when there is one and it is not a falsy value. *)
Definition provided_baseUrl (r : Response) : option JsVal :=
  match json_body r with
  | Some (JObj fields) =>
      match assoc "baseUrl" fields with
      | Some v => if truthy v then Some v else None
      | None => None
      end
  | _ => None
  end.

(** The resolver's state: [baseUrl] is set. *)
Definition resolved (w : World) : Prop := truthy (baseUrl w) = true.

(** Two worlds that differ at most in their trace. *)
Record same_but_trace (w w' : World) : Prop := mkSameButTrace {
  sbt_frame : frame w w';
  sbt_clock : clock w' = clock w;
  sbt_fetches : fetches w' = fetches w;
}.

(** What a run leaves alone when it may assign [baseUrl]. *)
Record platform_frame (w w' : World) : Prop := mkPlatformFrame {
  pf_links : notificationLinks w' = notificationLinks w;
  pf_storage : storage w' = storage w;
  pf_network : network w' = network w;
  pf_tie : race_tie_first w' = race_tie_first w;
}.

(** A value the backend provided during a run that started in [w] and
    made [n] attempts: the [baseUrl] field of a successful answer. *)
Definition backend_provided (w : World) (n : nat) (v : JsVal) : Prop :=
  exists (k : nat) d r,
    (k < n)%nat /\
    network w (fetches w + k)%nat config_url no_options = Settles d (Fulfilled r) /\
    ok r = true /\
    provided_baseUrl r = Some v.

(** ** What the platform can run *)

(** The entry points of the background script (listeners and timer
    callbacks), and what happens around it: another part of the
    extension writes or removes a storage entry, time passes. *)
Inductive Task : Type :=
  | OnLoad
  | OnInstalled
  | OnAlarm (name : string)
  | OnButtonClicked (notificationId : string) (buttonIndex : Z)
  | OnInterval (cb : Callback)
  | StorageWrite (key : string) (value : option JsVal)
  | TimePasses (ms : Z).

Definition run_task (t : Task) (w : World) : World :=
  match t with
  | OnLoad => (Background.load w).2
  | OnInstalled => (Background.onInstalled w).2
  | OnAlarm name => (Background.onAlarm name w).2
  | OnButtonClicked id idx => (Background.onButtonClicked id idx w).2
  | OnInterval cb => (Background.run_callback cb w).2
  | StorageWrite key (Some v) => set_storage (<[key := v]> (storage w)) w
  | StorageWrite key None => set_storage (delete key (storage w)) w
  | TimePasses ms => set_clock (clock w + Z.max 0 ms) w
  end.

Definition run_tasks (tasks : list Task) (w : World) : World :=
  foldl (fun w t => run_task t w) w tasks.

(** A computation that keeps the base URL resolved. *)
Definition keeps {A} (c : Async A) : Prop :=
  forall w, resolved w -> resolved (c w).2.

(** ** Tokens, timers, notifications *)

(** The value [getToken] resolves to: the stored token, or [null] when
    there is none (or a falsy one). *)
Definition stored_token (w : World) : JsVal :=
  js_or (default JUndefined (storage w !! "token")) JNull.

Definition no_token (w : World) : Prop := truthy (stored_token w) = false.

Definition has_token (w : World) : Prop := truthy (stored_token w) = true.

Definition as_interval (e : Event) : option (Callback * Z) :=
  match e with
  | EvSetInterval cb ms => Some (cb, ms)
  | _ => None
  end.

Definition as_storage_read (e : Event) : option (list string) :=
  match e with
  | EvStorageGet keys => Some keys
  | _ => None
  end.

Definition as_notification (e : Event) : option (string * NotificationOptions) :=
  match e with
  | EvNotificationCreate id options => Some (id, options)
  | _ => None
  end.

(** The interval timers a trace installs, its storage reads, and the
    notifications it creates. *)
Definition intervals (evs : list Event) : list (Callback * Z) := omap as_interval evs.
Definition storage_reads (evs : list Event) : list (list string) := omap as_storage_read evs.
Definition notifications (evs : list Event) : list (string * NotificationOptions) :=
  omap as_notification evs.

Definition six_hours : Z := 6 * 60 * 60 * 1000.

(** The options of the latency probe: [{ mode: 'no-cors' }]. *)
Definition probe_options : RequestInit := mkInit None [] None (Some "no-cors").

Definition probe_timeout : Z := 5000.

(** A world in which the base URL is resolved and a token is stored. *)
Definition signed_in_world (net : nat -> string -> RequestInit -> Promise Response)
    : World :=
  set_baseUrl fallback (initial_world net {["token" := JStr "secret"]}).

(** The options of the rewards request. *)
Definition rewards_options (token : JsVal) : RequestInit :=
  mkInit None [("Authorization", "Bearer " +:+ ToString token)] None None.

(** The notification [showNotification] creates for a message. *)
Definition rewards_notification (message : string) : string * NotificationOptions :=
  ("rewardsNotification",
   mkNotification "basic" "icons/icon48.png" "Pipe Network Guardian Node" message
                  ["Earn Rewards"]).

(** ** The heartbeat callback *)

(** A computation that neither reads nor writes the storage: run in a
    world with another storage, it does the same and leaves that storage
    in place. *)
Definition storage_blind {A} (c : Async A) : Prop :=
  forall s w, c (set_storage s w) = ((c w).1, set_storage s (c w).2).

(** A computation all of whose platform calls satisfy [P]. *)
Definition emits_only (P : Event -> Prop) {A} (c : Async A) : Prop :=
  forall w, exists evs, trace (c w).2 = trace w ++ evs /\ Forall P evs.

Definition geo_url : string := "https://ipapi.co/json/".

(** What a heartbeat callback that closed over [token] may do: look the
    location up, send requests authorised with [token], arm timers and
    log; it reads no storage and installs no interval. *)
Definition heartbeat_event (token : JsVal) (e : Event) : Prop :=
  match e with
  | EvFetch url init =>
      (url = geo_url /\ init = no_options) \/
      (method init = Some "POST" /\
       headers init = [("Authorization", "Bearer " +:+ ToString token);
                       ("Content-Type", "application/json")])
  | EvStorageGet _ => False
  | EvSetInterval _ _ => False
  | _ => True
  end.

(** ** Vocabulary of the further properties *)

Definition utils_config_url : string := "https://new-backend-api.com/getBaseUrl".

(** The options of the request that reports a result. *)
Definition report_options (token node_id ip : JsVal) (latency : Z) : RequestInit :=
  mkInit (Some "POST")
    [("Content-Type", "application/json");
     ("Authorization", "Bearer " +:+ ToString token)]
    (Some (JObj [("node_id", node_id);
                 ("ip", ip);
                 ("latency", JNum latency);
                 ("status", JStr (if latency >? 0 then "online" else "offline"))]))
    None.

Definition as_tab (e : Event) : option JsVal :=
  match e with
  | EvTabsCreate url => Some url
  | _ => None
  end.

(** The tabs a trace opens. *)
Definition tabs_opened (evs : list Event) : list JsVal := omap as_tab evs.

(** The location [getGeoLocation] falls back to. *)
Definition geo_fallback : JsVal :=
  JObj [("ip", JStr "0.0.0.0"); ("location", JStr "Unknown Location")].

(** The value of [data.k] for a [data] that is neither [null] nor
    [undefined]. *)
Definition field (data : JsVal) (k : string) : JsVal :=
  match get_prop data k with
  | inr v => v
  | inl _ => JUndefined
  end.

(** A geolocation answer the lookup can use: a successful response whose
    JSON payload is neither [null] nor [undefined]. *)
Definition geo_usable (p : Promise Response) : option JsVal :=
  match p with
  | Settles _ (Fulfilled r) =>
      if ok r
      then match json_body r with
           | Some JNull | Some JUndefined | None => None
           | Some data => Some data
           end
      else None
  | _ => None
  end.

(** The location built from a usable payload. *)
Definition geo_of (data : JsVal) : JsVal :=
  JObj [("ip", field data "ip");
        ("location",
         JStr (ToString (field data "city") +:+ ", " +:+ ToString (field data "region")
               +:+ ", " +:+ ToString (field data "country_name")))].

Definition geo_result (p : Promise Response) : JsVal :=
  match geo_usable p with
  | Some data => geo_of data
  | None => geo_fallback
  end.

(** The options of a heartbeat request. *)
Definition heartbeat_options (token ip location : JsVal) (timestamp : Z) : RequestInit :=
  mkInit (Some "POST")
    [("Authorization", "Bearer " +:+ ToString token);
     ("Content-Type", "application/json")]
    (Some (JObj [("ip", ip); ("location", location); ("timestamp", JNum timestamp)]))
    None.

Definition as_alarm (e : Event) : option (string * Z) :=
  match e with
  | EvAlarmCreate name period => Some (name, period)
  | _ => None
  end.

(** The alarms a trace creates. *)
Definition alarms (evs : list Event) : list (string * Z) := omap as_alarm evs.

(** A computation whose promise never rejects. *)
Definition never_throws {A} (c : Async A) : Prop :=
  forall w e, (c w).1 <> Thrown e.

Definition as_probe (e : Event) : option string :=
  match e with
  | EvFetch url init =>
      match mode init with
      | Some _ => Some url
      | None => None
      end
  | _ => None
  end.

(** The latency probes of a trace: the requests sent with a [mode]. *)
Definition probes (evs : list Event) : list string := omap as_probe evs.

(** A node entry whose properties can be read. *)
Definition readable (node : JsVal) : Prop := node <> JNull /\ node <> JUndefined.

Definition probe_url (node : JsVal) : string := "http://" +:+ ToString (field node "ip").

(** background.js, lines 62-66: the body of the loop over the nodes. *)
Definition test_and_report (node : JsVal) : Async unit :=
  latency <- Background.testNodeLatency node ;;
  node_id <- prop node "node_id" ;;
  ip <- prop node "ip" ;;
  console_log [LStr ("Node " +:+ ToString node_id +:+ " (" +:+ ToString ip
                     +:+ ") latency: " +:+ pretty latency +:+ "ms")] ;;
  Background.reportTestResult node latency.

(** ** Heartbeats over a run of the platform *)

(** The headers of a heartbeat authorised with [token]. *)
Definition bearer_headers (token : JsVal) : list (string * string) :=
  [("Authorization", "Bearer " +:+ ToString token);
   ("Content-Type", "application/json")].

(** A heartbeat request is told by its body: the three fields [ip],
    [location] and [timestamp], which no other request of the program
    carries. *)
Definition is_heartbeat_body (b : option JsVal) : bool :=
  match b with
  | Some (JObj [(k1, _); (k2, _); (k3, _)]) =>
      String.eqb k1 "ip" && String.eqb k2 "location" && String.eqb k3 "timestamp"
  | _ => false
  end.

Definition as_heartbeat (e : Event) : option (list (string * string)) :=
  match e with
  | EvFetch _ init =>
      if is_heartbeat_body (body init) then Some (headers init) else None
  | _ => None
  end.

(** The heartbeat requests of a trace, each by its headers. *)
Definition heartbeats (evs : list Event) : list (list (string * string)) :=
  omap as_heartbeat evs.

(** A platform call that is neither a heartbeat request nor the
    installation of a heartbeat timer. *)
Definition not_heartbeat (e : Event) : Prop :=
  match e with
  | EvFetch _ init => is_heartbeat_body (body init) = false
  | EvSetInterval (HeartbeatTick _) _ => False
  | _ => True
  end.

(** A run of the platform, one task after the other, in which an
    interval callback fires only once it has been installed. *)
Definition fires_installed (tasks : list Task) (w0 : World) : Prop :=
  forall before cb after,
    tasks = before ++ OnInterval cb :: after ->
    In cb (map fst (intervals (trace (run_tasks before w0)))).

(** [token] was captured during [tasks]: the install listener, and with
    it [startHeartbeat], ran at a moment when the stored token was
    [token]. *)
Definition captured (tasks : list Task) (w0 : World) (token : JsVal) : Prop :=
  exists before after,
    tasks = before ++ OnInstalled :: after /\
    has_token (run_tasks before w0) /\
    stored_token (run_tasks before w0) = token.

(** * Properties *)

(** ** Reasoning about runs *)

Lemma frame_refl w : frame w w.
Proof. by split. Qed.

Lemma frame_trans w1 w2 w3 : frame w1 w2 -> frame w2 w3 -> frame w1 w3.
Proof. intros [] []; split; congruence. Qed.

Lemma without_console_app evs1 evs2 :
  without_console (evs1 ++ evs2) = without_console evs1 ++ without_console evs2.
Proof.
  induction evs1 as [|e evs1 IH]; simpl; [done|].
  destruct (is_console e); simpl; by rewrite IH.
Qed.

Lemma network_calls_app evs1 evs2 :
  network_calls (evs1 ++ evs2) = network_calls evs1 ++ network_calls evs2.
Proof.
  induction evs1 as [|e evs1 IH]; simpl; [done|].
  destruct e; simpl; by rewrite ?IH.
Qed.

(** Pointwise equal continuations give equal binds. *)
Lemma bind_ext {A B} (c : Async A) (k1 k2 : A -> Async B) w :
  (forall a w', k1 a w' = k2 a w') -> bind c k1 w = bind c k2 w.
Proof. intros H. unfold bind. destruct (c w) as [[a|e|] w']; auto. Qed.

Lemma try_catch_ext {A} (body : Async A) (h1 h2 : JsError -> Async A) w :
  (forall e w', h1 e w' = h2 e w') -> try_catch body h1 w = try_catch body h2 w.
Proof. intros H. unfold try_catch. destruct (body w) as [[a|e|] w']; auto. Qed.

(** The two copies of the retry loop are the same function. *)
Lemma retry_loop_same fuel url options retries delay attempt w :
  Utils.retry_loop fuel url options retries delay attempt w
  = Background.retry_loop fuel url options retries delay attempt w.
Proof.
  revert attempt w. induction fuel as [|fuel IH]; intros attempt w; simpl; [done|].
  destruct (attempt <? retries); [|done].
  apply try_catch_ext. intros e w'.
  apply bind_ext. intros _ w''. apply bind_ext. intros _ w'''. apply IH.
Qed.

Lemma fetchWithRetry_same url options retries delay w :
  Utils.fetchWithRetry url options retries delay w
  = Background.fetchWithRetry url options retries delay w.
Proof. apply retry_loop_same. Qed.

(** ** The retrying client *)

Section RetryLoop.
Variables (url : string) (options : RequestInit) (retries delay : Z).

Let loop := fun fuel => Background.retry_loop fuel url options retries delay.

(** One iteration: the loop is over. *)
Lemma loop_exit fuel attempt w :
  retries <= attempt ->
  loop fuel attempt w = (Thrown (Error "All retry attempts failed"), w).
Proof.
  intros Hge. unfold loop. destruct fuel; simpl; [done|].
  destruct (Z.ltb_spec attempt retries); [lia|done].
Qed.

(** One iteration: the attempt succeeds and its response is returned. *)
Lemma loop_success fuel attempt w d r :
  attempt < retries ->
  network w (fetches w) url options = Settles d (Fulfilled r) ->
  ok r = true ->
  exists w',
    loop (S fuel) attempt w = (Returned r, w') /\
    fetches w' = S (fetches w) /\
    trace w' = trace w ++ [EvFetch url options] /\
    clock w' = clock w + Z.max 0 d /\
    frame w w'.
Proof.
  intros Hlt Hnet Hok. unfold loop. simpl.
  destruct (Z.ltb_spec attempt retries); [|lia].
  unfold try_catch, bind, fetch, await. rewrite Hnet. cbn beta iota zeta.
  rewrite Hok. simpl. eexists. split; [reflexivity|]. simpl.
  repeat split; lia.
Qed.

(** One iteration: the promise never settles and the call stays pending. *)
Lemma loop_hang fuel attempt w :
  attempt < retries ->
  network w (fetches w) url options = NeverSettles ->
  exists w',
    loop (S fuel) attempt w = (Pending, w') /\
    fetches w' = S (fetches w) /\
    trace w' = trace w ++ [EvFetch url options] /\
    clock w' = clock w /\
    frame w w'.
Proof.
  intros Hlt Hnet. unfold loop. simpl.
  destruct (Z.ltb_spec attempt retries); [|lia].
  unfold try_catch, bind, fetch, await. rewrite Hnet. cbn beta iota zeta.
  eexists. split; [reflexivity|]. simpl. by repeat split.
Qed.

(** One iteration: the attempt fails; it is logged, the timer is armed
    and awaited if another attempt follows, and the loop goes on. *)
Lemma loop_failure fuel attempt w :
  attempt < retries ->
  failed (network w (fetches w) url options) = true ->
  exists w' msg,
    loop (S fuel) attempt w = loop fuel (attempt + 1) w' /\
    fetches w' = S (fetches w) /\
    trace w' = trace w ++ [EvFetch url options; EvConsole Err msg]
               ++ (if attempt <? retries - 1 then [EvSetTimeout delay] else []) /\
    clock w' = clock w + settle_delay (network w (fetches w) url options)
               + (if attempt <? retries - 1 then Z.max 0 delay else 0) /\
    frame w w'.
Proof.
  intros Hlt Hfail. unfold loop. simpl.
  destruct (Z.ltb_spec attempt retries); [|lia].
  unfold try_catch at 1, bind at 1, fetch at 1. cbn beta iota zeta.
  destruct (network w (fetches w) url options) as [d [r|e]|] eqn:Hnet;
    simpl in Hfail; [|clear Hfail|done].
  - unfold bind at 1, await at 1. cbn beta iota zeta.
    rewrite Hfail. unfold throw at 1. cbn beta iota zeta.
    unfold bind at 1, console_error, emit. cbn beta iota zeta.
    destruct (attempt <? retries - 1).
    + unfold bind at 1 2, setTimeout_promise, await. cbn beta iota zeta.
      do 2 eexists. split; [reflexivity|]. simpl.
      rewrite <- !app_assoc. simpl. repeat split; lia.
    + unfold bind at 1, ret. cbn beta iota zeta.
      do 2 eexists. split; [reflexivity|]. simpl.
      rewrite <- !app_assoc. simpl. repeat split; lia.
  - unfold bind at 1, await at 1. cbn beta iota zeta.
    unfold bind at 1, console_error, emit. cbn beta iota zeta.
    destruct (attempt <? retries - 1).
    + unfold bind at 1 2, setTimeout_promise, await. cbn beta iota zeta.
      do 2 eexists. split; [reflexivity|]. simpl.
      rewrite <- !app_assoc. simpl. repeat split; lia.
    + unfold bind at 1, ret. cbn beta iota zeta.
      do 2 eexists. split; [reflexivity|]. simpl.
      rewrite <- !app_assoc. simpl. repeat split; lia.
Qed.

Lemma RetryRun_nonempty attempt w out w' n :
  RetryRun url options retries delay attempt w out w' n -> attempt < retries -> (1 <= n)%nat.
Proof.
  intros [Hb _ _ _ _ _ Hout] Hlt. destruct out as [r|e|].
  - tauto.
  - destruct Hout as (_ & Hn & _). lia.
  - tauto.
Qed.

Lemma retry_loop_run_failure fuel attempt w :
  (forall attempt w, fuel = Z.to_nat (retries - attempt) ->
     exists n, RetryRun url options retries delay attempt w (loop fuel attempt w).1 (loop fuel attempt w).2 n) ->
  S fuel = Z.to_nat (retries - attempt) ->
  failed (network w (fetches w) url options) = true ->
  exists n,
    RetryRun url options retries delay attempt w (loop (S fuel) attempt w).1 (loop (S fuel) attempt w).2 n.
Proof.
  intros IH Hfuel Hfail.
  assert (Hlt : attempt < retries) by lia.
  destruct (loop_failure fuel attempt w Hlt Hfail)
    as (w1 & msg & -> & Hf & Ht & Hc & Hfr).
  destruct (IH (attempt + 1) w1) as [n' Hrun]; [lia|].
  set (out := (loop fuel (attempt + 1) w1).1) in *.
  set (w' := (loop fuel (attempt + 1) w1).2) in *.
  assert (Hne : attempt + 1 < retries -> (1 <= n')%nat)
    by eauto using RetryRun_nonempty.
  destruct Hrun as [Hb Hf' (evs & Ht' & Hio) Hc' Hfr' Hear Hout].
  assert (Hn0 : retries <= attempt + 1 -> n' = 0%nat) by lia.
  assert (Hnet : forall i, network w1 (fetches w1 + i)%nat url options
                        = network w (fetches w + S i)%nat url options).
  { intros i. rewrite (frame_network _ _ Hfr), Hf. f_equal. lia. }
  exists (S n'). split.
  - lia.
  - lia.
  - eexists. split; [rewrite Ht', Ht, <- !app_assoc; reflexivity|].
    rewrite !without_console_app, Hio. simpl.
    destruct (Z.ltb_spec attempt (retries - 1)) as [H1|H1].
    + destruct n' as [|m]; [lia|]. reflexivity.
    + rewrite Hn0 by lia. reflexivity.
  - rewrite Hc', Hc, (frame_network _ _ Hfr), Hf. simpl total_latency.
    destruct (Z.ltb_spec attempt (retries - 1)) as [H1|H1].
    + destruct n' as [|m]; [lia|]. simpl pred. lia.
    + rewrite Hn0 by lia. simpl. lia.
  - eauto using frame_trans.
  - intros [|i] Hi.
    + by rewrite Nat.add_0_r.
    + rewrite <- Hnet. apply Hear. lia.
  - destruct out as [r|e|].
    + destruct Hout as (H1 & Hok & d & Hd). repeat split; [lia|done|].
      exists d. rewrite <- Hd, Hnet. f_equal. simpl. lia.
    + destruct Hout as (-> & Hn & Hall). repeat split; [lia|].
      intros [|i] Hi.
      * by rewrite Nat.add_0_r.
      * rewrite <- Hnet. apply Hall. lia.
    + destruct Hout as (H1 & Hd). split; [lia|].
      rewrite <- Hd, Hnet. f_equal. simpl. lia.
Qed.

(** The first attempt that does not fail, if it succeeds, ends the run. *)
Lemma RetryRun_first_success attempt w out w' n (k : nat) d r :
  RetryRun url options retries delay attempt w out w' n ->
  Z.of_nat k < retries - attempt ->
  (forall i, (i < k)%nat ->
     failed (network w (fetches w + i)%nat url options) = true) ->
  network w (fetches w + k)%nat url options = Settles d (Fulfilled r) ->
  ok r = true ->
  out = Returned r /\ n = S k.
Proof.
  intros [Hb _ _ _ _ Hear Hout] Hk Hprev Hnet Hok.
  assert (Hnotfailed : failed (network w (fetches w + k)%nat url options) = false)
    by (rewrite Hnet; simpl; by rewrite Hok).
  assert (Hle : (pred n <= k)%nat).
  { destruct (Nat.le_gt_cases (pred n) k) as [|Hlt]; [done|].
    rewrite Hear in Hnotfailed by lia. done. }
  destruct out as [r'|e|].
  - destruct Hout as (Hn & Hok' & d' & Hd').
    assert (k = pred n) as ->.
    { destruct (Nat.le_gt_cases k (pred n)) as [|Hlt]; [lia|].
      specialize (Hprev _ Hlt). rewrite Hd' in Hprev. simpl in Hprev.
      by rewrite Hok' in Hprev. }
    rewrite Hd' in Hnet. injection Hnet as _ ->. split; [done|lia].
  - destruct Hout as (_ & Hn & Hall).
    rewrite Hall in Hnotfailed by lia. done.
  - destruct Hout as (Hn & Hd').
    assert (k = pred n) as ->.
    { destruct (Nat.le_gt_cases k (pred n)) as [|Hlt]; [lia|].
      specialize (Hprev _ Hlt). by rewrite Hd' in Hprev. }
    by rewrite Hd' in Hnet.
Qed.

Lemma retry_loop_run fuel attempt w :
  fuel = Z.to_nat (retries - attempt) ->
  exists n,
    RetryRun url options retries delay attempt w (loop fuel attempt w).1 (loop fuel attempt w).2 n.
Proof.
  revert attempt w. induction fuel as [|fuel IH]; intros attempt w Hfuel.
  - rewrite loop_exit by lia. exists 0%nat. split; simpl; try lia; try done.
    + exists []. by rewrite app_nil_r.
    + repeat split; lia.
  - assert (Hlt : attempt < retries) by lia.
    destruct (failed (network w (fetches w) url options)) eqn:Hfail;
      [by apply retry_loop_run_failure|].
    destruct (network w (fetches w) url options) as [d [r|e]|] eqn:Hnet;
      simpl in Hfail; [|done|].
    + apply negb_false_iff in Hfail.
      destruct (loop_success fuel attempt w d r Hlt Hnet Hfail)
        as (w' & -> & Hf & Ht & Hc & Hfr).
      exists 1%nat. split; simpl; try lia; try done.
      * by exists [EvFetch url options].
      * rewrite Hnet. simpl. lia.
      * rewrite Nat.add_0_r. eauto.
    + destruct (loop_hang fuel attempt w Hlt Hnet) as (w' & -> & Hf & Ht & Hc & Hfr).
      exists 1%nat. split; simpl; try lia; try done.
      * by exists [EvFetch url options].
      * rewrite Hnet. simpl. lia.
      * by rewrite Nat.add_0_r.
Qed.

(** Fuel beyond what the loop needs changes nothing: the [O] branch of
    [retry_loop] is only reached where the loop exits anyway. *)
Lemma retry_loop_fuel fuel attempt w :
  (Z.to_nat (retries - attempt) <= fuel)%nat ->
  loop fuel attempt w = loop (Z.to_nat (retries - attempt)) attempt w.
Proof.
  revert attempt w. induction fuel as [|fuel IH]; intros attempt w Hfuel.
  - by replace (Z.to_nat (retries - attempt)) with 0%nat by lia.
  - destruct (Z.ltb_spec attempt retries) as [Hlt|Hge].
    + replace (Z.to_nat (retries - attempt))
        with (S (Z.to_nat (retries - (attempt + 1)))) by lia.
      unfold loop. simpl. destruct (attempt <? retries); [|done].
      apply try_catch_ext. intros e w1.
      apply bind_ext. intros _ w2. apply bind_ext. intros _ w3.
      apply IH. lia.
    + by rewrite !loop_exit.
Qed.
End RetryLoop.

Lemma network_calls_without_console evs :
  network_calls (without_console evs) = network_calls evs.
Proof.
  induction evs as [|e evs IH]; simpl; [done|].
  destruct e; simpl; by rewrite ?IH.
Qed.

Lemma network_calls_attempts_io url options delay n :
  network_calls (attempts_io url options delay n) = repeat (url, options) n.
Proof.
  destruct n as [|m]; simpl; [done|].
  rewrite network_calls_app. simpl.
  induction m as [|m IH]; simpl; [done|]. by rewrite IH.
Qed.

Lemma fetchWithRetry_run url options retries delay w :
  exists n,
    RetryRun url options retries delay 0 w
      (Background.fetchWithRetry url options retries delay w).1
      (Background.fetchWithRetry url options retries delay w).2 n.
Proof.
  unfold Background.fetchWithRetry. apply retry_loop_run. f_equal. lia.
Qed.

Lemma fetchWithRetry_of_background file url options retries delay w :
  fetchWithRetry_of file url options retries delay w
  = Background.fetchWithRetry url options retries delay w.
Proof. destruct file; [done|apply fetchWithRetry_same]. Qed.

(** C1.  A call [fetchWithRetry(url, options, retries, delay)], in either
    source file, makes some number [n] of attempts with [n <= retries].
    Its platform calls are exactly: a fetch, then for every further
    attempt one timer of [delay] milliseconds followed by a fetch; so one
    timer of the same [delay] sits between two consecutive attempts and
    none follows the last one.  The call takes the network time of its
    attempts plus [n - 1] times [delay].  Every attempt before the last
    one failed, and when attempt [k] is the first one that does not fail
    and it succeeds with response [r], the call returns [r] and has made
    exactly [k + 1] attempts. *)
Theorem fetchWithRetry_attempts_and_delays
    (file : SourceFile) (url : string) (options : RequestInit)
    (retries delay : Z) (w : World) :
  0 <= retries ->
  let run := fetchWithRetry_of file url options retries delay w in
  exists (n : nat) (evs : list Event),
    Z.of_nat n <= retries /\
    trace run.2 = trace w ++ evs /\
    network_calls evs = repeat (url, options) n /\
    without_console evs = attempts_io url options delay n /\
    clock run.2 = clock w + total_latency (network w) url options (fetches w) n
                  + Z.of_nat (pred n) * Z.max 0 delay /\
    (forall i, (S i < n)%nat ->
       failed (network w (fetches w + i)%nat url options) = true) /\
    (forall (k : nat) d r,
       Z.of_nat k < retries ->
       (forall i, (i < k)%nat ->
          failed (network w (fetches w + i)%nat url options) = true) ->
       network w (fetches w + k)%nat url options = Settles d (Fulfilled r) ->
       ok r = true ->
       run.1 = Returned r /\ n = S k).
Proof.
  intros Hretries run. subst run.
  rewrite fetchWithRetry_of_background.
  destruct (fetchWithRetry_run url options retries delay w) as [n Hrun].
  pose proof (fun k d r => RetryRun_first_success _ _ _ _ _ _ _ _ _ k d r Hrun) as Hfirst.
  destruct Hrun as [Hb Hf (evs & Ht & Hio) Hc Hfr Hear _].
  exists n, evs. split; [lia|]. split; [done|]. split.
  { by rewrite <- network_calls_without_console, Hio, network_calls_attempts_io. }
  split; [done|]. split; [done|]. split; [done|].
  intros k d r Hk. apply Hfirst. lia.
Qed.

Lemma fetchWithRetry_attempts_and_delays_witness :
  0 <= 3 /\
  exists (n : nat) (evs : list Event),
    Z.of_nat n <= 3 /\
    network_calls evs = repeat ("https://example.test/nodes", no_options) n /\
    without_console evs = attempts_io "https://example.test/nodes" no_options 1000 n.
Proof.
  split; [lia|].
  destruct (fetchWithRetry_attempts_and_delays utils_js "https://example.test/nodes"
              no_options 3 1000
              (initial_world (scripted [respond 20 500 None; respond 30 200 None]) ∅))
    as (n & evs & Hn & _ & Hcalls & Hio & _); [lia|].
  exists n, evs. auto.
Defined.

(** C5.  With [retries = 3], when the three attempts fail the call throws
    the error "All retry attempts failed", and it has issued exactly
    three fetches: there is no fourth attempt. *)
Theorem three_failures_raise_terminal_error
    (url : string) (options : RequestInit) (delay : Z) (w : World) :
  (forall i, (i < 3)%nat ->
     failed (network w (fetches w + i)%nat url options) = true) ->
  let run := Background.fetchWithRetry url options 3 delay w in
  run.1 = Thrown (Error "All retry attempts failed") /\
  fetches run.2 = (fetches w + 3)%nat /\
  exists evs,
    trace run.2 = trace w ++ evs /\
    network_calls evs = [(url, options); (url, options); (url, options)].
Proof.
  intros Hfail run. subst run.
  destruct (fetchWithRetry_run url options 3 delay w) as [n Hrun].
  destruct Hrun as [Hb Hf (evs & Ht & Hio) _ _ _ Hout].
  assert (Hcalls : network_calls evs = repeat (url, options) n)
    by (by rewrite <- network_calls_without_console, Hio, network_calls_attempts_io).
  destruct (Background.fetchWithRetry url options 3 delay w).1 as [r|e|].
  - destruct Hout as (Hn & Hok & d & Hd).
    specialize (Hfail (pred n) ltac:(lia)). rewrite Hd in Hfail. simpl in Hfail.
    by rewrite Hok in Hfail.
  - destruct Hout as (-> & Hn & _).
    assert (n = 3%nat) as -> by lia.
    split; [done|]. split; [done|]. by exists evs.
  - destruct Hout as (Hn & Hd).
    specialize (Hfail (pred n) ltac:(lia)). by rewrite Hd in Hfail.
Qed.

Lemma three_failures_raise_terminal_error_witness :
  (forall i, (i < 3)%nat ->
     failed (network (initial_world offline ∅) (0 + i)%nat "https://example.test/" no_options)
     = true) /\
  (Background.fetchWithRetry "https://example.test/" no_options 3 1000
     (initial_world offline ∅)).1
  = Thrown (Error "All retry attempts failed").
Proof.
  split; [reflexivity|].
  apply (three_failures_raise_terminal_error "https://example.test/" no_options 1000
           (initial_world offline ∅)).
  reflexivity.
Defined.

(** ** Which attempts count as failed *)

Lemma retry_loop_of_background file fuel url options retries delay attempt w :
  retry_loop_of file fuel url options retries delay attempt w
  = Background.retry_loop fuel url options retries delay attempt w.
Proof. destruct file; [done|apply retry_loop_same]. Qed.

Lemma failed_iff (p : Promise Response) :
  failed p = true <->
  (exists d e, p = Settles d (Rejected e)) \/
  (exists d r, p = Settles d (Fulfilled r) /\ ~ (200 <= status r <= 299)).
Proof.
  destruct p as [d [r|e]|]; simpl.
  - unfold ok. split.
    + intros H. right. exists d, r. split; [done|]. intros [H1 H2].
      apply Z.leb_le in H1, H2. by rewrite H1, H2 in H.
    + intros [(d' & e & [=])|(d' & r' & [= -> ->] & H)].
      destruct (Z.leb_spec 200 (status r')), (Z.leb_spec (status r') 299);
        try done; lia.
  - split; [|done]. intros _. left. by exists d, e.
  - split; [done|]. by intros [(d & e & [=])|(d & r & [=] & _)].
Qed.

(** C3, as the code has it.  In either source file, an attempt of the
    loop counts as failed exactly when its fetch rejects (a network
    error) or fulfils with a status outside 200-299, which is what
    [response.ok] tests.  A failed attempt is logged with
    [console.error] and the loop goes on to the next attempt; an attempt
    that does not fail ends the call at once.  A response with a 3xx
    status is a failed attempt. *)
Theorem attempt_fails_iff_error_or_status_not_2xx
    (file : SourceFile) (fuel : nat) (url : string) (options : RequestInit)
    (retries delay attempt : Z) (w : World) :
  attempt < retries ->
  let p := network w (fetches w) url options in
  let step := retry_loop_of file (S fuel) url options retries delay attempt w in
  (failed p = true <->
     (exists d e, p = Settles d (Rejected e)) \/
     (exists d r, p = Settles d (Fulfilled r) /\ ~ (200 <= status r <= 299))) /\
  (failed p = true ->
     exists w' msg,
       step = retry_loop_of file fuel url options retries delay (attempt + 1) w' /\
       trace w' = trace w ++ [EvFetch url options; EvConsole Err msg]
                  ++ (if attempt <? retries - 1 then [EvSetTimeout delay] else [])) /\
  (failed p = false ->
     exists w',
       trace w' = trace w ++ [EvFetch url options] /\
       (step = (Pending, w') \/
        exists d r, p = Settles d (Fulfilled r) /\ step = (Returned r, w'))) /\
  (forall d r, p = Settles d (Fulfilled r) -> 300 <= status r <= 399 -> failed p = true).
Proof.
  intros Hlt p step. subst step. rewrite retry_loop_of_background.
  split; [apply failed_iff|]. split; [|split].
  - intros Hfail.
    destruct (loop_failure url options retries delay fuel attempt w Hlt Hfail)
      as (w' & msg & Heq & _ & Ht & _).
    exists w', msg. by rewrite retry_loop_of_background.
  - intros Hnot. subst p.
    destruct (network w (fetches w) url options) as [d [r|e]|] eqn:Hnet;
      simpl in Hnot; [|done|].
    + apply negb_false_iff in Hnot.
      destruct (loop_success url options retries delay fuel attempt w d r Hlt Hnet Hnot)
        as (w' & Heq & _ & Ht & _).
      exists w'. split; [done|]. right. by exists d, r.
    + destruct (loop_hang url options retries delay fuel attempt w Hlt Hnet)
        as (w' & Heq & _ & Ht & _).
      exists w'. split; [done|]. by left.
  - intros d r Hp Hst. apply failed_iff. right. exists d, r. split; [done|lia].
Qed.

Lemma attempt_fails_iff_error_or_status_not_2xx_witness :
  0 < 3 /\
  failed (network (initial_world (scripted [respond 10 304 None; respond 10 200 None]) ∅)
            0%nat "https://example.test/" no_options) = true.
Proof.
  split; [lia|].
  eapply (attempt_fails_iff_error_or_status_not_2xx background_js 2
            "https://example.test/" no_options 3 1000 0
            (initial_world (scripted [respond 10 304 None; respond 10 200 None]) ∅)).
  - lia.
  - reflexivity.
  - simpl. lia.
Defined.

(** C3 as the spec words it fails: a 304 answer is not returned; the
    client retries and returns the 200 answer of the second fetch. *)
Lemma redirect_status_is_retried :
  let w := initial_world (scripted [respond 10 304 None; respond 10 200 None]) ∅ in
  let run := Background.fetchWithRetry "https://example.test/" no_options 3 1000 w in
  network w 0%nat "https://example.test/" no_options
    = Settles 10 (Fulfilled (mkResponse 304 "" None)) /\
  run.1 = Returned (mkResponse 200 "" None) /\
  run.1 <> Returned (mkResponse 304 "" None) /\
  network_calls (trace run.2)
    = [("https://example.test/", no_options); ("https://example.test/", no_options)].
Proof. vm_compute. repeat split; discriminate. Qed.

(** ** Base-URL resolution *)

Lemma same_but_trace_refl w : same_but_trace w w.
Proof. split; [apply frame_refl|done..]. Qed.

Lemma frame_platform w w' : frame w w' -> platform_frame w w'.
Proof. by intros []. Qed.

Lemma platform_frame_refl w : platform_frame w w.
Proof. by split. Qed.

Lemma platform_frame_trans w1 w2 w3 :
  platform_frame w1 w2 -> platform_frame w2 w3 -> platform_frame w1 w3.
Proof. intros [] []; split; congruence. Qed.

(** The test [data && data.baseUrl] and what follows it, on a parsed
    payload. *)
Lemma baseUrl_of_payload (data : JsVal) (w0 : World) :
  (data_baseUrl <- (if truthy data then prop data "baseUrl" else ret data) ;;
   if truthy data_baseUrl
   then prop data "baseUrl"
   else (console_warn [LStr "No baseUrl provided by backend, using fallback."] ;;
         ret (JStr "https://api.pipecdn.app"))) w0
  = match provided_baseUrl (mkResponse 200 "" (Some data)) with
    | Some v => (Returned v, w0)
    | None =>
        (Returned fallback,
         record (EvConsole Warn [LStr "No baseUrl provided by backend, using fallback."]) w0)
    end.
Proof.
  unfold provided_baseUrl. cbn [json_body].
  destruct (truthy data) eqn:Hd.
  - destruct data as [| |b|n|s|items|fields|name]; try discriminate Hd;
      unfold bind, prop; cbn [get_prop lift ret String.eqb Ascii.eqb Bool.eqb];
      cbn [truthy]; try reflexivity.
    destruct (assoc "baseUrl" fields) as [v|]; simpl; [|done].
    by destruct (truthy v).
  - unfold bind at 1, ret at 1. rewrite Hd.
    by destruct data as [| |b|n|s|items|fields|name]; try discriminate Hd.
Qed.

(** [fetchBaseUrl] of background.js never throws: after the retrying
    client has run, it only logs, and returns the provided base URL or
    the fallback. *)
Lemma fetchBaseUrl_run w out0 w0 :
  Background.fetchWithRetry config_url no_options 3 1000 w = (out0, w0) ->
  exists logs w',
    Background.fetchBaseUrl w
    = (match out0 with
       | Returned r => Returned (default fallback (provided_baseUrl r))
       | Thrown _ => Returned fallback
       | Pending => Pending
       end, w') /\
    same_but_trace w0 w' /\
    trace w' = trace w0 ++ logs /\
    without_console logs = [].
Proof.
  intros Hrun0.
  unfold Background.fetchBaseUrl, try_catch. unfold bind at 1.
  fold config_url. rewrite Hrun0. destruct out0 as [r|e|].
  - unfold bind at 1, json.
    destruct (json_body r) as [data|] eqn:Hjson.
    + unfold ret at 1. rewrite baseUrl_of_payload.
      unfold provided_baseUrl. cbn [json_body]. rewrite Hjson.
      destruct data as [| |b|n|s|items|fields|name]; cbn [default];
        try (eexists [_], _; split; [reflexivity|]; by repeat split).
      destruct (assoc "baseUrl" fields) as [v|]; [destruct (truthy v)|]; cbn [default];
        first [ exists [], w0; split; [reflexivity|]; rewrite app_nil_r; by repeat split
              | eexists [_], _; split; [reflexivity|]; by repeat split ].
    + unfold provided_baseUrl. rewrite Hjson.
      eexists [_], _. split; [reflexivity|]. by repeat split.
  - eexists [_], _. split; [reflexivity|]. by repeat split.
  - exists [], w0. split; [reflexivity|]. rewrite app_nil_r. by repeat split.
Qed.

Lemma provided_baseUrl_truthy r v : provided_baseUrl r = Some v -> truthy v = true.
Proof.
  unfold provided_baseUrl.
  destruct (json_body r) as [[| | | | | |fields|]|]; try done.
  destruct (assoc "baseUrl" fields) as [v'|]; [|done].
  destruct (truthy v') eqn:Hv; [|done]. by intros [= ->].
Qed.

Lemma fetchBaseUrl_summary w :
  exists (n : nat) evs out w',
    Background.fetchBaseUrl w = (out, w') /\
    (n <= 3)%nat /\
    trace w' = trace w ++ evs /\
    without_console evs = attempts_io config_url no_options 1000 n /\
    fetches w' = (fetches w + n)%nat /\
    frame w w' /\
    match out with
    | Returned v => truthy v = true /\ (v = fallback \/ backend_provided w n v)
    | Thrown _ => False
    | Pending => True
    end.
Proof.
  destruct (fetchWithRetry_run config_url no_options 3 1000 w) as [n Hrun].
  destruct (Background.fetchWithRetry config_url no_options 3 1000 w)
    as [out0 w0] eqn:Hrun0.
  destruct (fetchBaseUrl_run w out0 w0 Hrun0) as (logs & w' & Heq & Hsame & Ht' & Hlogs).
  destruct Hrun as [Hb Hf (evs & Ht & Hio) _ Hfr _ Hout]. cbn [fst snd] in *.
  destruct Hsame as [Hfr' _ Hf'].
  exists n, (evs ++ logs). do 2 eexists. split; [exact Heq|].
  split; [lia|]. split; [by rewrite Ht', Ht, app_assoc|].
  split; [by rewrite without_console_app, Hio, Hlogs, app_nil_r|].
  split; [congruence|]. split; [eauto using frame_trans|].
  destruct out0 as [r|e|]; [|by split; [|left]|done].
  destruct Hout as (Hn & Hok & d & Hd).
  destruct (provided_baseUrl r) as [v|] eqn:Hv; cbn [default]; [|by split; [|left]].
  split; [by eapply provided_baseUrl_truthy|].
  right. exists (pred n), d, r. repeat split; [lia|done..].
Qed.

(** [ensure] in the resolved state does nothing at all. *)
Lemma ensureBaseUrl_resolved w :
  resolved w -> Background.ensureBaseUrl w = (Returned tt, w).
Proof.
  unfold resolved, Background.ensureBaseUrl, bind, get_baseUrl. by intros ->.
Qed.

(** [ensure] in general: at most three requests, all to the
    configuration endpoint; it never throws, and when it returns the base
    URL is set. *)
Lemma ensureBaseUrl_summary w :
  exists (n : nat) evs out w',
    Background.ensureBaseUrl w = (out, w') /\
    (n <= 3)%nat /\
    trace w' = trace w ++ evs /\
    without_console evs = attempts_io config_url no_options 1000 n /\
    fetches w' = (fetches w + n)%nat /\
    platform_frame w w' /\
    match out with
    | Returned _ =>
        resolved w' /\
        (baseUrl w' = baseUrl w \/ baseUrl w' = fallback
         \/ backend_provided w n (baseUrl w'))
    | Thrown _ => False
    | Pending => baseUrl w' = baseUrl w
    end.
Proof.
  destruct (truthy (baseUrl w)) eqn:Hres.
  - exists 0%nat, [], (Returned tt), w.
    split; [by apply ensureBaseUrl_resolved|].
    rewrite app_nil_r, Nat.add_0_r. repeat split; auto.
  - destruct (fetchBaseUrl_summary w)
      as (n & evs & out & w1 & Heq & Hn & Ht & Hio & Hf & Hfr & Hout).
    unfold Background.ensureBaseUrl. unfold bind at 1, get_baseUrl at 1.
    rewrite Hres. cbn [negb]. unfold bind at 1. rewrite Heq.
    destruct out as [v|e|]; [|done|].
    + destruct Hout as (Hv & Hprov).
      eexists n, (evs ++ [_]). do 2 eexists. split; [reflexivity|].
      cbn. rewrite Ht, <- app_assoc. split; [done|]. split; [done|].
      split; [by rewrite without_console_app, Hio, app_nil_r|].
      split; [done|]. destruct Hfr. split; [by split|]. split; [done|].
      destruct Hprov; auto.
    + exists n, evs. do 2 eexists. split; [reflexivity|].
      destruct Hfr. repeat split; auto.
Qed.

(** ** The resolved state is stable *)

Lemma keeps_ret {A} (a : A) : keeps (ret a).
Proof. by intros w. Qed.

Lemma keeps_throw {A} e : keeps (@throw A e).
Proof. by intros w. Qed.

Lemma keeps_bind {A B} (c : Async A) (k : A -> Async B) :
  keeps c -> (forall a, keeps (k a)) -> keeps (bind c k).
Proof.
  intros Hc Hk w Hw. unfold bind. specialize (Hc w Hw).
  destruct (c w) as [[a|e|] w']; [by apply Hk|done..].
Qed.

Lemma keeps_try_catch {A} (body : Async A) (handler : JsError -> Async A) :
  keeps body -> (forall e, keeps (handler e)) -> keeps (try_catch body handler).
Proof.
  intros Hb Hh w Hw. unfold try_catch. specialize (Hb w Hw).
  destruct (body w) as [[a|e|] w']; [done|by apply Hh|done].
Qed.

Lemma keeps_if {A} (b : bool) (c1 c2 : Async A) :
  keeps c1 -> keeps c2 -> keeps (if b then c1 else c2).
Proof. by destruct b. Qed.

Lemma keeps_lift {A} (r : JsError + A) : keeps (lift r).
Proof. destruct r; by intros w. Qed.

Lemma keeps_prop v k : keeps (prop v k).
Proof. apply keeps_lift. Qed.

Lemma keeps_get_baseUrl : keeps get_baseUrl.
Proof. by intros w. Qed.

Lemma keeps_Date_now : keeps Date_now.
Proof. by intros w. Qed.

Lemma keeps_emit e : keeps (emit e).
Proof. by intros w. Qed.

Lemma keeps_fetch url init : keeps (fetch url init).
Proof. by intros w. Qed.

Lemma keeps_setTimeout_promise {A} ms (s : Settlement A) : keeps (setTimeout_promise ms s).
Proof. by intros w. Qed.

Lemma keeps_await {A} (p : Promise A) : keeps (await p).
Proof. intros w Hw. by destruct p as [t [a|e]|]. Qed.

Lemma keeps_Promise_race {A} (p q : Promise A) : keeps (Promise_race p q).
Proof. by intros w. Qed.

Lemma keeps_json r : keeps (json r).
Proof. unfold json. destruct (json_body r); by intros w. Qed.

Lemma keeps_text r : keeps (text r).
Proof. by intros w. Qed.

Lemma keeps_chrome_storage_local_get keys : keeps (chrome_storage_local_get keys).
Proof. by intros w. Qed.

Lemma keeps_for_each {A} (items : list A) (body : A -> Async unit) :
  (forall x, keeps (body x)) -> keeps (for_each items body).
Proof.
  intros Hbody. induction items as [|x items IH]; simpl.
  - apply keeps_ret.
  - apply keeps_bind; auto.
Qed.

Create HintDb keeps.
#[local] Hint Resolve keeps_ret keeps_throw keeps_lift keeps_prop keeps_get_baseUrl
  keeps_Date_now keeps_emit keeps_fetch keeps_setTimeout_promise keeps_await
  keeps_Promise_race keeps_json keeps_text keeps_chrome_storage_local_get : keeps.

(** Takes a computation apart along its binds, handlers and branches,
    and closes the leaves with the lemmas above. *)
Ltac keeps_auto :=
  repeat first
    [ progress intros
    | solve [auto with keeps]
    | apply keeps_bind
    | apply keeps_try_catch
    | apply keeps_if
    | apply keeps_for_each ].

Lemma keeps_retry_loop fuel url options retries delay attempt :
  keeps (Background.retry_loop fuel url options retries delay attempt).
Proof.
  revert attempt. induction fuel as [|fuel IH]; intros attempt; simpl.
  - apply keeps_throw.
  - unfold console_error. keeps_auto.
Qed.

Lemma keeps_fetchWithRetry url options retries delay :
  keeps (Background.fetchWithRetry url options retries delay).
Proof. apply keeps_retry_loop. Qed.

Lemma keeps_ensureBaseUrl : keeps Background.ensureBaseUrl.
Proof. intros w Hw. by rewrite ensureBaseUrl_resolved. Qed.

(** The refresh replaces the base URL by a value that is set. *)
Lemma keeps_refreshBaseUrl : keeps Background.refreshBaseUrl.
Proof.
  intros w Hw.
  destruct (fetchBaseUrl_summary w)
    as (n & evs & out & w1 & Heq & _ & _ & _ & _ & Hfr & Hout).
  unfold Background.refreshBaseUrl. unfold bind at 1. rewrite Heq.
  destruct out as [v|e|]; [|done|].
  - by destruct Hout as [Hv _].
  - unfold resolved. cbn [snd]. by rewrite (frame_baseUrl _ _ Hfr).
Qed.

#[local] Hint Resolve keeps_fetchWithRetry keeps_ensureBaseUrl keeps_refreshBaseUrl : keeps.

Lemma keeps_getToken : keeps Background.getToken.
Proof. unfold Background.getToken. keeps_auto. Qed.

#[local] Hint Resolve keeps_getToken : keeps.

Lemma keeps_testNodeLatency node : keeps (Background.testNodeLatency node).
Proof.
  unfold Background.testNodeLatency, console_error. cbv zeta. keeps_auto.
Qed.

Lemma keeps_reportTestResult node latency : keeps (Background.reportTestResult node latency).
Proof.
  unfold Background.reportTestResult, console_error, console_warn, console_log.
  keeps_auto.
Qed.

#[local] Hint Resolve keeps_testNodeLatency keeps_reportTestResult : keeps.

Lemma keeps_runNodeTests : keeps Background.runNodeTests.
Proof.
  unfold Background.runNodeTests, console_error, console_log. keeps_auto.
Qed.

Lemma keeps_showNotification msg link : keeps (Background.showNotification msg link).
Proof.
  unfold Background.showNotification, chrome_notifications_create. cbv zeta.
  apply keeps_bind; [auto with keeps|]. by intros _ w.
Qed.

#[local] Hint Resolve keeps_runNodeTests keeps_showNotification : keeps.

Lemma keeps_checkForRewards : keeps Background.checkForRewards.
Proof.
  unfold Background.checkForRewards, console_error, console_warn, console_log.
  keeps_auto.
Qed.

Lemma keeps_getGeoLocation : keeps Background.getGeoLocation.
Proof. unfold Background.getGeoLocation, console_error. keeps_auto. Qed.

#[local] Hint Resolve keeps_checkForRewards keeps_getGeoLocation : keeps.

Lemma keeps_heartbeat token : keeps (Background.heartbeat token).
Proof.
  unfold Background.heartbeat, console_error, console_log. keeps_auto.
Qed.

Lemma keeps_startHeartbeat : keeps Background.startHeartbeat.
Proof.
  unfold Background.startHeartbeat, console_warn, setInterval. keeps_auto.
Qed.

#[local] Hint Resolve keeps_heartbeat keeps_startHeartbeat : keeps.

Lemma keeps_onButtonClicked id idx : keeps (Background.onButtonClicked id idx).
Proof.
  intros w Hw. unfold Background.onButtonClicked.
  by destruct (truthy _ && (idx =? 0)).
Qed.

Lemma keeps_onInstalled : keeps Background.onInstalled.
Proof. unfold Background.onInstalled. keeps_auto. Qed.

Lemma keeps_onAlarm name : keeps (Background.onAlarm name).
Proof. unfold Background.onAlarm, console_log, console_warn. keeps_auto. Qed.

Lemma keeps_run_callback cb : keeps (Background.run_callback cb).
Proof. destruct cb; simpl; auto with keeps. Qed.

Lemma run_task_resolved t w : resolved w -> resolved (run_task t w).
Proof.
  intros Hw. destruct t as [| |name|id idx|cb|key [v|]|ms]; simpl; try done.
  - by apply keeps_onInstalled.
  - by apply keeps_onAlarm.
  - by apply keeps_onButtonClicked.
  - by apply keeps_run_callback.
Qed.

Lemma run_tasks_resolved tasks w : resolved w -> resolved (run_tasks tasks w).
Proof.
  revert w. induction tasks as [|t tasks IH]; intros w Hw; simpl; [done|].
  apply IH. by apply run_task_resolved.
Qed.

(** ** The resolver's fallback *)

(** background.js: whenever the retrying client gives up, or the answer
    it obtained carries no usable [baseUrl] (a body that is not JSON, a
    payload that is not an object, a missing or falsy field), the
    resolver returns the fallback. *)
Lemma background_fetchBaseUrl_fallback w out0 w0 :
  Background.fetchWithRetry config_url no_options 3 1000 w = (out0, w0) ->
  match out0 with
  | Returned r => provided_baseUrl r = None
  | Thrown _ => True
  | Pending => False
  end ->
  (Background.fetchBaseUrl w).1 = Returned fallback.
Proof.
  intros Hrun0 Hbad.
  destruct (fetchBaseUrl_run w out0 w0 Hrun0) as (logs & w' & -> & _).
  destruct out0 as [r|e|]; [|done..]. cbn [fst]. by rewrite Hbad.
Qed.

(** utils.js: the resolver returns [data.baseUrl] unchecked, so an
    answer without the field yields [undefined]. *)
Lemma utils_fetchBaseUrl_unchecked w d r fields :
  network w (fetches w) "https://new-backend-api.com/getBaseUrl" no_options
    = Settles d (Fulfilled r) ->
  ok r = true ->
  json_body r = Some (JObj fields) ->
  (Utils.fetchBaseUrl w).1 = Returned (default JUndefined (assoc "baseUrl" fields)).
Proof.
  intros Hnet Hok Hjson.
  unfold Utils.fetchBaseUrl, try_catch, bind, fetch, await, json.
  rewrite Hnet. cbn beta iota zeta. rewrite Hok. cbn [negb]. unfold ret at 1.
  cbn beta iota zeta. by rewrite Hjson.
Qed.

(** C2 fails on utils.js: the configuration endpoint answers 200 with the
    payload [{}]; [fetchBaseUrl] of utils.js returns [undefined], where
    [fetchBaseUrl] of background.js returns the fallback. *)
Lemma utils_fetchBaseUrl_missing_field_undefined :
  let w := initial_world (scripted [respond 10 200 (Some (JObj []))]) ∅ in
  provided_baseUrl (mkResponse 200 "" (Some (JObj []))) = None /\
  (Utils.fetchBaseUrl w).1 = Returned JUndefined /\
  (Background.fetchBaseUrl w).1 = Returned fallback.
Proof. vm_compute. by repeat split. Qed.

(** ** The cached base URL *)

Lemma ensureBaseUrl_unresolved w out0 w0 :
  ~ resolved w ->
  Background.fetchWithRetry config_url no_options 3 1000 w = (out0, w0) ->
  match out0 with
  | Returned r =>
      (Background.ensureBaseUrl w).1 = Returned tt /\
      baseUrl (Background.ensureBaseUrl w).2 = default fallback (provided_baseUrl r)
  | Thrown _ =>
      (Background.ensureBaseUrl w).1 = Returned tt /\
      baseUrl (Background.ensureBaseUrl w).2 = fallback
  | Pending => (Background.ensureBaseUrl w).1 = Pending
  end.
Proof.
  intros Hres Hrun0. apply not_true_is_false in Hres.
  destruct (fetchBaseUrl_run w out0 w0 Hrun0) as (logs & w' & Heq & _).
  assert (Hens : exists w'', Background.ensureBaseUrl w
            = match out0 with
              | Returned r =>
                  (Returned tt, set_baseUrl (default fallback (provided_baseUrl r)) w'')
              | Thrown _ => (Returned tt, set_baseUrl fallback w'')
              | Pending => (Pending, w'')
              end).
  { unfold Background.ensureBaseUrl. unfold bind at 1, get_baseUrl at 1.
    rewrite Hres. cbn [negb]. unfold bind at 1. rewrite Heq.
    destruct out0 as [r|e|];
      [eexists (mkWorld JNull _ _ _ _ _ _ _); reflexivity..|by exists w']. }
  destruct Hens as [w'' ->]. by destruct out0 as [r|e|].
Qed.

Lemma refreshBaseUrl_run w out w1 :
  Background.fetchBaseUrl w = (out, w1) ->
  Background.refreshBaseUrl w
  = match out with
    | Returned v =>
        (Returned tt,
         record (EvConsole Log [LStr "Base URL refreshed:"; LVal v]) (set_baseUrl v w1))
    | Thrown e => (Thrown e, w1)
    | Pending => (Pending, w1)
    end.
Proof.
  intros Heq. unfold Background.refreshBaseUrl. unfold bind at 1. rewrite Heq.
  by destruct out.
Qed.

(** C6.  A resolution attempt that completes leaves the base URL set: to
    a value the backend provided, or to the fallback; it never throws.
    Started unresolved, it stores the provided value when the answer has
    one, and the fallback when the retrying client gave up or the answer
    has none.  In the resolved state [ensure] changes nothing, and
    nothing the platform runs afterwards (listeners, timer callbacks,
    the hourly refresh) unsets the base URL. *)
Theorem baseUrl_never_unset_after_resolution :
  (forall w,
     let run := Background.ensureBaseUrl w in
     match run.1 with
     | Returned _ =>
         resolved run.2 /\
         (baseUrl run.2 = baseUrl w \/ baseUrl run.2 = fallback
          \/ exists n, backend_provided w n (baseUrl run.2))
     | Thrown _ => False
     | Pending => baseUrl run.2 = baseUrl w
     end) /\
  (forall w out0 w0,
     ~ resolved w ->
     Background.fetchWithRetry config_url no_options 3 1000 w = (out0, w0) ->
     match out0 with
     | Returned r =>
         (Background.ensureBaseUrl w).1 = Returned tt /\
         baseUrl (Background.ensureBaseUrl w).2 = default fallback (provided_baseUrl r)
     | Thrown _ =>
         (Background.ensureBaseUrl w).1 = Returned tt /\
         baseUrl (Background.ensureBaseUrl w).2 = fallback
     | Pending => (Background.ensureBaseUrl w).1 = Pending
     end) /\
  (forall w, resolved w -> Background.ensureBaseUrl w = (Returned tt, w)) /\
  (forall w,
     let run := Background.refreshBaseUrl w in
     match run.1 with
     | Returned _ =>
         resolved run.2 /\
         (baseUrl run.2 = fallback \/ exists n, backend_provided w n (baseUrl run.2))
     | Thrown _ => False
     | Pending => baseUrl run.2 = baseUrl w
     end) /\
  (forall w tasks, resolved w -> resolved (run_tasks tasks w)).
Proof.
  split; [|split; [|split; [|split]]].
  - intros w run. subst run.
    destruct (ensureBaseUrl_summary w)
      as (n & evs & out & w' & -> & _ & _ & _ & _ & _ & Hout).
    destruct out as [[]|e|]; [|done..]. cbn [fst snd].
    destruct Hout as [Hres [H|[H|H]]]; eauto 6.
  - apply ensureBaseUrl_unresolved.
  - apply ensureBaseUrl_resolved.
  - intros w run. subst run.
    destruct (fetchBaseUrl_summary w)
      as (n & evs & out & w1 & Heq & _ & _ & _ & _ & Hfr & Hout).
    rewrite (refreshBaseUrl_run w out w1 Heq).
    destruct out as [v|e|]; [|done|exact (frame_baseUrl _ _ Hfr)].
    destruct Hout as [Hv [->|Hprov]]; (split; [done|]); [by left|right; by exists n].
  - intros w tasks. apply run_tasks_resolved.
Qed.

Lemma baseUrl_never_unset_after_resolution_witness :
  let w := set_baseUrl fallback (initial_world offline ∅) in
  resolved w /\
  Background.ensureBaseUrl w = (Returned tt, w) /\
  resolved (run_tasks [OnInstalled; OnInterval RefreshBaseUrl; OnAlarm "nodeTestAlarm"] w).
Proof.
  split; [reflexivity|]. split.
  - apply (proj1 (proj2 (proj2 baseUrl_never_unset_after_resolution))). reflexivity.
  - apply (proj2 (proj2 (proj2 (proj2 baseUrl_never_unset_after_resolution)))).
    reflexivity.
Defined.

(** ** Missing token *)

Lemma omap_without_console {X} (f : Event -> option X) evs :
  (forall level args, f (EvConsole level args) = None) ->
  omap f (without_console evs) = omap f evs.
Proof.
  intros Hf. induction evs as [|e evs IH]; [done|].
  destruct e; cbn [without_console is_console]; cbn [omap list_omap];
    rewrite ?Hf, ?IH; done.
Qed.

Lemma omap_attempts_io {X} (f : Event -> option X) url options delay n :
  f (EvFetch url options) = None -> f (EvSetTimeout delay) = None ->
  omap f (attempts_io url options delay n) = [].
Proof.
  intros Hfetch Htimer. destruct n as [|m]; [done|]. unfold attempts_io.
  rewrite omap_app. simpl. rewrite Hfetch.
  induction m as [|m IH]; simpl; [done|]. by rewrite Hfetch, Htimer.
Qed.

(** A run whose platform calls are those of the retrying client installs
    no timer, reads no storage and creates no notification. *)
Lemma attempts_only evs url options delay n :
  without_console evs = attempts_io url options delay n ->
  network_calls evs = repeat (url, options) n /\
  intervals evs = [] /\ storage_reads evs = [] /\ notifications evs = [].
Proof.
  intros Hio. split.
  { by rewrite <- network_calls_without_console, Hio, network_calls_attempts_io. }
  unfold intervals, storage_reads, notifications.
  rewrite <- (omap_without_console as_interval), <- (omap_without_console as_storage_read),
    <- (omap_without_console as_notification) by done.
  rewrite Hio. by rewrite !omap_attempts_io.
Qed.

Lemma getToken_run w :
  Background.getToken w = (Returned (stored_token w), record (EvStorageGet ["token"]) w).
Proof.
  unfold Background.getToken, chrome_storage_local_get, stored_token, bind, emit.
  simpl. by destruct (storage w !! "token").
Qed.

Lemma absent_no_token w : storage w !! "token" = None -> no_token w.
Proof. unfold no_token, stored_token. by intros ->. Qed.

(** [startHeartbeat], reduced to what [ensureBaseUrl] did before it. *)
Lemma startHeartbeat_run w out1 w1 :
  Background.ensureBaseUrl w = (out1, w1) ->
  storage w1 = storage w ->
  Background.startHeartbeat w
  = match out1 with
    | Returned _ =>
        (Returned tt,
         record (if truthy (stored_token w)
                 then EvSetInterval (HeartbeatTick (stored_token w)) six_hours
                 else EvConsole Warn [LStr "No token found. Skipping heartbeat."])
                (record (EvStorageGet ["token"]) w1))
    | Thrown e => (Thrown e, w1)
    | Pending => (Pending, w1)
    end.
Proof.
  intros Hens Hst. unfold Background.startHeartbeat. unfold bind at 1. rewrite Hens.
  destruct out1 as [[]|e|]; [|done..].
  unfold bind at 1. rewrite getToken_run.
  assert (stored_token w1 = stored_token w) as -> by (unfold stored_token; by rewrite Hst).
  by destruct (truthy (stored_token w)).
Qed.

(** [ensureBaseUrl] stays pending only when the base URL is unresolved
    and one of its (at most three) configuration requests never
    settles. *)
Lemma ensureBaseUrl_pending w :
  (Background.ensureBaseUrl w).1 = Pending ->
  ~ resolved w /\
  exists k, (k < 3)%nat /\
    network w (fetches w + k)%nat config_url no_options = NeverSettles.
Proof.
  intros Hp. assert (Hres : ~ resolved w).
  { intros Hres. by rewrite (ensureBaseUrl_resolved w Hres) in Hp. }
  split; [done|].
  destruct (Background.fetchWithRetry config_url no_options 3 1000 w)
    as [out0 w0] eqn:Hrun.
  pose proof (ensureBaseUrl_unresolved w out0 w0 Hres Hrun) as Hcase.
  destruct (fetchWithRetry_run config_url no_options 3 1000 w) as (n & Hr).
  rewrite Hrun in Hr. cbn [fst snd] in Hr.
  destruct out0 as [r|e|].
  - destruct Hcase as [Hc _]. by rewrite Hc in Hp.
  - destruct Hcase as [Hc _]. by rewrite Hc in Hp.
  - destruct Hr as [Hbound _ _ _ _ _ [Hn Hhang]].
    exists (pred n). split; [lia|done].
Qed.

(** C4, as the code has it.  With no stored token, reporting a result
    makes no network call and returns.  [startHeartbeat] installs no
    timer and sends no heartbeat and no geolocation lookup: the only
    network calls it can make are those of the base-URL resolution that
    precedes the token check, at most three requests to the configuration
    endpoint, and none when the base URL is already resolved.  It never
    throws.  It returns whenever the base URL is already resolved or the
    configuration requests all settle; it stays pending only when the
    base URL is unresolved and one of those requests never settles. *)
Theorem no_token_skips_reporting_and_heartbeat (w : World) :
  no_token w ->
  (forall node latency,
     exists w',
       Background.reportTestResult node latency w = (Returned tt, w') /\
       fetches w' = fetches w /\
       network_calls (trace w') = network_calls (trace w)) /\
  (exists (n : nat) evs out w',
     Background.startHeartbeat w = (out, w') /\
     (out = Returned tt \/ out = Pending) /\
     trace w' = trace w ++ evs /\
     (n <= 3)%nat /\
     network_calls evs = repeat (config_url, no_options) n /\
     intervals evs = [] /\
     (resolved w -> n = 0%nat /\ out = Returned tt) /\
     (out = Pending ->
      ~ resolved w /\
      exists k, (k < 3)%nat /\
        network w (fetches w + k)%nat config_url no_options = NeverSettles) /\
     ((forall k, (k < 3)%nat ->
         network w (fetches w + k)%nat config_url no_options <> NeverSettles) ->
      out = Returned tt)).
Proof.
  intros Hno. split.
  - intros node latency. unfold Background.reportTestResult, bind.
    rewrite getToken_run. rewrite Hno. cbn [negb].
    eexists. split; [reflexivity|]. split; [done|].
    simpl. by rewrite !network_calls_app, !app_nil_r.
  - destruct (ensureBaseUrl_summary w)
      as (n & evs & out1 & w1 & Hens & Hn & Ht & Hio & Hf & Hpf & Hout).
    destruct (attempts_only _ _ _ _ _ Hio) as (Hcalls & Hint & _ & _).
    rewrite (startHeartbeat_run w out1 w1 Hens (pf_storage _ _ Hpf)).
    rewrite Hno.
    destruct out1 as [[]|e|]; [|done|].
    + exists n. eexists (evs ++ [_; _]). do 2 eexists. split; [reflexivity|].
      split; [by left|]. simpl. rewrite Ht, <- !app_assoc. split; [done|].
      split; [done|]. rewrite network_calls_app. simpl. rewrite app_nil_r.
      split; [done|]. unfold intervals in *. rewrite omap_app, Hint.
      split; [done|]. split; [|split; done].
      intros Hres.
      rewrite (ensureBaseUrl_resolved w Hres) in Hens. injection Hens as <-.
      split; [lia|done].
    + assert (Hhang := ensureBaseUrl_pending w). rewrite Hens in Hhang.
      specialize (Hhang eq_refl). destruct Hhang as (Hres & k & Hk & Hnever).
      exists n, evs. do 2 eexists. split; [reflexivity|].
      split; [by right|]. split; [done|]. split; [done|]. split; [done|].
      split; [done|]. split; [done|]. split.
      * intros _. split; [done|]. by exists k.
      * intros Hall. by destruct (Hall k Hk).
Qed.

Lemma no_token_skips_reporting_and_heartbeat_witness :
  let w := set_baseUrl fallback (initial_world offline ∅) in
  no_token w /\
  exists w',
    Background.reportTestResult (JObj [("node_id", JStr "n1"); ("ip", JStr "10.0.0.1")]) 42 w
    = (Returned tt, w') /\
    fetches w' = fetches w.
Proof.
  assert (Hno : no_token (set_baseUrl fallback (initial_world offline ∅)))
    by (vm_compute; reflexivity).
  split; [exact Hno|].
  destruct (no_token_skips_reporting_and_heartbeat
              (set_baseUrl fallback (initial_world offline ∅)) Hno) as [Hreport _].
  destruct (Hreport (JObj [("node_id", JStr "n1"); ("ip", JStr "10.0.0.1")]) 42)
    as (w' & Heq & Hf & _).
  by exists w'.
Defined.

(** C4 as the spec words it fails for the heartbeat: started with no
    token and no base URL yet, [startHeartbeat] first resolves the base
    URL, here with three requests to the configuration endpoint. *)
Lemma startHeartbeat_without_token_fetches :
  let w := initial_world offline ∅ in
  let run := Background.startHeartbeat w in
  storage w !! "token" = None /\
  run.1 = Returned tt /\
  network_calls (trace run.2)
    = [(config_url, no_options); (config_url, no_options); (config_url, no_options)].
Proof. vm_compute. by repeat split. Qed.

(** ** The latency probe *)

(** Every way a latency test can go, for a node whose [ip] and [node_id]
    can be read: the world after it and its result. *)
Lemma testNodeLatency_run node ip node_id w :
  get_prop node "ip" = inr ip ->
  get_prop node "node_id" = inr node_id ->
  let url := "http://" +:+ ToString ip in
  let armed := record (EvSetTimeout probe_timeout) (record_fetch url probe_options w) in
  let failure_log e :=
    EvConsole Err [LStr ("Node " +:+ ToString node_id +:+ " latency test failed:"); LErr e] in
  let timed_out :=
    (Returned (-1),
     record (failure_log (Error "Timeout")) (set_clock (clock w + probe_timeout) armed)) in
  Background.testNodeLatency node w
  = match network w (fetches w) url probe_options with
    | NeverSettles => timed_out
    | Settles d s =>
        if (Z.max 0 d <? probe_timeout)
           || ((Z.max 0 d =? probe_timeout) && race_tie_first w)
        then match s with
             | Fulfilled _ => (Returned (Z.max 0 d), set_clock (clock w + Z.max 0 d) armed)
             | Rejected e =>
                 (Returned (-1),
                  record (failure_log e) (set_clock (clock w + Z.max 0 d) armed))
             end
        else timed_out
    end.
Proof.
  intros Hip Hid url armed failure_log timed_out.
  unfold Background.testNodeLatency. cbv zeta.
  change (mkInit None [] None (Some "no-cors")) with probe_options.
  unfold bind at 1, Date_now at 1. unfold try_catch.
  unfold bind at 1, prop at 1. rewrite Hip. cbn [lift ret].
  unfold bind at 1, fetch at 1. fold url.
  unfold bind at 1, setTimeout_promise at 1.
  unfold bind at 1, Promise_race at 1.
  cbn [race_tie_first record record_fetch clock].
  unfold probe_timeout in *.
  replace (clock w + Z.max 0 5000) with (clock w + 5000) by lia.
  destruct (network w (fetches w) url probe_options) as [d s|].
  - replace (clock w + Z.max 0 d <? clock w + 5000) with (Z.max 0 d <? 5000)
      by (destruct (Z.ltb_spec (Z.max 0 d) 5000),
            (Z.ltb_spec (clock w + Z.max 0 d) (clock w + 5000)); lia).
    replace (clock w + Z.max 0 d =? clock w + 5000) with (Z.max 0 d =? 5000)
      by (destruct (Z.eqb_spec (Z.max 0 d) 5000),
            (Z.eqb_spec (clock w + Z.max 0 d) (clock w + 5000)); lia).
    destruct ((Z.max 0 d <? 5000) || ((Z.max 0 d =? 5000) && race_tie_first w)).
    + destruct s as [r|e].
      * unfold bind, await, Date_now, ret. cbn.
        subst armed. unfold set_clock, record, record_fetch. cbn.
        rewrite (Z.max_r (clock w)) by lia. do 2 f_equal. lia.
      * unfold bind, await, prop. rewrite Hid. cbn.
        subst timed_out armed failure_log. unfold set_clock, record, record_fetch. cbn.
        by rewrite (Z.max_r (clock w)) by lia.
    + unfold bind, await, prop. rewrite Hid. cbn.
      subst timed_out armed failure_log. unfold set_clock, record, record_fetch. cbn.
      by rewrite (Z.max_r (clock w)) by lia.
  - unfold bind, await, prop. rewrite Hid. cbn.
    subst timed_out armed failure_log. unfold set_clock, record, record_fetch. cbn.
    by rewrite (Z.max_r (clock w)) by lia.
Qed.

(** A probe that fulfils before the timeout: the elapsed time is returned. *)
Lemma probe_fulfilled_in_time node ip node_id w d r :
  get_prop node "ip" = inr ip ->
  get_prop node "node_id" = inr node_id ->
  network w (fetches w) ("http://" +:+ ToString ip) probe_options
    = Settles d (Fulfilled r) ->
  Z.max 0 d < 5000 ->
  (Background.testNodeLatency node w).1 = Returned (Z.max 0 d) /\
  clock (Background.testNodeLatency node w).2 = clock w + Z.max 0 d.
Proof.
  intros Hip Hid Hnet Hd.
  rewrite (testNodeLatency_run node ip node_id w Hip Hid). cbv zeta.
  rewrite Hnet. unfold probe_timeout. apply Z.ltb_lt in Hd. by rewrite Hd.
Qed.

(** C7.  A latency test of a node (an object whose [ip] and [node_id]
    can be read, as the node list supplies them) issues exactly one probe
    and never a second one.  When the probe wins the race against the
    5000 ms timer by fulfilling, the test returns the elapsed
    milliseconds; when it rejects before the timeout the test returns -1
    at that moment; when the timer wins (the probe never settles, or has
    not settled by then) the test returns -1 exactly 5000 ms after it
    started, not earlier or later.  Timers are ideal. *)
Theorem testNodeLatency_single_probe_with_timeout
    (node ip node_id : JsVal) (w : World) :
  get_prop node "ip" = inr ip ->
  get_prop node "node_id" = inr node_id ->
  let url := "http://" +:+ ToString ip in
  let p := network w (fetches w) url probe_options in
  let run := Background.testNodeLatency node w in
  (exists evs,
     trace run.2 = trace w ++ evs /\ network_calls evs = [(url, probe_options)]) /\
  (forall d r,
     p = Settles d (Fulfilled r) -> Z.max 0 d < 5000 ->
     run.1 = Returned (Z.max 0 d) /\ clock run.2 = clock w + Z.max 0 d) /\
  (forall d e,
     p = Settles d (Rejected e) -> Z.max 0 d < 5000 ->
     run.1 = Returned (-1) /\ clock run.2 = clock w + Z.max 0 d) /\
  (p = NeverSettles \/ (exists d s, p = Settles d s /\ 5000 < d) ->
   run.1 = Returned (-1) /\ clock run.2 = clock w + 5000) /\
  (forall s, p = Settles 5000 s -> clock run.2 = clock w + 5000).
Proof.
  intros Hip Hid url p run. subst run.
  rewrite (testNodeLatency_run node ip node_id w Hip Hid). cbv zeta.
  fold url. fold p. unfold probe_timeout.
  split; [|split; [|split; [|split]]].
  - destruct p as [d [r|e]|];
      [destruct ((Z.max 0 d <? 5000) || _)..|];
      cbn [snd trace record record_fetch set_clock];
      eexists; (split; [rewrite <- !app_assoc; reflexivity|]); reflexivity.
  - intros d r -> Hd. apply Z.ltb_lt in Hd. by rewrite Hd.
  - intros d e -> Hd. apply Z.ltb_lt in Hd. by rewrite Hd.
  - intros [->|(d & s & -> & Hd)]; [done|].
    destruct (Z.ltb_spec (Z.max 0 d) 5000); [lia|].
    destruct (Z.eqb_spec (Z.max 0 d) 5000); [lia|]. done.
  - intros s ->. change (Z.max 0 5000) with 5000.
    by destruct (race_tie_first w), s.
Qed.

Lemma testNodeLatency_single_probe_with_timeout_witness :
  let node := JObj [("node_id", JStr "n1"); ("ip", JStr "10.0.0.1")] in
  let w := initial_world (scripted [respond 120 200 None]) ∅ in
  get_prop node "ip" = inr (JStr "10.0.0.1") /\
  get_prop node "node_id" = inr (JStr "n1") /\
  (Background.testNodeLatency node w).1 = Returned 120.
Proof.
  split; [reflexivity|]. split; [reflexivity|].
  apply (proj1 (proj2 (testNodeLatency_single_probe_with_timeout
           (JObj [("node_id", JStr "n1"); ("ip", JStr "10.0.0.1")])
           (JStr "10.0.0.1") (JStr "n1")
           (initial_world (scripted [respond 120 200 None]) ∅) eq_refl eq_refl))
         120 (mkResponse 200 "" None)).
  - reflexivity.
  - reflexivity.
Defined.

(** ** Reported status *)

(** With a token, reporting a result issues one request, whatever becomes
    of it; its body is the object below. *)
Lemma reportTestResult_run node node_id ip latency w :
  has_token w ->
  get_prop node "node_id" = inr node_id ->
  get_prop node "ip" = inr ip ->
  exists out w' logs,
    Background.reportTestResult node latency w = (out, w') /\
    (out = Returned tt \/ out = Pending) /\
    trace w' = trace w
               ++ [EvStorageGet ["token"];
                   EvFetch (ToString (baseUrl w) +:+ "/api/test")
                     (mkInit (Some "POST")
                        [("Content-Type", "application/json");
                         ("Authorization", "Bearer " +:+ ToString (stored_token w))]
                        (Some (JObj [("node_id", node_id);
                                     ("ip", ip);
                                     ("latency", JNum latency);
                                     ("status", JStr (if latency >? 0
                                                      then "online" else "offline"))]))
                        None)]
               ++ logs /\
    without_console logs = [].
Proof.
  intros Htok Hid Hip.
  unfold Background.reportTestResult. unfold bind at 1. rewrite getToken_run.
  unfold has_token in Htok. rewrite Htok. cbn [negb].
  unfold try_catch, bind, get_baseUrl, prop, fetch, await.
  rewrite Hid, Hip. cbn [lift ret baseUrl record record_fetch network fetches clock].
  destruct (network w (fetches w) _ _) as [d [r|e]|].
  - destruct (ok r); rewrite ?Hid; cbn [lift ret console_log console_error emit];
      do 2 eexists; eexists [_]; (split; [reflexivity|]); (split; [by left|]);
      cbn [trace record record_fetch set_clock]; rewrite <- !app_assoc; by split.
  - rewrite ?Hid. cbn [lift ret console_error emit].
    do 2 eexists; eexists [_]. split; [reflexivity|]. split; [by left|].
    cbn [trace record record_fetch set_clock]. rewrite <- !app_assoc. by split.
  - do 2 eexists; exists []. split; [reflexivity|]. split; [by right|].
    cbn [trace record record_fetch]. rewrite <- !app_assoc. by rewrite app_nil_r.
Qed.

(** C9.  With a token stored, the request that reports a result carries
    the measured latency, and its status field is "online" exactly when
    the latency is strictly greater than 0, "offline" otherwise.  A probe
    that fulfils with 0 ms elapsed yields the latency 0, not the sentinel
    -1, and is therefore reported "offline". *)
Theorem reported_status_online_iff_positive_latency
    (node node_id ip : JsVal) (latency : Z) (w : World) :
  has_token w ->
  get_prop node "node_id" = inr node_id ->
  get_prop node "ip" = inr ip ->
  let run := Background.reportTestResult node latency w in
  (exists evs init fields,
     trace run.2 = trace w ++ evs /\
     network_calls evs = [(ToString (baseUrl w) +:+ "/api/test", init)] /\
     body init = Some (JObj fields) /\
     assoc "latency" fields = Some (JNum latency) /\
     (assoc "status" fields = Some (JStr "online") <-> 0 < latency) /\
     (assoc "status" fields = Some (JStr "offline") <-> latency <= 0)) /\
  (forall w0 r,
     network w0 (fetches w0) ("http://" +:+ ToString ip) probe_options
       = Settles 0 (Fulfilled r) ->
     (Background.testNodeLatency node w0).1 = Returned 0 /\
     (latency = 0 ->
      exists evs init fields,
        trace run.2 = trace w ++ evs /\
        network_calls evs = [(ToString (baseUrl w) +:+ "/api/test", init)] /\
        body init = Some (JObj fields) /\
        assoc "status" fields = Some (JStr "offline"))).
Proof.
  intros Htok Hid Hip run. subst run.
  destruct (reportTestResult_run node node_id ip latency w Htok Hid Hip)
    as (out & w' & logs & -> & _ & Ht & Hlogs). cbn [snd].
  assert (Hcalls : forall evs, without_console evs = [] -> network_calls evs = []).
  { intros evs H. by rewrite <- network_calls_without_console, H. }
  split.
  - do 3 eexists. split; [exact Ht|].
    split; [cbn [network_calls app]; by rewrite (Hcalls logs Hlogs)|].
    split; [reflexivity|]. split; [reflexivity|]. simpl.
    destruct (Z.gtb_spec latency 0); split; split; (done || lia).
  - intros w0 r Hprobe. split.
    + by destruct (probe_fulfilled_in_time node ip node_id w0 0 r Hip Hid Hprobe).
    + intros ->. do 3 eexists. split; [exact Ht|].
      split; [cbn [network_calls app]; by rewrite (Hcalls logs Hlogs)|].
      split; reflexivity.
Qed.

Lemma reported_status_online_iff_positive_latency_witness :
  let node := JObj [("node_id", JStr "n1"); ("ip", JStr "10.0.0.1")] in
  let w := signed_in_world offline in
  let w0 := initial_world (scripted [respond 0 200 None]) ∅ in
  has_token w /\
  (Background.testNodeLatency node w0).1 = Returned 0.
Proof.
  assert (Htok : has_token (signed_in_world offline)) by (vm_compute; reflexivity).
  split; [exact Htok|].
  apply (proj2 (reported_status_online_iff_positive_latency
           (JObj [("node_id", JStr "n1"); ("ip", JStr "10.0.0.1")])
           (JStr "n1") (JStr "10.0.0.1") 0 (signed_in_world offline)
           Htok eq_refl eq_refl)
         (initial_world (scripted [respond 0 200 None]) ∅) (mkResponse 200 "" None)).
  reflexivity.
Defined.

(** ** Rewards *)

(** A rewards check that gets a successful answer with an object as its
    payload: one notification when the object has a key, none when it is
    empty. *)
Lemma checkForRewards_run w w1 d r fields :
  Background.ensureBaseUrl w = (Returned tt, w1) ->
  storage w1 = storage w ->
  has_token w ->
  network w1 (fetches w1) (ToString (baseUrl w1) +:+ "/api/rewards")
          (rewards_options (stored_token w)) = Settles d (Fulfilled r) ->
  ok r = true ->
  json_body r = Some (JObj fields) ->
  exists w' evs,
    Background.checkForRewards w = (Returned tt, w') /\
    trace w' = trace w1 ++ evs /\
    match fields with
    | [] =>
        notifications evs = [] /\ notificationLinks w' = notificationLinks w1
    | _ :: _ =>
        let link := default JUndefined (assoc "link" fields) in
        notifications evs
          = [rewards_notification ("Earn more rewards points! Visit: " +:+ ToString link)] /\
        notificationLinks w' = <["rewardsNotification" := link]> (notificationLinks w1)
    end.
Proof.
  intros Hens Hst Htok Hnet Hok Hjson.
  unfold Background.checkForRewards. unfold bind at 1. rewrite Hens.
  unfold bind at 1. rewrite getToken_run.
  assert (stored_token w1 = stored_token w) as -> by (unfold stored_token; by rewrite Hst).
  unfold has_token in Htok. rewrite Htok. cbn [negb].
  unfold try_catch. unfold bind at 1, get_baseUrl at 1. cbn [baseUrl record].
  unfold bind at 1, fetch at 1. cbn [network fetches record clock].
  fold (rewards_options (stored_token w)). rewrite Hnet.
  unfold bind at 1, await at 1. rewrite Hok.
  unfold bind at 1, json at 1. rewrite Hjson. unfold ret at 1.
  unfold bind at 1, lift, Object_keys, ret at 1.
  destruct fields as [|[k v] fields]; cbn [map length Nat.ltb Nat.leb].
  - do 2 eexists. split; [reflexivity|].
    cbn [trace record record_fetch set_clock notificationLinks].
    rewrite <- !app_assoc. split; [reflexivity|]. by split.
  - unfold bind at 1, prop, lift, ret. cbn [get_prop].
    unfold Background.showNotification, chrome_notifications_create, bind, emit.
    cbv zeta. do 2 eexists. split; [reflexivity|].
    cbn [trace record record_fetch set_clock notificationLinks set_notificationLinks].
    rewrite <- !app_assoc. split; [reflexivity|]. by split.
Qed.

(** C8.  A rewards check with a token stored and a successful answer:
    for the payload [{}] no notification is created (and no link is
    stored); for the payload [{link: "https://y"}] exactly one
    notification is created, its message names "https://y" and the link
    stored for it is "https://y". *)
Theorem rewards_check_notifies_iff_payload_nonempty
    (w w1 : World) (d : Z) (r : Response) :
  Background.ensureBaseUrl w = (Returned tt, w1) ->
  has_token w ->
  network w1 (fetches w1) (ToString (baseUrl w1) +:+ "/api/rewards")
          (rewards_options (stored_token w)) = Settles d (Fulfilled r) ->
  ok r = true ->
  let run := Background.checkForRewards w in
  (json_body r = Some (JObj []) ->
   exists evs,
     trace run.2 = trace w ++ evs /\
     notifications evs = [] /\
     notificationLinks run.2 = notificationLinks w) /\
  (json_body r = Some (JObj [("link", JStr "https://y")]) ->
   exists evs,
     trace run.2 = trace w ++ evs /\
     notifications evs
       = [rewards_notification "Earn more rewards points! Visit: https://y"] /\
     notificationLinks run.2
       = <["rewardsNotification" := JStr "https://y"]> (notificationLinks w)).
Proof.
  intros Hens Htok Hnet Hok run. subst run.
  destruct (ensureBaseUrl_summary w)
    as (n & evs0 & out1 & w1' & Hens' & _ & Ht0 & Hio & _ & Hpf & _).
  rewrite Hens in Hens'. injection Hens' as <- <-.
  destruct (attempts_only _ _ _ _ _ Hio) as (_ & _ & _ & Hnotif0).
  destruct Hpf as [Hlinks Hst _ _].
  split; intros Hjson;
    destruct (checkForRewards_run w w1 d r _ Hens Hst Htok Hnet Hok Hjson)
      as (w' & evs & -> & Ht & Hnotif & Hlinks');
    cbn [snd]; exists (evs0 ++ evs);
    (split; [by rewrite Ht, Ht0, app_assoc|]);
    unfold notifications in *; rewrite omap_app, Hnotif0, Hnotif;
    (split; [done|]); by rewrite Hlinks', Hlinks.
Qed.

Lemma rewards_check_notifies_iff_payload_nonempty_witness :
  let net := scripted [respond 15 200 (Some (JObj [("link", JStr "https://y")]))] in
  let w := signed_in_world net in
  has_token w /\
  exists evs,
    trace (Background.checkForRewards w).2 = trace w ++ evs /\
    notifications evs = [rewards_notification "Earn more rewards points! Visit: https://y"].
Proof.
  assert (Htok : has_token
            (signed_in_world
               (scripted [respond 15 200 (Some (JObj [("link", JStr "https://y")]))])))
    by (vm_compute; reflexivity).
  split; [exact Htok|].
  destruct (proj2 (rewards_check_notifies_iff_payload_nonempty
                     (signed_in_world
                        (scripted [respond 15 200
                                     (Some (JObj [("link", JStr "https://y")]))]))
                     _ 15 _ eq_refl Htok eq_refl eq_refl) eq_refl)
    as (evs & Ht & Hn & _).
  by exists evs.
Defined.

(** ** The heartbeat *)

Lemma blind_ret {A} (a : A) : storage_blind (ret a).
Proof. by intros s w. Qed.

Lemma blind_throw {A} e : storage_blind (@throw A e).
Proof. by intros s w. Qed.

Lemma blind_bind {A B} (c : Async A) (k : A -> Async B) :
  storage_blind c -> (forall a, storage_blind (k a)) -> storage_blind (bind c k).
Proof.
  intros Hc Hk s w. unfold bind. rewrite Hc.
  destruct (c w) as [[a|e|] w']; cbn [fst snd]; [apply Hk|done..].
Qed.

Lemma blind_try_catch {A} (body : Async A) (handler : JsError -> Async A) :
  storage_blind body -> (forall e, storage_blind (handler e)) ->
  storage_blind (try_catch body handler).
Proof.
  intros Hb Hh s w. unfold try_catch. rewrite Hb.
  destruct (body w) as [[a|e|] w']; cbn [fst snd]; [done|apply Hh|done].
Qed.

Lemma blind_if {A} (b : bool) (c1 c2 : Async A) :
  storage_blind c1 -> storage_blind c2 -> storage_blind (if b then c1 else c2).
Proof. by destruct b. Qed.

Lemma blind_lift {A} (r : JsError + A) : storage_blind (lift r).
Proof. destruct r; by intros s w. Qed.

Lemma blind_prop v k : storage_blind (prop v k).
Proof. apply blind_lift. Qed.

Lemma blind_get_baseUrl : storage_blind get_baseUrl.
Proof. by intros s w. Qed.

Lemma blind_Date_now : storage_blind Date_now.
Proof. by intros s w. Qed.

Lemma blind_emit e : storage_blind (emit e).
Proof. by intros s w. Qed.

Lemma blind_fetch url init : storage_blind (fetch url init).
Proof. by intros s w. Qed.

Lemma blind_await {A} (p : Promise A) : storage_blind (await p).
Proof. intros s w. by destruct p as [t [a|e]|]. Qed.

Lemma blind_json r : storage_blind (json r).
Proof. unfold json. destruct (json_body r); by intros s w. Qed.

Lemma blind_text r : storage_blind (text r).
Proof. by intros s w. Qed.

Create HintDb blind.
#[local] Hint Resolve blind_ret blind_throw blind_lift blind_prop blind_get_baseUrl
  blind_Date_now blind_emit blind_fetch blind_await blind_json blind_text : blind.

Ltac blind_auto :=
  repeat first
    [ progress intros
    | solve [auto with blind]
    | apply blind_bind
    | apply blind_try_catch
    | apply blind_if ].

Lemma blind_getGeoLocation : storage_blind Background.getGeoLocation.
Proof. unfold Background.getGeoLocation, console_error. blind_auto. Qed.

#[local] Hint Resolve blind_getGeoLocation : blind.

Lemma blind_heartbeat token : storage_blind (Background.heartbeat token).
Proof. unfold Background.heartbeat, console_error, console_log. blind_auto. Qed.

Section EmitsOnly.
Variable P : Event -> Prop.

Lemma emits_nothing {A} (c : Async A) :
  (forall w, trace (c w).2 = trace w) -> emits_only P c.
Proof. intros H w. exists []. by rewrite app_nil_r. Qed.

Lemma emits_ret {A} (a : A) : emits_only P (ret a).
Proof. by apply emits_nothing. Qed.

Lemma emits_throw {A} e : emits_only P (@throw A e).
Proof. by apply emits_nothing. Qed.

Lemma emits_bind {A B} (c : Async A) (k : A -> Async B) :
  emits_only P c -> (forall a, emits_only P (k a)) -> emits_only P (bind c k).
Proof.
  intros Hc Hk w. unfold bind. destruct (Hc w) as (evs & Ht & Hevs).
  destruct (c w) as [[a|e|] w']; cbn [snd] in *; [|by exists evs..].
  destruct (Hk a w') as (evs' & Ht' & Hevs').
  exists (evs ++ evs'). split; [by rewrite Ht', Ht, app_assoc|].
  by apply Forall_app.
Qed.

Lemma emits_try_catch {A} (body : Async A) (handler : JsError -> Async A) :
  emits_only P body -> (forall e, emits_only P (handler e)) ->
  emits_only P (try_catch body handler).
Proof.
  intros Hb Hh w. unfold try_catch. destruct (Hb w) as (evs & Ht & Hevs).
  destruct (body w) as [[a|e|] w']; cbn [snd] in *; [by exists evs| |by exists evs].
  destruct (Hh e w') as (evs' & Ht' & Hevs').
  exists (evs ++ evs'). split; [by rewrite Ht', Ht, app_assoc|].
  by apply Forall_app.
Qed.

Lemma emits_if {A} (b : bool) (c1 c2 : Async A) :
  emits_only P c1 -> emits_only P c2 -> emits_only P (if b then c1 else c2).
Proof. by destruct b. Qed.

Lemma emits_lift {A} (r : JsError + A) : emits_only P (lift r).
Proof. destruct r; by apply emits_nothing. Qed.

Lemma emits_prop v k : emits_only P (prop v k).
Proof. apply emits_lift. Qed.

Lemma emits_get_baseUrl : emits_only P get_baseUrl.
Proof. by apply emits_nothing. Qed.

Lemma emits_Date_now : emits_only P Date_now.
Proof. by apply emits_nothing. Qed.

Lemma emits_await {A} (p : Promise A) : emits_only P (await p).
Proof. apply emits_nothing. intros w. by destruct p as [t [a|e]|]. Qed.

Lemma emits_json r : emits_only P (json r).
Proof. unfold json. destruct (json_body r); by apply emits_nothing. Qed.

Lemma emits_text r : emits_only P (text r).
Proof. by apply emits_nothing. Qed.

Lemma emits_emit e : P e -> emits_only P (emit e).
Proof. intros He w. exists [e]. split; [done|]. by apply Forall_singleton. Qed.

Lemma emits_fetch url init : P (EvFetch url init) -> emits_only P (fetch url init).
Proof.
  intros He w. exists [EvFetch url init]. split; [done|]. by apply Forall_singleton.
Qed.

End EmitsOnly.

Create HintDb emits.
#[local] Hint Resolve emits_ret emits_throw emits_lift emits_prop emits_get_baseUrl
  emits_Date_now emits_await emits_json emits_text : emits.

Ltac emits_auto :=
  repeat first
    [ progress intros
    | solve [auto with emits]
    | apply emits_bind
    | apply emits_try_catch
    | apply emits_if
    | apply emits_emit; exact I
    | apply emits_fetch; simpl; solve [auto] ].

Lemma heartbeat_emits token :
  emits_only (heartbeat_event token) (Background.heartbeat token).
Proof.
  unfold Background.heartbeat, Background.getGeoLocation, console_error, console_log.
  emits_auto.
Qed.

(** * Further properties of the code *)

(** ** The retrying client: bounds and hung requests *)

(** X1.  With [retries <= 0] the loop body never runs: the call throws
    "All retry attempts failed" at once, without any request, timer or
    log line, in either source file. *)
Theorem fetchWithRetry_without_attempts
    (file : SourceFile) (url : string) (options : RequestInit)
    (retries delay : Z) (w : World) :
  retries <= 0 ->
  fetchWithRetry_of file url options retries delay w
  = (Thrown (Error "All retry attempts failed"), w).
Proof.
  intros Hle. rewrite fetchWithRetry_of_background.
  unfold Background.fetchWithRetry. apply loop_exit. lia.
Qed.

Lemma fetchWithRetry_without_attempts_witness :
  0 <= 0 /\
  fetchWithRetry_of utils_js "https://example.test/" no_options 0 1000
    (initial_world offline ∅)
  = (Thrown (Error "All retry attempts failed"), initial_world offline ∅).
Proof.
  split; [lia|].
  apply (fetchWithRetry_without_attempts utils_js "https://example.test/" no_options
           0 1000 (initial_world offline ∅)).
  lia.
Defined.

(** A run whose first attempt that does not fail hangs stays pending. *)
Lemma RetryRun_first_hang url options retries delay w out w' n (k : nat) :
  RetryRun url options retries delay 0 w out w' n ->
  Z.of_nat k < retries ->
  (forall i, (i < k)%nat ->
     failed (network w (fetches w + i)%nat url options) = true) ->
  network w (fetches w + k)%nat url options = NeverSettles ->
  out = Pending /\ n = S k.
Proof.
  intros [Hb _ _ _ _ Hear Hout] Hk Hprev Hnet.
  assert (Hnotfailed : failed (network w (fetches w + k)%nat url options) = false)
    by (by rewrite Hnet).
  assert (Hle : (pred n <= k)%nat).
  { destruct (Nat.le_gt_cases (pred n) k) as [|Hlt]; [done|].
    rewrite Hear in Hnotfailed by lia. done. }
  destruct out as [r|e|].
  - destruct Hout as (Hn & Hok & d & Hd).
    assert (k = pred n) as ->.
    { destruct (Nat.le_gt_cases k (pred n)) as [|Hlt]; [lia|].
      specialize (Hprev _ Hlt). rewrite Hd in Hprev. simpl in Hprev.
      by rewrite Hok in Hprev. }
    by rewrite Hd in Hnet.
  - destruct Hout as (_ & Hn & Hall).
    rewrite Hall in Hnotfailed by lia. done.
  - destruct Hout as (Hn & Hd). split; [done|].
    destruct (Nat.le_gt_cases k (pred n)) as [|Hlt]; [lia|].
    specialize (Hprev _ Hlt). by rewrite Hd in Hprev.
Qed.

(** X2.  The client sets no timeout of its own on an attempt: when the
    attempts before attempt [k] fail and the promise of attempt [k]
    never settles, the call stays pending for ever after exactly
    [k + 1] requests; the remaining attempts are never made. *)
Theorem fetchWithRetry_pending_on_hung_attempt
    (file : SourceFile) (url : string) (options : RequestInit)
    (retries delay : Z) (w : World) (k : nat) :
  Z.of_nat k < retries ->
  (forall i, (i < k)%nat ->
     failed (network w (fetches w + i)%nat url options) = true) ->
  network w (fetches w + k)%nat url options = NeverSettles ->
  let run := fetchWithRetry_of file url options retries delay w in
  run.1 = Pending /\
  fetches run.2 = (fetches w + S k)%nat /\
  exists evs,
    trace run.2 = trace w ++ evs /\
    network_calls evs = repeat (url, options) (S k).
Proof.
  intros Hk Hprev Hnet run. subst run. rewrite fetchWithRetry_of_background.
  destruct (fetchWithRetry_run url options retries delay w) as [n Hrun].
  destruct (RetryRun_first_hang _ _ _ _ _ _ _ _ _ Hrun Hk Hprev Hnet) as [Hout ->].
  destruct Hrun as [_ Hf (evs & Ht & Hio) _ _ _ _].
  split; [done|]. split; [done|]. exists evs. split; [done|].
  by rewrite <- network_calls_without_console, Hio, network_calls_attempts_io.
Qed.

Lemma fetchWithRetry_pending_on_hung_attempt_witness :
  let w := initial_world (scripted [respond 10 500 None]) ∅ in
  Z.of_nat 1 < 3 /\
  (fetchWithRetry_of background_js "https://example.test/" no_options 3 1000 w).1
  = Pending.
Proof.
  split; [lia|].
  apply (fetchWithRetry_pending_on_hung_attempt background_js "https://example.test/"
           no_options 3 1000 (initial_world (scripted [respond 10 500 None]) ∅) 1).
  - lia.
  - intros [|i] Hi; [reflexivity|lia].
  - reflexivity.
Defined.

(** ** The resolver: well-formed answers, the refresh, the utils.js copy *)

(** X3.  [fetchBaseUrl] of background.js never throws, and a well-formed
    answer is honoured: when the first attempt that does not fail is a
    successful response whose JSON payload is an object with a truthy
    [baseUrl] field, that field's value is returned (for
    [{baseUrl: "https://x"}], the string "https://x"). *)
Theorem background_fetchBaseUrl_returns_provided
    (w : World) (k : nat) (d : Z) (r : Response)
    (fields : list (string * JsVal)) (v : JsVal) :
  (k < 3)%nat ->
  (forall i, (i < k)%nat ->
     failed (network w (fetches w + i)%nat config_url no_options) = true) ->
  network w (fetches w + k)%nat config_url no_options = Settles d (Fulfilled r) ->
  ok r = true ->
  json_body r = Some (JObj fields) ->
  assoc "baseUrl" fields = Some v ->
  truthy v = true ->
  (Background.fetchBaseUrl w).1 = Returned v /\
  (forall w0 e, (Background.fetchBaseUrl w0).1 <> Thrown e).
Proof.
  intros Hk Hprev Hnet Hok Hjson Hfield Hv. split.
  - destruct (fetchWithRetry_run config_url no_options 3 1000 w) as [n Hrun].
    destruct (Background.fetchWithRetry config_url no_options 3 1000 w)
      as [out0 w0] eqn:Hrun0. cbn [fst snd] in Hrun.
    destruct (RetryRun_first_success _ _ _ _ _ _ _ _ _ k d r Hrun) as [-> _];
      [lia|done..|].
    destruct (fetchBaseUrl_run w _ w0 Hrun0) as (logs & w' & -> & _).
    unfold provided_baseUrl. by rewrite Hjson, Hfield, Hv.
  - intros w0 e.
    destruct (fetchBaseUrl_summary w0)
      as (n & evs & out & w' & -> & _ & _ & _ & _ & _ & Hout).
    by destruct out.
Qed.

Lemma background_fetchBaseUrl_returns_provided_witness :
  let r := mkResponse 200 "" (Some (JObj [("baseUrl", JStr "https://x")])) in
  let w := initial_world (scripted [Settles 10 (Fulfilled r)]) ∅ in
  (0 < 3)%nat /\
  (Background.fetchBaseUrl w).1 = Returned (JStr "https://x").
Proof.
  split; [lia|].
  apply (background_fetchBaseUrl_returns_provided
           (initial_world
              (scripted [Settles 10 (Fulfilled
                  (mkResponse 200 "" (Some (JObj [("baseUrl", JStr "https://x")]))))]) ∅)
           0 10 (mkResponse 200 "" (Some (JObj [("baseUrl", JStr "https://x")])))
           [("baseUrl", JStr "https://x")] (JStr "https://x")).
  - lia.
  - intros i Hi. lia.
  - reflexivity.
  - reflexivity.
  - reflexivity.
  - reflexivity.
  - reflexivity.
Defined.

(** Every way [fetchBaseUrl] of utils.js can go. *)
Lemma utils_fetchBaseUrl_run w :
  exists w' logs,
    Utils.fetchBaseUrl w
    = (match network w (fetches w) utils_config_url no_options with
       | NeverSettles => Pending
       | Settles _ (Rejected _) => Returned fallback
       | Settles _ (Fulfilled r) =>
           if ok r
           then match json_body r with
                | Some data =>
                    match get_prop data "baseUrl" with
                    | inr v => Returned v
                    | inl _ => Returned fallback
                    end
                | None => Returned fallback
                end
           else Returned fallback
       end, w') /\
    trace w' = trace w ++ EvFetch utils_config_url no_options :: logs /\
    without_console logs = [] /\
    fetches w' = S (fetches w) /\
    frame w w'.
Proof.
  unfold Utils.fetchBaseUrl, try_catch. unfold bind at 1, fetch at 1.
  fold utils_config_url. cbn beta iota zeta.
  destruct (network w (fetches w) utils_config_url no_options) as [d [r|e]|].
  - unfold bind at 1, await at 1. cbn beta iota zeta.
    destruct (ok r); cbn [negb].
    + unfold bind at 1, ret at 1. cbn beta iota zeta.
      unfold bind at 1, json at 1.
      destruct (json_body r) as [data|].
      * unfold ret at 1. cbn beta iota zeta. unfold prop.
        destruct (get_prop data "baseUrl") as [e|v]; cbn [lift].
        -- do 2 eexists. split; [reflexivity|]. cbn. rewrite <- app_assoc.
           split; [reflexivity|]. by repeat split.
        -- do 2 eexists. split; [reflexivity|]. cbn.
           split; [reflexivity|]. by repeat split.
      * do 2 eexists. split; [reflexivity|]. cbn. rewrite <- app_assoc.
        split; [reflexivity|]. by repeat split.
    + do 2 eexists. split; [reflexivity|]. cbn. rewrite <- app_assoc.
      split; [reflexivity|]. by repeat split.
  - do 2 eexists. split; [reflexivity|]. cbn. rewrite <- app_assoc.
    split; [reflexivity|]. by repeat split.
  - do 2 eexists. split; [reflexivity|]. cbn.
    split; [reflexivity|]. by repeat split.
Qed.

(** X4.  [fetchBaseUrl] of utils.js makes exactly one request and never
    retries; it never throws.  A network error, a status outside
    200-299, a body that is not JSON or the payload [null] all give the
    fallback; it stays pending exactly when the request never settles. *)
Theorem utils_fetchBaseUrl_single_request (w : World) :
  let p := network w (fetches w) utils_config_url no_options in
  let run := Utils.fetchBaseUrl w in
  (exists evs,
     trace run.2 = trace w ++ evs /\
     network_calls evs = [(utils_config_url, no_options)]) /\
  (forall e, run.1 <> Thrown e) /\
  (failed p = true -> run.1 = Returned fallback) /\
  (forall d r,
     p = Settles d (Fulfilled r) -> ok r = true ->
     json_body r = None \/ json_body r = Some JNull ->
     run.1 = Returned fallback) /\
  (run.1 = Pending <-> p = NeverSettles).
Proof.
  intros p run. subst run.
  destruct (utils_fetchBaseUrl_run w) as (w' & logs & -> & Ht & Hlogs & _ & _).
  fold p. cbn [fst snd]. split; [|split; [|split; [|split]]].
  - eexists. split; [exact Ht|]. cbn [network_calls].
    by rewrite <- network_calls_without_console, Hlogs.
  - intros e. destruct p as [d [r|e']|]; [|done..].
    destruct (ok r); [|done]. destruct (json_body r) as [data|]; [|done].
    by destruct (get_prop data "baseUrl").
  - destruct p as [d [r|e']|]; simpl; [|done..].
    by intros ->%negb_true_iff.
  - intros d r -> Hok [Hj|Hj]; by rewrite Hok, Hj.
  - destruct p as [d [r|e']|]; [| |done].
    + split; [|done]. destruct (ok r); [|done].
      destruct (json_body r) as [data|]; [|done].
      by destruct (get_prop data "baseUrl").
    + by split.
Qed.

(** The retrying client gives up when its three attempts fail. *)
Lemma fetchWithRetry_gives_up url options delay w :
  (forall i, (i < 3)%nat ->
     failed (network w (fetches w + i)%nat url options) = true) ->
  (Background.fetchWithRetry url options 3 delay w).1
  = Thrown (Error "All retry attempts failed").
Proof.
  intros Hfail.
  destruct (fetchWithRetry_run url options 3 delay w) as [n Hrun].
  destruct Hrun as [Hb _ _ _ _ _ Hout].
  destruct (Background.fetchWithRetry url options 3 delay w).1 as [r|e|].
  - destruct Hout as (Hn & Hok & d & Hd).
    specialize (Hfail (pred n) ltac:(lia)). rewrite Hd in Hfail. simpl in Hfail.
    by rewrite Hok in Hfail.
  - by destruct Hout as (-> & _).
  - destruct Hout as (Hn & Hd).
    specialize (Hfail (pred n) ltac:(lia)). by rewrite Hd in Hfail.
Qed.

(** The refresh, reduced to the retrying client's run. *)
Lemma refreshBaseUrl_after_client w out0 w0 :
  Background.fetchWithRetry config_url no_options 3 1000 w = (out0, w0) ->
  exists w' logs,
    Background.refreshBaseUrl w
    = (match out0 with Pending => Pending | _ => Returned tt end, w') /\
    baseUrl w' = match out0 with
                 | Returned r => default fallback (provided_baseUrl r)
                 | Thrown _ => fallback
                 | Pending => baseUrl w0
                 end /\
    trace w' = trace w0 ++ logs /\
    without_console logs = [].
Proof.
  intros Hrun0.
  destruct (fetchBaseUrl_run w out0 w0 Hrun0) as (logs & w1 & Heq & Hsame & Ht & Hlogs).
  rewrite (refreshBaseUrl_run w _ w1 Heq).
  destruct out0 as [r|e|].
  - do 2 eexists. split; [reflexivity|]. split; [done|].
    cbn [trace record set_baseUrl]. rewrite Ht, <- app_assoc.
    split; [reflexivity|]. by rewrite without_console_app, Hlogs.
  - do 2 eexists. split; [reflexivity|]. split; [done|].
    cbn [trace record set_baseUrl]. rewrite Ht, <- app_assoc.
    split; [reflexivity|]. by rewrite without_console_app, Hlogs.
  - exists w1, logs. split; [done|].
    split; [apply (frame_baseUrl _ _ (sbt_frame _ _ Hsame))|]. by split.
Qed.

(** X5.  The hourly refresh is unconditional: whatever the cached base
    URL, it sends between one and three requests to the configuration
    endpoint, and nothing else over the network. *)
Theorem refreshBaseUrl_always_fetches (w : World) :
  let run := Background.refreshBaseUrl w in
  exists (n : nat) evs,
    (1 <= n <= 3)%nat /\
    trace run.2 = trace w ++ evs /\
    network_calls evs = repeat (config_url, no_options) n.
Proof.
  intros run. subst run.
  destruct (fetchWithRetry_run config_url no_options 3 1000 w) as [n Hrun].
  pose proof (RetryRun_nonempty _ _ _ _ _ _ _ _ _ Hrun ltac:(lia)) as Hn.
  destruct (Background.fetchWithRetry config_url no_options 3 1000 w)
    as [out0 w0] eqn:Hrun0. cbn [fst snd] in Hrun.
  destruct (refreshBaseUrl_after_client w out0 w0 Hrun0)
    as (w' & logs & -> & _ & Ht' & Hlogs).
  destruct Hrun as [Hb _ (evs & Ht & Hio) _ _ _ _].
  exists n, (evs ++ logs). split; [lia|]. cbn [snd].
  split; [by rewrite Ht', Ht, app_assoc|].
  rewrite <- network_calls_without_console, without_console_app, Hio, Hlogs, app_nil_r.
  apply network_calls_attempts_io.
Qed.

(** X6.  A refresh that fails discards the cached base URL: when the
    three attempts fail, the refresh completes and the base URL is the
    fallback, whatever value (from the backend or not) was cached
    before. *)
Theorem failed_refresh_installs_fallback (w : World) :
  (forall i, (i < 3)%nat ->
     failed (network w (fetches w + i)%nat config_url no_options) = true) ->
  (Background.refreshBaseUrl w).1 = Returned tt /\
  baseUrl (Background.refreshBaseUrl w).2 = fallback.
Proof.
  intros Hfail.
  pose proof (fetchWithRetry_gives_up config_url no_options 1000 w Hfail) as Hout.
  destruct (Background.fetchWithRetry config_url no_options 3 1000 w)
    as [out0 w0] eqn:Hrun0. cbn [fst] in Hout. subst out0.
  destruct (refreshBaseUrl_after_client w _ w0 Hrun0) as (w' & logs & -> & Hb & _).
  by split.
Qed.

Lemma failed_refresh_installs_fallback_witness :
  let w := set_baseUrl (JStr "https://x") (initial_world offline ∅) in
  baseUrl w = JStr "https://x" /\
  baseUrl (Background.refreshBaseUrl w).2 = fallback.
Proof.
  split; [reflexivity|].
  apply (failed_refresh_installs_fallback
           (set_baseUrl (JStr "https://x") (initial_world offline ∅))).
  intros i Hi. reflexivity.
Defined.

(** X7.  [ensureBaseUrl] is idempotent: calling it twice in a row does
    what calling it once does, to the result and to the whole world (in
    particular the second call sends nothing). *)
Theorem ensureBaseUrl_idempotent (w : World) :
  (Background.ensureBaseUrl ;; Background.ensureBaseUrl) w = Background.ensureBaseUrl w.
Proof.
  destruct (ensureBaseUrl_summary w)
    as (n & evs & out & w' & Heq & _ & _ & _ & _ & _ & Hout).
  unfold bind. rewrite Heq. destruct out as [[]|e|]; [|done..].
  destruct Hout as [Hres _]. by apply ensureBaseUrl_resolved.
Qed.

(** ** Token, probe and report *)

(** X8.  [getToken] resolves to the stored token when it is truthy and to
    [null] otherwise: a missing entry and a falsy one (such as the empty
    string) are not told apart, and the result is never [undefined].  It
    reads the storage once and touches nothing else. *)
Theorem getToken_null_unless_truthy (w : World) :
  exists v,
    Background.getToken w = (Returned v, record (EvStorageGet ["token"]) w) /\
    (storage w !! "token" = None -> v = JNull) /\
    (forall t, storage w !! "token" = Some t -> v = if truthy t then t else JNull) /\
    (truthy v = true \/ v = JNull).
Proof.
  exists (stored_token w). split; [apply getToken_run|].
  unfold stored_token, js_or.
  destruct (storage w !! "token") as [t|]; cbn [default id].
  - split; [done|]. split; [by intros ? [= ->]|].
    destruct (truthy t) eqn:Ht; auto.
  - split; [done|]. split; [done|]. by right.
Qed.

(** X9.  A latency test of a readable node always completes, also when
    the probe hangs: it returns -1 or a number of milliseconds between 0
    and 5000, and it takes at most 5000 ms. *)
Theorem testNodeLatency_bounded (node ip node_id : JsVal) (w : World) :
  get_prop node "ip" = inr ip ->
  get_prop node "node_id" = inr node_id ->
  exists latency w',
    Background.testNodeLatency node w = (Returned latency, w') /\
    (latency = -1 \/ 0 <= latency <= 5000) /\
    clock w <= clock w' <= clock w + 5000.
Proof.
  intros Hip Hid.
  rewrite (testNodeLatency_run node ip node_id w Hip Hid). cbv zeta.
  unfold probe_timeout.
  destruct (network w (fetches w) _ probe_options) as [d s|].
  - destruct (Z.ltb_spec (Z.max 0 d) 5000) as [Hlt|Hge]; cbn [orb].
    + destruct s as [r|e]; do 2 eexists; (split; [reflexivity|]);
        cbn [clock set_clock record]; split; (lia || auto).
    + destruct (Z.eqb_spec (Z.max 0 d) 5000) as [Heq|Hne]; cbn [andb].
      * destruct (race_tie_first w); [destruct s as [r|e]|];
          do 2 eexists; (split; [reflexivity|]);
          cbn [clock set_clock record]; split; (lia || auto).
      * do 2 eexists. split; [reflexivity|].
        cbn [clock set_clock record]. split; (lia || auto).
  - do 2 eexists. split; [reflexivity|].
    cbn [clock set_clock record]. split; (lia || auto).
Qed.

Lemma testNodeLatency_bounded_witness :
  let node := JObj [("node_id", JStr "n1"); ("ip", JStr "10.0.0.1")] in
  get_prop node "ip" = inr (JStr "10.0.0.1") /\
  exists latency w',
    Background.testNodeLatency node (initial_world (scripted []) ∅)
    = (Returned latency, w') /\
    (latency = -1 \/ 0 <= latency <= 5000).
Proof.
  split; [reflexivity|].
  destruct (testNodeLatency_bounded
              (JObj [("node_id", JStr "n1"); ("ip", JStr "10.0.0.1")])
              (JStr "10.0.0.1") (JStr "n1") (initial_world (scripted []) ∅)
              eq_refl eq_refl) as (latency & w' & Heq & Hrange & _).
  by exists latency, w'.
Defined.

(** X10.  A node entry that is [null] or [undefined] makes the latency
    test throw a TypeError: reading [node.ip] throws inside the [try],
    and the [catch] block throws again on [node.node_id].  No probe is
    sent and the world is left as it was. *)
Theorem testNodeLatency_throws_on_missing_node (node : JsVal) (w : World) :
  node = JNull \/ node = JUndefined ->
  exists msg, Background.testNodeLatency node w = (Thrown (TypeError msg), w).
Proof.
  intros [->| ->]; eexists; reflexivity.
Qed.

Lemma testNodeLatency_throws_on_missing_node_witness :
  (JNull = JNull \/ JNull = JUndefined) /\
  exists msg,
    Background.testNodeLatency JNull (initial_world offline ∅)
    = (Thrown (TypeError msg), initial_world offline ∅).
Proof.
  split; [by left|].
  apply (testNodeLatency_throws_on_missing_node JNull (initial_world offline ∅)).
  by left.
Defined.

(** With a token, every way a report of a readable node can go. *)
Lemma reportTestResult_cases node node_id ip latency w :
  has_token w ->
  get_prop node "node_id" = inr node_id ->
  get_prop node "ip" = inr ip ->
  let url := ToString (baseUrl w) +:+ "/api/test" in
  let init := report_options (stored_token w) node_id ip latency in
  exists w' logs,
    Background.reportTestResult node latency w
    = (match network w (fetches w) url init with
       | NeverSettles => Pending
       | Settles _ _ => Returned tt
       end, w') /\
    trace w' = trace w ++ [EvStorageGet ["token"]; EvFetch url init] ++ logs /\
    without_console logs = [] /\
    frame w w'.
Proof.
  intros Htok Hid Hip url init.
  unfold Background.reportTestResult. unfold bind at 1. rewrite getToken_run.
  unfold has_token in Htok. rewrite Htok. cbn [negb].
  unfold try_catch, bind, get_baseUrl, prop, fetch, await.
  rewrite Hid, Hip. cbn [lift ret baseUrl record record_fetch network fetches clock].
  fold url. fold (report_options (stored_token w) node_id ip latency). fold init.
  destruct (network w (fetches w) url init) as [d [r|e]|].
  - destruct (ok r); cbn [lift ret console_log console_error emit];
      do 2 eexists; (split; [reflexivity|]);
      cbn [trace record record_fetch set_clock]; rewrite <- !app_assoc;
      (split; [reflexivity|]); by repeat split.
  - cbn [lift ret console_error emit].
    do 2 eexists. split; [reflexivity|].
    cbn [trace record record_fetch set_clock]. rewrite <- !app_assoc.
    split; [reflexivity|]. by repeat split.
  - do 2 eexists. split; [reflexivity|].
    cbn [trace record record_fetch]. rewrite <- !app_assoc.
    split; [reflexivity|]. by repeat split.
Qed.

(** X11.  With a token stored, reporting the result of a readable node
    sends exactly one POST to [{baseUrl}/api/test], authorised with the
    token, and never a second one: when the request settles, with any
    status or with a network error, the call returns normally; it stays
    pending only when the request never settles. *)
Theorem reportTestResult_single_post
    (node node_id ip : JsVal) (latency : Z) (w : World) :
  has_token w ->
  get_prop node "node_id" = inr node_id ->
  get_prop node "ip" = inr ip ->
  let url := ToString (baseUrl w) +:+ "/api/test" in
  let init := report_options (stored_token w) node_id ip latency in
  let run := Background.reportTestResult node latency w in
  (exists evs, trace run.2 = trace w ++ evs /\ network_calls evs = [(url, init)]) /\
  (forall d s, network w (fetches w) url init = Settles d s -> run.1 = Returned tt) /\
  (network w (fetches w) url init = NeverSettles -> run.1 = Pending).
Proof.
  intros Htok Hid Hip url init run. subst run.
  destruct (reportTestResult_cases node node_id ip latency w Htok Hid Hip)
    as (w' & logs & -> & Ht & Hlogs & _). fold url init in Ht |- *. cbn [fst snd].
  split; [|split].
  - eexists. split; [exact Ht|]. cbn [network_calls app].
    by rewrite <- network_calls_without_console, Hlogs.
  - by intros d s ->.
  - by intros ->.
Qed.

Lemma reportTestResult_single_post_witness :
  let node := JObj [("node_id", JStr "n1"); ("ip", JStr "10.0.0.1")] in
  let w := signed_in_world (scripted [respond 10 500 None]) in
  has_token w /\
  (Background.reportTestResult node 42 w).1 = Returned tt.
Proof.
  assert (Htok : has_token (signed_in_world (scripted [respond 10 500 None])))
    by (vm_compute; reflexivity).
  split; [exact Htok|].
  apply (proj1 (proj2 (reportTestResult_single_post
           (JObj [("node_id", JStr "n1"); ("ip", JStr "10.0.0.1")])
           (JStr "n1") (JStr "10.0.0.1") 42
           (signed_in_world (scripted [respond 10 500 None]))
           Htok eq_refl eq_refl))
         10 (Fulfilled (mkResponse 500 "" None))).
  reflexivity.
Defined.

(** ** Notifications and their links *)

Lemma object_get_own (o : gmap string JsVal) k v :
  o !! k = Some v -> object_get o k = v.
Proof. unfold object_get. by intros ->. Qed.

Lemma not_inherited_spec k :
  existsb (String.eqb k) Object_prototype_keys = false ->
  In k Object_prototype_keys -> False.
Proof.
  intros Hk Hin. apply not_true_iff_false in Hk. apply Hk.
  apply existsb_exists. exists k. split; [done|]. apply String.eqb_refl.
Qed.

Lemma object_get_absent (o : gmap string JsVal) k :
  o !! k = None -> ~ In k Object_prototype_keys -> object_get o k = JUndefined.
Proof.
  intros Hnone Hown. unfold object_get, Object_prototype_get. rewrite Hnone.
  destruct (existsb (String.eqb k) Object_prototype_keys) eqn:Hk; [|done].
  destruct Hown. apply existsb_exists in Hk as (k' & Hin & Heq).
  by apply String.eqb_eq in Heq as ->.
Qed.

Lemma object_get_no_reward_link (o : gmap string JsVal) :
  o !! "rewardsNotification" = None -> object_get o "rewardsNotification" = JUndefined.
Proof. unfold object_get. by intros ->. Qed.

(** X12.  Showing a notification and clicking its first button is a round
    trip on the link map: the click opens one tab on the link that was
    shown and removes the entry, so the map ends as the map before with
    the key removed, and a second click on the same notification does
    nothing. *)
Theorem notification_click_opens_link_once (msg : string) (link : JsVal) (w : World) :
  truthy link = true ->
  exists w1 w2,
    Background.showNotification msg link w = (Returned tt, w1) /\
    notificationLinks w1 !! "rewardsNotification" = Some link /\
    Background.onButtonClicked "rewardsNotification" 0 w1 = (Returned tt, w2) /\
    trace w2 = trace w ++ [EvNotificationCreate "rewardsNotification"
                             (rewards_notification msg).2;
                           EvTabsCreate link] /\
    notificationLinks w2 = delete "rewardsNotification" (notificationLinks w) /\
    Background.onButtonClicked "rewardsNotification" 0 w2 = (Returned tt, w2).
Proof.
  intros Hlink.
  unfold Background.showNotification, chrome_notifications_create, bind, emit.
  cbv zeta. do 2 eexists. split; [reflexivity|].
  cbn [notificationLinks set_notificationLinks record].
  split; [apply lookup_insert_eq|].
  unfold Background.onButtonClicked at 1.
  cbn [notificationLinks set_notificationLinks record].
  rewrite (object_get_own _ _ link) by apply lookup_insert_eq.
  rewrite Hlink. cbn [andb Z.eqb].
  unfold bind, emit. split; [reflexivity|].
  cbn [trace notificationLinks set_notificationLinks record].
  rewrite <- app_assoc. split; [reflexivity|].
  rewrite delete_insert_eq. split; [reflexivity|].
  unfold Background.onButtonClicked.
  cbn [notificationLinks set_notificationLinks record].
  by rewrite object_get_no_reward_link by apply lookup_delete_eq.
Qed.

Lemma notification_click_opens_link_once_witness :
  truthy (JStr "https://y") = true /\
  exists w1,
    Background.showNotification "hello" (JStr "https://y") (initial_world offline ∅)
    = (Returned tt, w1) /\
    notificationLinks w1 !! "rewardsNotification" = Some (JStr "https://y").
Proof.
  split; [reflexivity|].
  destruct (notification_click_opens_link_once "hello" (JStr "https://y")
              (initial_world offline ∅) eq_refl) as (w1 & w2 & Hshow & Hlook & _).
  by exists w1.
Defined.

(** X13.  A click is ignored, with no tab opened and the link map left
    as it is, when it is not on the first button, when no link is stored
    for the notification and its identifier is not a name that the link
    object inherits from [Object.prototype], or when the stored link is a
    falsy value. *)
Theorem onButtonClicked_ignores (notificationId : string) (buttonIndex : Z) (w : World) :
  buttonIndex <> 0 \/
  (notificationLinks w !! notificationId = None /\
   ~ In notificationId Object_prototype_keys) \/
  (exists link, notificationLinks w !! notificationId = Some link /\ truthy link = false) ->
  Background.onButtonClicked notificationId buttonIndex w = (Returned tt, w).
Proof.
  unfold Background.onButtonClicked.
  intros [Hidx|[[Hnone Hown]|(link & Hsome & Hlink)]].
  - destruct (Z.eqb_spec buttonIndex 0); [done|]. by rewrite andb_false_r.
  - by rewrite (object_get_absent _ _ Hnone Hown).
  - by rewrite (object_get_own _ _ _ Hsome), Hlink.
Qed.

Lemma onButtonClicked_ignores_witness :
  (0 <> 0 \/
   (notificationLinks (initial_world offline ∅) !! "rewardsNotification" = None /\
    ~ In "rewardsNotification" Object_prototype_keys) \/
   (exists link,
      notificationLinks (initial_world offline ∅) !! "rewardsNotification" = Some link /\
      truthy link = false)) /\
  Background.onButtonClicked "rewardsNotification" 0 (initial_world offline ∅)
  = (Returned tt, initial_world offline ∅).
Proof.
  assert (Hcase :
    notificationLinks (initial_world offline ∅) !! "rewardsNotification" = None /\
    ~ In "rewardsNotification" Object_prototype_keys).
  { split; [reflexivity|]. intros Hin. apply not_inherited_spec in Hin; [done|reflexivity]. }
  split; [right; left; exact Hcase|].
  apply (onButtonClicked_ignores "rewardsNotification" 0 (initial_world offline ∅)).
  right. left. exact Hcase.
Defined.

(** X25.  The link map is a plain object, so a click on the first button
    of a notification whose identifier is a name that every object
    inherits (such as "constructor" or "toString"), with no link stored
    under it, is not ignored: the listener finds the inherited value,
    which is truthy, passes it to [chrome.tabs.create] and leaves the
    link map as it is. *)
Theorem onButtonClicked_inherited_name (notificationId : string) (w : World) :
  In notificationId Object_prototype_keys ->
  notificationLinks w !! notificationId = None ->
  exists inherited w',
    Background.onButtonClicked notificationId 0 w = (Returned tt, w') /\
    inherited = Object_prototype_get notificationId /\
    truthy inherited = true /\
    trace w' = trace w ++ [EvTabsCreate inherited] /\
    notificationLinks w' = notificationLinks w.
Proof.
  intros Hin Hnone. exists (Object_prototype_get notificationId).
  assert (Htruthy : truthy (Object_prototype_get notificationId) = true).
  { unfold Object_prototype_keys in Hin. cbn [In] in Hin.
    repeat (destruct Hin as [<-|Hin]; [reflexivity|]). done. }
  unfold Background.onButtonClicked, object_get. rewrite Hnone, Htruthy.
  cbn [andb Z.eqb]. unfold bind, emit. eexists. split; [reflexivity|].
  split; [done|]. split; [done|].
  cbn [trace notificationLinks set_notificationLinks record].
  split; [done|]. by apply delete_id.
Qed.

Lemma onButtonClicked_inherited_name_witness :
  In "constructor" Object_prototype_keys /\
  notificationLinks (initial_world offline ∅) !! "constructor" = None /\
  (Background.onButtonClicked "constructor" 0 (initial_world offline ∅)).1 = Returned tt /\
  trace (Background.onButtonClicked "constructor" 0 (initial_world offline ∅)).2
  = [EvTabsCreate (JNative "Object")].
Proof.
  assert (Hin : In "constructor" Object_prototype_keys) by (left; reflexivity).
  split; [exact Hin|]. split; [reflexivity|].
  destruct (onButtonClicked_inherited_name "constructor" (initial_world offline ∅)
              Hin eq_refl) as (inherited & w' & Heq & Hval & _ & Ht & _).
  rewrite Heq. cbn [fst snd]. split; [reflexivity|]. by rewrite Ht, Hval.
Defined.

(** X14.  Every notification is created under the one identifier
    "rewardsNotification", so the link map keeps at most one reward link:
    showing a second notification replaces the link of the first, which
    no click can reach any more. *)
Theorem showNotification_replaces_link
    (msg1 msg2 : string) (link1 link2 : JsVal) (w : World) :
  exists w2,
    (Background.showNotification msg1 link1 ;; Background.showNotification msg2 link2) w
    = (Returned tt, w2) /\
    trace w2 = trace w ++ [EvNotificationCreate "rewardsNotification"
                             (rewards_notification msg1).2;
                           EvNotificationCreate "rewardsNotification"
                             (rewards_notification msg2).2] /\
    notificationLinks w2 = <["rewardsNotification" := link2]> (notificationLinks w) /\
    (truthy link2 = true ->
     exists w3,
       Background.onButtonClicked "rewardsNotification" 0 w2 = (Returned tt, w3) /\
       trace w3 = trace w2 ++ [EvTabsCreate link2] /\
       notificationLinks w3 !! "rewardsNotification" = None).
Proof.
  unfold Background.showNotification, chrome_notifications_create, bind, emit.
  cbv zeta. eexists. split; [reflexivity|].
  cbn [trace notificationLinks set_notificationLinks record].
  rewrite <- app_assoc. split; [reflexivity|].
  rewrite insert_insert_eq. split; [reflexivity|].
  intros Hlink. unfold Background.onButtonClicked.
  cbn [trace notificationLinks set_notificationLinks record].
  rewrite (object_get_own _ _ link2) by apply lookup_insert_eq.
  rewrite Hlink. cbn [andb Z.eqb].
  unfold bind, emit. eexists. split; [reflexivity|].
  cbn [trace notificationLinks set_notificationLinks record].
  split; [by rewrite <- !app_assoc|]. apply lookup_delete_eq.
Qed.

(** ** The rewards check: skips, failures, payloads without a link *)

(** The rewards check, once [ensureBaseUrl] has returned. *)
Lemma checkForRewards_after_ensure w w1 :
  Background.ensureBaseUrl w = (Returned tt, w1) ->
  storage w1 = storage w /\
  Background.checkForRewards w
  = (token <- Background.getToken ;;
     if negb (truthy token)
     then console_warn [LStr "No token found. Skipping rewards check."]
     else
       try_catch
         (b <- get_baseUrl ;;
          p <- fetch (ToString b +:+ "/api/rewards") (rewards_options token) ;;
          response <- await p ;;
          if ok response
          then (data <- json response ;;
                keys <- lift (Object_keys data) ;;
                if (0 <? length keys)%nat
                then (link <- prop data "link" ;;
                      Background.showNotification
                        ("Earn more rewards points! Visit: " +:+ ToString link) link)
                else console_log [LStr "No rewards available at the moment."])
          else console_warn [LStr "Failed to fetch rewards data."])
         (fun error => console_error [LStr "Error checking for rewards:"; LErr error]))
    w1.
Proof.
  intros Hens. split.
  - destruct (ensureBaseUrl_summary w)
      as (n & evs & out & w' & Hens' & _ & _ & _ & _ & Hpf & _).
    rewrite Hens in Hens'. injection Hens' as <- <-. apply Hpf.
  - unfold Background.checkForRewards. unfold bind at 1. by rewrite Hens.
Qed.

(** X15.  With no token stored, the rewards check ends after the token
    read: no request is sent to the rewards endpoint, no notification is
    created and the link map is unchanged. *)
Theorem checkForRewards_skips_without_token (w w1 : World) :
  Background.ensureBaseUrl w = (Returned tt, w1) ->
  no_token w ->
  exists w',
    Background.checkForRewards w = (Returned tt, w') /\
    trace w' = trace w1 ++ [EvStorageGet ["token"];
                            EvConsole Warn [LStr "No token found. Skipping rewards check."]] /\
    fetches w' = fetches w1 /\
    notificationLinks w' = notificationLinks w1.
Proof.
  intros Hens Hno.
  destruct (checkForRewards_after_ensure w w1 Hens) as [Hst ->].
  unfold bind. rewrite getToken_run.
  assert (stored_token w1 = stored_token w) as -> by (unfold stored_token; by rewrite Hst).
  rewrite Hno. cbn [negb]. eexists. split; [reflexivity|].
  cbn [trace record fetches notificationLinks]. by rewrite <- app_assoc.
Qed.

Lemma checkForRewards_skips_without_token_witness :
  let w := set_baseUrl fallback (initial_world offline ∅) in
  no_token w /\
  exists w',
    Background.checkForRewards w = (Returned tt, w') /\ fetches w' = fetches w.
Proof.
  assert (Hno : no_token (set_baseUrl fallback (initial_world offline ∅)))
    by (vm_compute; reflexivity).
  split; [exact Hno|].
  destruct (checkForRewards_skips_without_token
              (set_baseUrl fallback (initial_world offline ∅)) _ eq_refl Hno)
    as (w' & Heq & _ & Hf & _).
  by exists w'.
Defined.

(** X16.  With a token stored, a rewards request that fails is only
    logged: after a network error, a status outside 200-299, a body that
    is not JSON or the payload [null], the check returns normally, having
    sent that one request, created no notification and stored no
    link.  Nothing is retried. *)
Theorem checkForRewards_quiet_on_failure (w w1 : World) :
  Background.ensureBaseUrl w = (Returned tt, w1) ->
  has_token w ->
  let url := ToString (baseUrl w1) +:+ "/api/rewards" in
  let init := rewards_options (stored_token w) in
  let p := network w1 (fetches w1) url init in
  failed p = true \/
  (exists d r,
     p = Settles d (Fulfilled r) /\ ok r = true /\
     (json_body r = None \/ json_body r = Some JNull)) ->
  exists w' evs,
    Background.checkForRewards w = (Returned tt, w') /\
    trace w' = trace w1 ++ evs /\
    network_calls evs = [(url, init)] /\
    notifications evs = [] /\
    notificationLinks w' = notificationLinks w1.
Proof.
  intros Hens Htok url init p Hbad.
  destruct (checkForRewards_after_ensure w w1 Hens) as [Hst ->].
  unfold bind at 1. rewrite getToken_run.
  assert (stored_token w1 = stored_token w) as -> by (unfold stored_token; by rewrite Hst).
  unfold has_token in Htok. rewrite Htok. cbn [negb].
  unfold try_catch. unfold bind at 1, get_baseUrl at 1. cbn [baseUrl record].
  unfold bind at 1, fetch at 1. cbn [network fetches record clock].
  fold url init p.
  destruct Hbad as [Hfail|(d & r & Hp & Hok & Hjson)].
  - destruct p as [d [r|e]|]; simpl in Hfail; [|clear Hfail|done].
    + apply negb_true_iff in Hfail. unfold bind at 1, await at 1. rewrite Hfail.
      do 2 eexists. split; [reflexivity|].
      cbn [trace record record_fetch set_clock notificationLinks console_warn emit].
      rewrite <- !app_assoc. by repeat split.
    + unfold bind at 1, await at 1.
      do 2 eexists. split; [reflexivity|].
      cbn [trace record record_fetch set_clock notificationLinks console_error emit].
      rewrite <- !app_assoc. by repeat split.
  - rewrite Hp. unfold bind at 1, await at 1. rewrite Hok.
    unfold bind at 1, json at 1.
    destruct Hjson as [-> | ->].
    + do 2 eexists. split; [reflexivity|].
      cbn [trace record record_fetch set_clock notificationLinks console_error emit].
      rewrite <- !app_assoc. by repeat split.
    + unfold ret at 1. unfold bind at 1. cbn [Object_keys lift throw].
      do 2 eexists. split; [reflexivity|].
      cbn [trace record record_fetch set_clock notificationLinks console_error emit].
      rewrite <- !app_assoc. by repeat split.
Qed.

Lemma checkForRewards_quiet_on_failure_witness :
  let w := signed_in_world offline in
  has_token w /\
  exists w' evs,
    Background.checkForRewards w = (Returned tt, w') /\
    trace w' = trace w ++ evs /\
    notifications evs = [].
Proof.
  assert (Htok : has_token (signed_in_world offline)) by (vm_compute; reflexivity).
  split; [exact Htok|].
  destruct (checkForRewards_quiet_on_failure (signed_in_world offline) _ eq_refl Htok)
    as (w' & evs & Heq & Ht & _ & Hn & _).
  - left. reflexivity.
  - by exists w', evs.
Defined.

(** X17.  The link is not checked before the notification is shown: for
    a successful answer whose payload is an object with at least one key
    but no [link] field, a notification is still created, its message
    ends in "undefined", and [undefined] is what is stored as its link;
    clicking its button then opens no tab and leaves the entry in the
    map. *)
Theorem checkForRewards_payload_without_link
    (w w1 : World) (d : Z) (r : Response) (fields : list (string * JsVal)) :
  Background.ensureBaseUrl w = (Returned tt, w1) ->
  has_token w ->
  network w1 (fetches w1) (ToString (baseUrl w1) +:+ "/api/rewards")
          (rewards_options (stored_token w)) = Settles d (Fulfilled r) ->
  ok r = true ->
  json_body r = Some (JObj fields) ->
  fields <> [] ->
  assoc "link" fields = None ->
  exists w' evs,
    Background.checkForRewards w = (Returned tt, w') /\
    trace w' = trace w1 ++ evs /\
    notifications evs
      = [rewards_notification "Earn more rewards points! Visit: undefined"] /\
    notificationLinks w' !! "rewardsNotification" = Some JUndefined /\
    Background.onButtonClicked "rewardsNotification" 0 w' = (Returned tt, w').
Proof.
  intros Hens Htok Hnet Hok Hjson Hne Hlink.
  destruct (checkForRewards_after_ensure w w1 Hens) as [Hst _].
  destruct (checkForRewards_run w w1 d r fields Hens Hst Htok Hnet Hok Hjson)
    as (w' & evs & Heq & Ht & Hcase).
  destruct fields as [|kv fields]; [done|]. cbv zeta in Hcase.
  rewrite Hlink in Hcase. cbn [default] in Hcase. destruct Hcase as [Hn Hlinks].
  exists w', evs. split; [done|]. split; [done|]. split; [done|].
  assert (Hlook : notificationLinks w' !! "rewardsNotification" = Some JUndefined)
    by (rewrite Hlinks; apply lookup_insert_eq).
  split; [done|]. unfold Background.onButtonClicked.
  by rewrite (object_get_own _ _ _ Hlook).
Qed.

Lemma checkForRewards_payload_without_link_witness :
  let net := scripted [respond 15 200 (Some (JObj [("points", JNum 5)]))] in
  let w := signed_in_world net in
  has_token w /\
  exists w',
    Background.checkForRewards w = (Returned tt, w') /\
    notificationLinks w' !! "rewardsNotification" = Some JUndefined.
Proof.
  assert (Htok : has_token
            (signed_in_world (scripted [respond 15 200 (Some (JObj [("points", JNum 5)]))])))
    by (vm_compute; reflexivity).
  split; [exact Htok|].
  destruct (checkForRewards_payload_without_link
              (signed_in_world (scripted [respond 15 200 (Some (JObj [("points", JNum 5)]))]))
              _ 15 _ [("points", JNum 5)] eq_refl Htok eq_refl eq_refl eq_refl)
    as (w' & evs & Heq & _ & _ & Hlook & _).
  - discriminate.
  - reflexivity.
  - by exists w'.
Defined.

(** ** Geolocation and the heartbeat *)

(** Every way the geolocation lookup can go. *)
Lemma getGeoLocation_run w :
  let p := network w (fetches w) geo_url no_options in
  exists w' logs,
    Background.getGeoLocation w
    = (match p with
       | NeverSettles => Pending
       | Settles _ _ => Returned (geo_result p)
       end, w') /\
    trace w' = trace w ++ EvFetch geo_url no_options :: logs /\
    without_console logs = [] /\
    fetches w' = S (fetches w) /\
    clock w' = clock w + settle_delay p /\
    frame w w'.
Proof.
  intros p. unfold Background.getGeoLocation, try_catch.
  unfold bind at 1, fetch at 1. fold geo_url. fold p. cbn beta iota zeta.
  unfold geo_result.
  destruct p as [d [r|e]|]; cbn [geo_usable settle_delay].
  - unfold bind at 1, await at 1. cbn beta iota zeta.
    destruct (ok r); cbn [negb].
    + unfold bind at 1, ret at 1. cbn beta iota zeta.
      unfold bind at 1, json at 1.
      destruct (json_body r) as [data|].
      * unfold ret at 1. cbn beta iota zeta.
        destruct data; unfold bind, prop, geo_of, field; cbn [get_prop lift ret throw];
          do 2 eexists; (split; [reflexivity|]); cbn; rewrite <- ?app_assoc;
          (split; [reflexivity|]); repeat split; lia.
      * do 2 eexists. split; [reflexivity|]. cbn. rewrite <- app_assoc.
        split; [reflexivity|]. repeat split; lia.
    + do 2 eexists. split; [reflexivity|]. cbn. rewrite <- app_assoc.
      split; [reflexivity|]. repeat split; lia.
  - do 2 eexists. split; [reflexivity|]. cbn. rewrite <- app_assoc.
    split; [reflexivity|]. repeat split; lia.
  - do 2 eexists. split; [reflexivity|]. cbn.
    split; [reflexivity|]. repeat split; lia.
Qed.

(** X18.  The geolocation lookup sends exactly one request and never
    throws.  A network error, a status outside 200-299, a body that is
    not JSON or the payload [null] all give the fixed location
    [{ip: "0.0.0.0", location: "Unknown Location"}].  A payload object is
    used as it comes: a field it lacks shows up as [undefined] (in the
    location string, as the text "undefined"). *)
Theorem getGeoLocation_single_lookup (w : World) :
  let p := network w (fetches w) geo_url no_options in
  let run := Background.getGeoLocation w in
  (exists evs,
     trace run.2 = trace w ++ evs /\ network_calls evs = [(geo_url, no_options)]) /\
  (forall e, run.1 <> Thrown e) /\
  (failed p = true -> run.1 = Returned geo_fallback) /\
  (forall d r,
     p = Settles d (Fulfilled r) -> ok r = true ->
     json_body r = None \/ json_body r = Some JNull ->
     run.1 = Returned geo_fallback) /\
  (forall d r fields,
     p = Settles d (Fulfilled r) -> ok r = true ->
     json_body r = Some (JObj fields) ->
     run.1 = Returned
               (JObj [("ip", default JUndefined (assoc "ip" fields));
                      ("location",
                       JStr (ToString (default JUndefined (assoc "city" fields))
                             +:+ ", "
                             +:+ ToString (default JUndefined (assoc "region" fields))
                             +:+ ", "
                             +:+ ToString (default JUndefined
                                             (assoc "country_name" fields))))])).
Proof.
  intros p run. subst run.
  destruct (getGeoLocation_run w) as (w' & logs & -> & Ht & Hlogs & _).
  fold p. cbn [fst snd]. split; [|split; [|split; [|split]]].
  - eexists. split; [exact Ht|]. cbn [network_calls].
    by rewrite <- network_calls_without_console, Hlogs.
  - intros e. by destruct p.
  - unfold geo_result. destruct p as [d [r|e]|]; simpl; [|done..].
    by intros ->%negb_true_iff.
  - intros d r -> Hok Hjson. unfold geo_result. cbn [geo_usable]. rewrite Hok.
    by destruct Hjson as [-> | ->].
  - intros d r fields -> Hok Hjson. unfold geo_result. cbn [geo_usable].
    by rewrite Hok, Hjson.
Qed.

Lemma geo_result_object p :
  exists ip location,
    geo_result p = JObj [("ip", ip); ("location", JStr location)].
Proof.
  unfold geo_result. destruct (geo_usable p) as [data|]; by do 2 eexists.
Qed.

(** Every way a heartbeat can go once the geolocation lookup has
    settled. *)
Lemma heartbeat_run token w d s :
  network w (fetches w) geo_url no_options = Settles d s ->
  let geo := geo_result (Settles d s) in
  let url := ToString (baseUrl w) +:+ "/api/heartbeat" in
  let init := heartbeat_options token (field geo "ip") (field geo "location")
                (clock w + Z.max 0 d) in
  exists w' logs logs',
    Background.heartbeat token w
    = (match network w (S (fetches w)) url init with
       | NeverSettles => Pending
       | Settles _ _ => Returned tt
       end, w') /\
    trace w' = trace w ++ EvFetch geo_url no_options :: logs
               ++ EvFetch url init :: logs' /\
    without_console logs = [] /\
    without_console logs' = [].
Proof.
  intros Hnet geo url init.
  destruct (getGeoLocation_run w) as (w1 & logs & Hgeo & Ht & Hlogs & Hf & Hc & Hfr).
  rewrite Hnet in Hgeo, Hc. fold geo in Hgeo. cbn [settle_delay] in Hc.
  unfold Background.heartbeat, try_catch. unfold bind at 1. rewrite Hgeo.
  unfold bind at 1, get_baseUrl at 1.
  subst init. unfold field.
  destruct (geo_result_object (Settles d s)) as (ip & location & Hobj).
  fold geo in Hobj. rewrite Hobj.
  unfold bind at 1, prop at 1. cbn [get_prop lift ret assoc String.eqb Ascii.eqb Bool.eqb
                                      default id].
  unfold bind at 1, prop at 1. cbn [get_prop lift ret assoc String.eqb Ascii.eqb Bool.eqb
                                      default id].
  unfold bind at 1, Date_now at 1.
  unfold bind at 1, fetch at 1.
  rewrite (frame_baseUrl _ _ Hfr), (frame_network _ _ Hfr), Hf, Hc. fold url.
  fold (heartbeat_options token ip (JStr location) (clock w + Z.max 0 d)).
  destruct (network w (S (fetches w)) url _) as [d' [r|e]|].
  - unfold bind at 1, await at 1. destruct (ok r).
    + eexists _, logs, [_]. split; [reflexivity|].
      cbn [trace record record_fetch set_clock console_log emit].
      rewrite Ht, <- !app_assoc. by repeat split.
    + eexists _, logs, [_]. split; [reflexivity|].
      cbn [trace record record_fetch set_clock console_error emit text ret bind].
      rewrite Ht, <- !app_assoc. by repeat split.
  - eexists _, logs, [_]. split; [reflexivity|].
    cbn [trace record record_fetch set_clock console_error emit].
    rewrite Ht, <- !app_assoc. by repeat split.
  - eexists _, logs, []. split; [reflexivity|].
    cbn [trace record record_fetch set_clock].
    rewrite Ht, <- !app_assoc. by repeat split.
Qed.

(** X19.  A heartbeat whose geolocation lookup settles always goes on to
    send the heartbeat itself, also when the lookup failed: then the body
    carries the fixed location.  It sends these two requests and no
    other, to the base URL cached at that moment, stamps the body with
    the time at which the lookup settled, and never throws; a failed
    heartbeat request is only logged. *)
Theorem heartbeat_sent_after_lookup (token : JsVal) (w : World) (d : Z)
    (s : Settlement Response) :
  network w (fetches w) geo_url no_options = Settles d s ->
  let run := Background.heartbeat token w in
  let url := ToString (baseUrl w) +:+ "/api/heartbeat" in
  exists evs init,
    trace run.2 = trace w ++ evs /\
    network_calls evs = [(geo_url, no_options); (url, init)] /\
    method init = Some "POST" /\
    (exists ip location,
       body init = Some (JObj [("ip", ip); ("location", location);
                               ("timestamp", JNum (clock w + Z.max 0 d))]) /\
       (geo_usable (Settles d s) = None ->
        ip = JStr "0.0.0.0" /\ location = JStr "Unknown Location")) /\
    (forall e, run.1 <> Thrown e) /\
    (forall d' s',
       network w (S (fetches w)) url init = Settles d' s' -> run.1 = Returned tt).
Proof.
  intros Hnet run url. subst run.
  destruct (heartbeat_run token w d s Hnet) as (w' & logs & logs' & -> & Ht & Hl & Hl').
  fold url. cbn [fst snd]. do 2 eexists. split; [exact Ht|].
  split.
  { cbn [network_calls]. rewrite network_calls_app. cbn [network_calls].
    rewrite <- (network_calls_without_console logs), <- (network_calls_without_console logs').
    by rewrite Hl, Hl'. }
  split; [done|]. split.
  { do 2 eexists. split; [reflexivity|]. unfold geo_result. by intros ->. }
  split.
  - intros e. by destruct (network w (S (fetches w)) url _).
  - by intros d' s' ->.
Qed.

Lemma heartbeat_sent_after_lookup_witness :
  let w := signed_in_world offline in
  network w (fetches w) geo_url no_options
    = Settles 5 (Rejected (TypeError "Failed to fetch")) /\
  (Background.heartbeat (JStr "secret") w).1 = Returned tt.
Proof.
  split; [reflexivity|].
  destruct (heartbeat_sent_after_lookup (JStr "secret") (signed_in_world offline) 5
              (Rejected (TypeError "Failed to fetch")) eq_refl)
    as (evs & init & _ & _ & _ & _ & _ & Hret).
  apply (Hret 5 (Rejected (TypeError "Failed to fetch"))). reflexivity.
Defined.

(** ** What the platform invokes never throws *)

Lemma never_throws_bind {A B} (c : Async A) (k : A -> Async B) :
  never_throws c -> (forall a, never_throws (k a)) -> never_throws (bind c k).
Proof.
  intros Hc Hk w e. unfold bind. specialize (Hc w).
  destruct (c w) as [[a|e'|] w']; [apply Hk|by destruct (Hc e')|done].
Qed.

(** A [catch] block that cannot throw makes the whole [try] safe,
    whatever the body does. *)
Lemma never_throws_try_catch {A} (body : Async A) (handler : JsError -> Async A) :
  (forall e, never_throws (handler e)) -> never_throws (try_catch body handler).
Proof.
  intros Hh w e. unfold try_catch.
  destruct (body w) as [[a|e'|] w']; [done|apply Hh|done].
Qed.

Lemma never_throws_if {A} (b : bool) (c1 c2 : Async A) :
  never_throws c1 -> never_throws c2 -> never_throws (if b then c1 else c2).
Proof. by destruct b. Qed.

Lemma never_throws_emit e : never_throws (emit e).
Proof. by intros w e'. Qed.

Lemma never_throws_ret {A} (a : A) : never_throws (ret a).
Proof. by intros w e. Qed.

Lemma never_throws_get_baseUrl : never_throws get_baseUrl.
Proof. by intros w e. Qed.

Lemma never_throws_assign_baseUrl v : never_throws (assign_baseUrl v).
Proof. by intros w e. Qed.

Lemma never_throws_ensureBaseUrl : never_throws Background.ensureBaseUrl.
Proof.
  intros w e.
  destruct (ensureBaseUrl_summary w)
    as (n & evs & out & w' & -> & _ & _ & _ & _ & _ & Hout).
  by destruct out.
Qed.

Lemma never_throws_fetchBaseUrl : never_throws Background.fetchBaseUrl.
Proof.
  intros w e.
  destruct (fetchBaseUrl_summary w)
    as (n & evs & out & w' & -> & _ & _ & _ & _ & _ & Hout).
  by destruct out.
Qed.

Lemma never_throws_getToken : never_throws Background.getToken.
Proof. intros w e. by rewrite getToken_run. Qed.

Create HintDb safe.
#[local] Hint Resolve never_throws_emit never_throws_ret never_throws_get_baseUrl
  never_throws_assign_baseUrl never_throws_ensureBaseUrl never_throws_fetchBaseUrl
  never_throws_getToken : safe.

Ltac safe_auto :=
  repeat first
    [ progress intros
    | solve [auto with safe]
    | apply never_throws_try_catch
    | apply never_throws_bind
    | apply never_throws_if ].

Lemma never_throws_runNodeTests : never_throws Background.runNodeTests.
Proof. unfold Background.runNodeTests, console_error. safe_auto. Qed.

Lemma never_throws_checkForRewards : never_throws Background.checkForRewards.
Proof. unfold Background.checkForRewards, console_error, console_warn. safe_auto. Qed.

Lemma never_throws_heartbeat token : never_throws (Background.heartbeat token).
Proof. unfold Background.heartbeat, console_error. safe_auto. Qed.

Lemma never_throws_refreshBaseUrl : never_throws Background.refreshBaseUrl.
Proof. unfold Background.refreshBaseUrl, console_log. safe_auto. Qed.

Lemma never_throws_startHeartbeat : never_throws Background.startHeartbeat.
Proof. unfold Background.startHeartbeat, console_warn, setInterval. safe_auto. Qed.

#[local] Hint Resolve never_throws_runNodeTests never_throws_checkForRewards
  never_throws_heartbeat never_throws_refreshBaseUrl never_throws_startHeartbeat : safe.

(** X20.  Nothing the platform invokes ever rejects: the alarm listener
    (for any alarm name), the install listener, the two interval
    callbacks (the heartbeat with any captured token, the refresh), the
    button listener and the script's load all end by returning or stay
    pending, because every failure inside them is caught and logged. *)
Theorem entry_points_never_throw :
  (forall name, never_throws (Background.onAlarm name)) /\
  never_throws Background.onInstalled /\
  (forall cb, never_throws (Background.run_callback cb)) /\
  (forall notificationId buttonIndex,
     never_throws (Background.onButtonClicked notificationId buttonIndex)) /\
  never_throws Background.load.
Proof.
  split; [|split; [|split; [|split]]].
  - intros name. unfold Background.onAlarm, console_log, console_warn. safe_auto.
  - unfold Background.onInstalled. safe_auto.
  - intros [token|]; simpl; auto with safe.
  - intros id idx w e. unfold Background.onButtonClicked.
    by destruct (truthy _ && (idx =? 0)).
  - unfold Background.load, setInterval. safe_auto.
Qed.

(** X21.  Installing the extension creates the two alarms, "nodeTestAlarm"
    every 30 minutes and "dailyRewardsCheck" every 1440 minutes, before
    anything else and whether or not a token is stored; with no token the
    heartbeat timer is not installed. *)
Theorem onInstalled_creates_both_alarms (w : World) :
  let run := Background.onInstalled w in
  exists evs,
    trace run.2 = trace w ++ EvAlarmCreate "nodeTestAlarm" 30
                   :: EvAlarmCreate "dailyRewardsCheck" 1440 :: evs /\
    alarms evs = [] /\
    (no_token w -> intervals evs = []).
Proof.
  intros run. subst run.
  unfold Background.onInstalled, bind, emit.
  set (w0 := record (EvAlarmCreate "dailyRewardsCheck" 1440)
               (record (EvAlarmCreate "nodeTestAlarm" 30) w)).
  destruct (ensureBaseUrl_summary w0)
    as (n & evs & out1 & w1 & Hens & _ & Ht & Hio & _ & Hpf & Hout).
  rewrite (startHeartbeat_run w0 out1 w1 Hens (pf_storage _ _ Hpf)).
  destruct (attempts_only _ _ _ _ _ Hio) as (_ & Hint & _ & _).
  assert (Halarms : alarms evs = []).
  { unfold alarms. rewrite <- (omap_without_console as_alarm) by done.
    rewrite Hio. by apply omap_attempts_io. }
  destruct out1 as [[]|e|]; [|done|].
  - exists (evs ++ [EvStorageGet ["token"];
                    if truthy (stored_token w0)
                    then EvSetInterval (HeartbeatTick (stored_token w0)) six_hours
                    else EvConsole Warn [LStr "No token found. Skipping heartbeat."]]).
    cbn [snd trace record]. rewrite Ht. subst w0. cbn [trace record].
    rewrite <- !app_assoc. split; [reflexivity|].
    unfold alarms, intervals in *. rewrite !omap_app, Halarms, Hint.
    split; [by destruct (truthy _)|].
    intros Hno. unfold no_token, stored_token in Hno. unfold stored_token.
    cbn [storage record]. by rewrite Hno.
  - exists evs. cbn [snd]. rewrite Ht. subst w0. cbn [trace record].
    rewrite <- !app_assoc. by split.
Qed.

(** ** The node-test cycle *)

Lemma readable_get_prop node k : readable node -> get_prop node k = inr (field node k).
Proof. intros [H1 H2]. unfold field. by destruct node. Qed.

Lemma unreadable_cases node : ~ readable node -> node = JNull \/ node = JUndefined.
Proof.
  intros H. destruct node; auto; exfalso; apply H; by split.
Qed.

Lemma readable_dec node : {readable node} + {~ readable node}.
Proof.
  destruct node; first [left; by split | right; by intros [? ?]].
Qed.

Lemma probes_logs logs : without_console logs = [] -> probes logs = [].
Proof.
  intros H. unfold probes. by rewrite <- (omap_without_console as_probe), H.
Qed.

(** The latency test of a readable node: one probe, and a result. *)
Lemma testNodeLatency_probe node w :
  readable node ->
  exists latency w1 evs,
    Background.testNodeLatency node w = (Returned latency, w1) /\
    trace w1 = trace w ++ evs /\
    probes evs = [probe_url node] /\
    frame w w1.
Proof.
  intros Hr.
  rewrite (testNodeLatency_run node _ _ w (readable_get_prop node "ip" Hr)
             (readable_get_prop node "node_id" Hr)).
  cbv zeta. fold (probe_url node).
  destruct (network w (fetches w) (probe_url node) probe_options) as [d [r|e]|];
    [destruct ((Z.max 0 d <? probe_timeout) || _)..|];
    do 3 eexists; (split; [reflexivity|]);
    cbn [trace record record_fetch set_clock]; rewrite <- !app_assoc;
    (split; [reflexivity|]); by repeat split.
Qed.

(** Reporting a result sends no probe and leaves the storage alone; with
    no token it returns. *)
Lemma reportTestResult_no_probe node latency w :
  readable node ->
  exists out w' evs,
    Background.reportTestResult node latency w = (out, w') /\
    (out = Returned tt \/ out = Pending) /\
    (no_token w -> out = Returned tt) /\
    trace w' = trace w ++ evs /\
    probes evs = [] /\
    frame w w'.
Proof.
  intros Hr. destruct (truthy (stored_token w)) eqn:Htok.
  - destruct (reportTestResult_cases node _ _ latency w Htok
                (readable_get_prop node "node_id" Hr) (readable_get_prop node "ip" Hr))
      as (w' & logs & Heq & Ht & Hlogs & Hfr). cbv zeta in *.
    do 3 eexists. split; [exact Heq|].
    split; [by destruct (network w (fetches w) _ _); auto|].
    split; [unfold no_token; congruence|].
    split; [exact Ht|]. split; [|done].
    unfold probes. cbn [omap list_omap as_probe app mode report_options].
    by apply probes_logs.
  - unfold Background.reportTestResult, bind. rewrite getToken_run, Htok. cbn [negb].
    do 3 eexists. split; [reflexivity|]. split; [by left|]. split; [done|].
    cbn [trace record console_warn emit]. rewrite <- app_assoc.
    split; [reflexivity|]. by repeat split.
Qed.

Lemma frame_no_token w w' : frame w w' -> no_token w -> no_token w'.
Proof.
  intros Hfr. unfold no_token, stored_token. by rewrite (frame_storage _ _ Hfr).
Qed.

(** The loop over the nodes: the probes sent are those of a prefix of the
    list, in order; of the whole list when every entry is readable and
    every report returns. *)
Lemma for_each_node_probes items w :
  exists out w' evs,
    for_each items test_and_report w = (out, w') /\
    trace w' = trace w ++ evs /\
    probes evs `prefix_of` map probe_url items /\
    (Forall readable items -> no_token w ->
     out = Returned tt /\ probes evs = map probe_url items).
Proof.
  revert w. induction items as [|node items IH]; intros w.
  - exists (Returned tt), w, []. cbn. rewrite app_nil_r. by repeat split.
  - cbn [for_each map]. unfold bind at 1.
    destruct (readable_dec node) as [Hr|Hn].
    + unfold test_and_report at 1. unfold bind at 1.
      destruct (testNodeLatency_probe node w Hr)
        as (latency & w1 & evs1 & -> & Ht1 & Hp1 & Hfr1).
      unfold bind at 1, prop at 1. rewrite (readable_get_prop node "node_id" Hr).
      cbn [lift ret]. unfold bind at 1, prop at 1.
      rewrite (readable_get_prop node "ip" Hr). cbn [lift ret].
      unfold bind at 1, console_log at 1, emit at 1.
      set (w2 := record _ w1).
      destruct (reportTestResult_no_probe node latency w2 Hr)
        as (out & w3 & evs3 & -> & Hout & Hno & Ht3 & Hp3 & Hfr3).
      assert (Hfr2 : frame w w2) by (subst w2; destruct Hfr1; by split).
      assert (Ht13 : trace w3 = trace w ++ evs1
                ++ [EvConsole Log
                      [LStr ("Node " +:+ ToString (field node "node_id") +:+ " ("
                             +:+ ToString (field node "ip") +:+ ") latency: "
                             +:+ pretty latency +:+ "ms")]] ++ evs3).
      { rewrite Ht3. subst w2. cbn [trace record]. rewrite Ht1.
        by rewrite <- !app_assoc. }
      destruct out as [[]|e|].
      * cbn beta iota zeta.
        destruct (IH w3) as (out & w4 & evs & -> & Ht & Hpre & Hall).
        do 2 eexists. eexists (evs1 ++ [_] ++ evs3 ++ evs).
        split; [reflexivity|].
        split; [by rewrite Ht, Ht13, <- !app_assoc|].
        unfold probes in *. rewrite !omap_app, Hp1, Hp3. cbn [omap list_omap as_probe app].
        split; [by apply prefix_cons|].
        intros Hreadable Hnotoken. apply Forall_cons in Hreadable as [_ Hrest].
        destruct (Hall Hrest) as [-> ->];
          [eauto using frame_no_token, frame_trans|]. done.
      * by destruct Hout.
      * do 2 eexists. eexists (evs1 ++ [_] ++ evs3).
        split; [reflexivity|]. split; [exact Ht13|].
        unfold probes in *. rewrite !omap_app, Hp1, Hp3. cbn [omap list_omap as_probe app].
        split; [apply prefix_cons, prefix_nil|].
        intros _ Hnotoken.
        by specialize (Hno (frame_no_token _ _ Hfr2 Hnotoken)).
    + destruct (unreadable_cases node Hn) as [-> | ->];
        do 2 eexists; exists []; (split; [reflexivity|]); rewrite app_nil_r;
        (split; [done|]); (split; [apply prefix_nil|]);
        intros Hreadable; apply Forall_cons in Hreadable as [[? ?] _]; done.
Qed.

(** The node-test cycle in the resolved state, reduced to the run of the
    retrying client on the node list. *)
Lemma runNodeTests_after_client w out0 w0 :
  resolved w ->
  Background.fetchWithRetry (ToString (baseUrl w) +:+ "/api/nodes") no_options 3 1000 w
    = (out0, w0) ->
  Background.runNodeTests w
  = try_catch
      (response <- (fun _ => (out0, w0)) ;;
       nodes <- json response ;;
       items <- lift (iterate nodes) ;;
       for_each items test_and_report ;;
       console_log [LStr "All node tests completed."])
      (fun error => console_error [LStr "Error running node tests:"; LErr error]) w.
Proof.
  intros Hres Hrun0. unfold Background.runNodeTests. unfold bind at 1.
  rewrite (ensureBaseUrl_resolved w Hres). unfold try_catch.
  unfold bind at 1, get_baseUrl at 1. unfold bind at 1. rewrite Hrun0.
  by unfold bind at 6.
Qed.

(** X22.  Once the node list has been fetched, the nodes are tested one
    at a time in list order: the probes sent are those of a prefix of
    the list, each node at most once (the cycle stops early at an
    unreadable entry or at a report that never settles).  When every
    entry is readable and no token is stored, every node is probed
    exactly once, in order, and the cycle completes. *)
Theorem runNodeTests_probes_in_list_order
    (w : World) (k : nat) (d : Z) (r : Response) (items : list JsVal) :
  resolved w ->
  let url := ToString (baseUrl w) +:+ "/api/nodes" in
  (k < 3)%nat ->
  (forall i, (i < k)%nat -> failed (network w (fetches w + i)%nat url no_options) = true) ->
  network w (fetches w + k)%nat url no_options = Settles d (Fulfilled r) ->
  ok r = true ->
  json_body r = Some (JArr items) ->
  exists out w' evs,
    Background.runNodeTests w = (out, w') /\
    trace w' = trace w ++ evs /\
    probes evs `prefix_of` map probe_url items /\
    (Forall readable items -> no_token w ->
     out = Returned tt /\ probes evs = map probe_url items).
Proof.
  intros Hres url Hk Hprev Hnet Hok Hjson.
  destruct (fetchWithRetry_run url no_options 3 1000 w) as [n Hrun].
  destruct (Background.fetchWithRetry url no_options 3 1000 w) as [out0 w0] eqn:Hrun0.
  cbn [fst snd] in Hrun.
  destruct (RetryRun_first_success _ _ _ _ _ _ _ _ _ k d r Hrun) as [-> _];
    [lia|done..|].
  rewrite (runNodeTests_after_client w _ w0 Hres Hrun0).
  destruct Hrun as [_ _ (evs0 & Ht0 & Hio) _ Hfr _ _].
  assert (Hp0 : probes evs0 = []).
  { unfold probes. rewrite <- (omap_without_console as_probe) by done.
    rewrite Hio. by apply omap_attempts_io. }
  unfold try_catch. unfold bind at 1. unfold bind at 1, json at 1. rewrite Hjson.
  unfold ret at 1. unfold bind at 1. cbn [iterate lift ret]. unfold bind at 1.
  destruct (for_each_node_probes items w0) as (out & w1 & evs & -> & Ht & Hpre & Hall).
  destruct out as [[]|e|].
  - do 2 eexists. eexists (evs0 ++ evs ++ [_]). split; [reflexivity|].
    cbn [trace record console_log emit]. rewrite Ht, Ht0, <- !app_assoc.
    split; [reflexivity|]. unfold probes in *.
    rewrite !omap_app, Hp0. cbn [omap list_omap as_probe app]. rewrite app_nil_r.
    split; [done|]. intros Hreadable Hno.
    destruct (Hall Hreadable (frame_no_token _ _ Hfr Hno)) as [_ ->]. done.
  - do 2 eexists. eexists (evs0 ++ evs ++ [_]). split; [reflexivity|].
    cbn [trace record console_error emit]. rewrite Ht, Ht0, <- !app_assoc.
    split; [reflexivity|]. unfold probes in *.
    rewrite !omap_app, Hp0. cbn [omap list_omap as_probe app]. rewrite app_nil_r.
    split; [done|]. intros Hreadable Hno.
    destruct (Hall Hreadable (frame_no_token _ _ Hfr Hno)) as [_ ->]. done.
  - do 2 eexists. eexists (evs0 ++ evs). split; [reflexivity|].
    rewrite Ht, Ht0, <- !app_assoc. split; [reflexivity|]. unfold probes in *.
    rewrite !omap_app, Hp0. cbn [app].
    split; [done|]. intros Hreadable Hno.
    by destruct (Hall Hreadable (frame_no_token _ _ Hfr Hno)) as [[=] _].
Qed.

Lemma runNodeTests_probes_in_list_order_witness :
  let nodes := [JObj [("node_id", JStr "n1"); ("ip", JStr "10.0.0.1")];
                JObj [("node_id", JStr "n2"); ("ip", JStr "10.0.0.2")]] in
  let net := scripted [respond 10 200 (Some (JArr nodes)); respond 30 200 None] in
  let w := set_baseUrl fallback (initial_world net ∅) in
  resolved w /\
  exists out w' evs,
    Background.runNodeTests w = (out, w') /\
    trace w' = trace w ++ evs /\
    out = Returned tt /\
    probes evs = ["http://10.0.0.1"; "http://10.0.0.2"].
Proof.
  split; [reflexivity|].
  destruct (runNodeTests_probes_in_list_order
              (set_baseUrl fallback
                 (initial_world
                    (scripted [respond 10 200
                                 (Some (JArr [JObj [("node_id", JStr "n1");
                                                    ("ip", JStr "10.0.0.1")];
                                              JObj [("node_id", JStr "n2");
                                                    ("ip", JStr "10.0.0.2")]]));
                               respond 30 200 None]) ∅))
              0 10 _ _ eq_refl ltac:(lia) ltac:(intros i Hi; lia) eq_refl eq_refl eq_refl)
    as (out & w' & evs & Heq & Ht & _ & Hall).
  destruct Hall as [Hout Hprobes].
  - repeat constructor; discriminate.
  - vm_compute. reflexivity.
  - by exists out, w', evs.
Defined.

(** X23.  When the node list cannot be had, nothing is tested: if the
    three attempts to fetch it fail, or the answer that ends the
    attempts has a body that is not JSON, a payload that cannot be
    iterated (an object, a number, [null]) or an empty array, the cycle
    returns having sent only the node-list requests: no probe, no token
    read, no report. *)
Theorem runNodeTests_without_node_list (w : World) :
  resolved w ->
  let url := ToString (baseUrl w) +:+ "/api/nodes" in
  (forall i, (i < 3)%nat -> failed (network w (fetches w + i)%nat url no_options) = true)
  \/ (exists (k : nat) d r,
        (k < 3)%nat /\
        (forall i, (i < k)%nat ->
           failed (network w (fetches w + i)%nat url no_options) = true) /\
        network w (fetches w + k)%nat url no_options = Settles d (Fulfilled r) /\
        ok r = true /\
        (json_body r = None \/
         (exists data e, json_body r = Some data /\ iterate data = inl e) \/
         json_body r = Some (JArr []))) ->
  exists w' evs (n : nat),
    Background.runNodeTests w = (Returned tt, w') /\
    trace w' = trace w ++ evs /\
    (1 <= n <= 3)%nat /\
    network_calls evs = repeat (url, no_options) n /\
    storage_reads evs = [].
Proof.
  intros Hres url Hcase.
  destruct (fetchWithRetry_run url no_options 3 1000 w) as [n Hrun].
  pose proof (RetryRun_nonempty _ _ _ _ _ _ _ _ _ Hrun ltac:(lia)) as Hn1.
  destruct (Background.fetchWithRetry url no_options 3 1000 w) as [out0 w0] eqn:Hrun0.
  cbn [fst snd] in Hrun.
  assert (Hout0 : match out0 with
                  | Returned r =>
                      json_body r = None \/
                      (exists data e, json_body r = Some data /\ iterate data = inl e) \/
                      json_body r = Some (JArr [])
                  | Thrown _ => True
                  | Pending => False
                  end).
  { destruct Hcase as [Hfail|(k & d & r & Hk & Hprev & Hnet & Hok & Hbody)].
    - pose proof (fetchWithRetry_gives_up url no_options 1000 w Hfail) as H.
      rewrite Hrun0 in H. cbn [fst] in H. by subst out0.
    - by destruct (RetryRun_first_success _ _ _ _ _ _ _ _ _ k d r Hrun) as [-> _];
        [lia|done..|]. }
  rewrite (runNodeTests_after_client w _ w0 Hres Hrun0).
  destruct Hrun as [Hb _ (evs0 & Ht0 & Hio) _ _ _ _].
  destruct (attempts_only _ _ _ _ _ Hio) as (Hcalls & _ & Hreads & _).
  assert (Hfinish : forall w' logs,
            trace w' = trace w0 ++ logs -> without_console logs = [] ->
            exists evs (n' : nat),
              trace w' = trace w ++ evs /\ (1 <= n' <= 3)%nat /\
              network_calls evs = repeat (url, no_options) n' /\ storage_reads evs = []).
  { intros w' logs Ht Hlogs. exists (evs0 ++ logs), n.
    split; [by rewrite Ht, Ht0, app_assoc|]. split; [lia|].
    rewrite network_calls_app, Hcalls, <- (network_calls_without_console logs), Hlogs.
    rewrite app_nil_r. split; [done|].
    unfold storage_reads in *. rewrite omap_app, Hreads.
    by rewrite <- (omap_without_console as_storage_read), Hlogs. }
  unfold try_catch. unfold bind at 1.
  destruct out0 as [r|e|]; [|clear Hout0|done].
  - unfold bind at 1, json at 1.
    destruct Hout0 as [Hj|[(data & e & Hj & Hit)|Hj]]; rewrite Hj.
    + cbn [throw console_error emit].
      destruct (Hfinish (record (EvConsole Err
                  [LStr "Error running node tests:";
                   LErr (SyntaxError "Unexpected token in JSON")]) w0) [_] eq_refl eq_refl)
        as (evs & n' & H).
      by eexists _, evs, n'.
    + unfold ret at 1. unfold bind at 1. rewrite Hit. cbn [lift throw console_error emit].
      destruct (Hfinish (record (EvConsole Err
                  [LStr "Error running node tests:"; LErr e]) w0) [_] eq_refl eq_refl)
        as (evs & n' & H).
      by eexists _, evs, n'.
    + unfold ret at 1. unfold bind at 1. cbn [iterate lift ret].
      unfold bind at 1. cbn [for_each ret console_log emit].
      destruct (Hfinish (record (EvConsole Log [LStr "All node tests completed."]) w0)
                  [_] eq_refl eq_refl) as (evs & n' & H).
      by eexists _, evs, n'.
  - cbn [console_error emit].
    destruct (Hfinish (record (EvConsole Err
                [LStr "Error running node tests:"; LErr e]) w0) [_] eq_refl eq_refl)
      as (evs & n' & H).
    by eexists _, evs, n'.
Qed.

Lemma runNodeTests_without_node_list_witness :
  let w := set_baseUrl fallback (initial_world offline ∅) in
  resolved w /\
  exists w', Background.runNodeTests w = (Returned tt, w').
Proof.
  split; [reflexivity|].
  destruct (runNodeTests_without_node_list
              (set_baseUrl fallback (initial_world offline ∅)) eq_refl)
    as (w' & evs & n & Heq & _).
  - left. intros i Hi. reflexivity.
  - by exists w'.
Defined.

(** X24.  [startHeartbeat] only arms the timer: with or without a token,
    the call itself sends no heartbeat and no geolocation lookup.  Its
    only requests are those of the base-URL resolution, at most three,
    all to the configuration endpoint; the first heartbeat is left to the
    first firing of the six-hour interval. *)
Theorem startHeartbeat_sends_no_heartbeat (w : World) :
  exists out w' evs (n : nat),
    Background.startHeartbeat w = (out, w') /\
    trace w' = trace w ++ evs /\
    (n <= 3)%nat /\
    network_calls evs = repeat (config_url, no_options) n /\
    (has_token w -> out = Returned tt ->
     intervals evs = [(HeartbeatTick (stored_token w), six_hours)]).
Proof.
  destruct (ensureBaseUrl_summary w)
    as (n & evs & out1 & w1 & Hens & Hn & Ht & Hio & _ & Hpf & Hout).
  destruct (attempts_only _ _ _ _ _ Hio) as (Hcalls & Hint & _ & _).
  rewrite (startHeartbeat_run w out1 w1 Hens (pf_storage _ _ Hpf)).
  destruct out1 as [[]|e|]; [|done|].
  - do 2 eexists. eexists (evs ++ [_; _]), n. split; [reflexivity|].
    cbn [trace record]. rewrite Ht, <- !app_assoc. split; [reflexivity|].
    split; [done|]. rewrite network_calls_app, Hcalls.
    split; [by destruct (truthy (stored_token w)); cbn; rewrite app_nil_r|].
    intros Htok _. unfold has_token in Htok. rewrite Htok.
    unfold intervals in *. by rewrite omap_app, Hint.
  - exists Pending, w1, evs, n. split; [done|]. split; [done|]. split; [done|].
    split; [done|]. by intros _ [=].
Qed.

(** * The heartbeat token over a run of the platform *)

(** ** What the other entry points emit *)

Section EmitsMore.
Variable P : Event -> Prop.

Lemma emits_assign_baseUrl v : emits_only P (assign_baseUrl v).
Proof. by apply emits_nothing. Qed.

Lemma emits_Promise_race {A} (p q : Promise A) : emits_only P (Promise_race p q).
Proof. by apply emits_nothing. Qed.

Lemma emits_setTimeout_promise {A} ms (s : Settlement A) :
  P (EvSetTimeout ms) -> emits_only P (setTimeout_promise ms s).
Proof.
  intros He w. exists [EvSetTimeout ms]. split; [done|]. by apply Forall_singleton.
Qed.

Lemma emits_for_each {A} (items : list A) (body : A -> Async unit) :
  (forall x, emits_only P (body x)) -> emits_only P (for_each items body).
Proof.
  intros Hbody. induction items as [|x items IH]; simpl.
  - apply emits_ret.
  - apply emits_bind; auto.
Qed.

Lemma emits_chrome_storage_local_get keys :
  P (EvStorageGet keys) -> emits_only P (chrome_storage_local_get keys).
Proof.
  intros He. unfold chrome_storage_local_get.
  apply emits_bind; [by apply emits_emit|]. intros _. by apply emits_nothing.
Qed.

Lemma emits_retry_loop fuel url options retries delay attempt :
  P (EvFetch url options) -> P (EvSetTimeout delay) ->
  (forall args, P (EvConsole Err args)) ->
  emits_only P (Background.retry_loop fuel url options retries delay attempt).
Proof.
  intros Hfetch Htimer Hlog. revert attempt.
  induction fuel as [|fuel IH]; intros attempt; simpl.
  - apply emits_throw.
  - apply emits_if; [|apply emits_throw]. apply emits_try_catch.
    + apply emits_bind; [by apply emits_fetch|]. intros p.
      apply emits_bind; [apply emits_await|]. intros r.
      apply emits_if; [apply emits_throw|apply emits_ret].
    + intros e. apply emits_bind; [apply emits_emit, Hlog|]. intros _.
      apply emits_bind; [|intros _; apply IH].
      apply emits_if; [|apply emits_ret].
      apply emits_bind; [by apply emits_setTimeout_promise|]. intros t.
      apply emits_await.
Qed.

End EmitsMore.

#[local] Hint Resolve emits_assign_baseUrl emits_Promise_race : emits.

(** As [emits_auto], for computations that also loop and arm timers. *)
Ltac quiet_auto :=
  repeat first
    [ progress intros
    | solve [auto with emits]
    | apply emits_chrome_storage_local_get; exact I
    | apply emits_setTimeout_promise; exact I
    | apply emits_emit; exact I
    | apply emits_fetch; reflexivity
    | apply emits_for_each
    | apply emits_bind
    | apply emits_try_catch
    | apply emits_if ].

Lemma quiet_fetchWithRetry url retries delay :
  emits_only not_heartbeat (Background.fetchWithRetry url no_options retries delay).
Proof. by apply emits_retry_loop. Qed.

#[local] Hint Resolve quiet_fetchWithRetry : emits.

Lemma quiet_fetchBaseUrl : emits_only not_heartbeat Background.fetchBaseUrl.
Proof.
  unfold Background.fetchBaseUrl, console_error, console_warn. quiet_auto.
Qed.

#[local] Hint Resolve quiet_fetchBaseUrl : emits.

Lemma quiet_ensureBaseUrl : emits_only not_heartbeat Background.ensureBaseUrl.
Proof. unfold Background.ensureBaseUrl, console_log. quiet_auto. Qed.

Lemma quiet_refreshBaseUrl : emits_only not_heartbeat Background.refreshBaseUrl.
Proof. unfold Background.refreshBaseUrl, console_log. quiet_auto. Qed.

Lemma quiet_getToken : emits_only not_heartbeat Background.getToken.
Proof. unfold Background.getToken. quiet_auto. Qed.

#[local] Hint Resolve quiet_ensureBaseUrl quiet_refreshBaseUrl quiet_getToken : emits.

Lemma quiet_testNodeLatency node :
  emits_only not_heartbeat (Background.testNodeLatency node).
Proof.
  unfold Background.testNodeLatency, console_error. cbv zeta. quiet_auto.
Qed.

Lemma quiet_reportTestResult node latency :
  emits_only not_heartbeat (Background.reportTestResult node latency).
Proof.
  unfold Background.reportTestResult, console_error, console_warn, console_log.
  quiet_auto.
Qed.

#[local] Hint Resolve quiet_testNodeLatency quiet_reportTestResult : emits.

Lemma quiet_runNodeTests : emits_only not_heartbeat Background.runNodeTests.
Proof.
  unfold Background.runNodeTests, console_error, console_log. quiet_auto.
Qed.

Lemma quiet_showNotification msg link :
  emits_only not_heartbeat (Background.showNotification msg link).
Proof.
  unfold Background.showNotification, chrome_notifications_create. cbv zeta.
  apply emits_bind; [by apply emits_emit|]. intros _. by apply emits_nothing.
Qed.

#[local] Hint Resolve quiet_runNodeTests quiet_showNotification : emits.

Lemma quiet_checkForRewards : emits_only not_heartbeat Background.checkForRewards.
Proof.
  unfold Background.checkForRewards, console_error, console_warn, console_log.
  quiet_auto.
Qed.

#[local] Hint Resolve quiet_checkForRewards : emits.

Lemma quiet_onAlarm name : emits_only not_heartbeat (Background.onAlarm name).
Proof. unfold Background.onAlarm, console_log, console_warn. quiet_auto. Qed.

Lemma quiet_onButtonClicked id idx :
  emits_only not_heartbeat (Background.onButtonClicked id idx).
Proof.
  intros w. unfold Background.onButtonClicked.
  destruct (truthy _ && (idx =? 0)).
  - eexists [_]. split; [reflexivity|]. by apply Forall_singleton.
  - exists []. by rewrite app_nil_r.
Qed.

Lemma quiet_load : emits_only not_heartbeat Background.load.
Proof. unfold Background.load, setInterval. quiet_auto. Qed.

(** ** Reading heartbeats and timers off a trace *)

Lemma not_heartbeat_events evs :
  Forall not_heartbeat evs ->
  heartbeats evs = [] /\
  forall token ms, ~ In (HeartbeatTick token, ms) (intervals evs).
Proof.
  unfold heartbeats, intervals.
  induction 1 as [|e evs He _ [IH1 IH2]]; [by split; [|intros ? ? []]|].
  destruct e as [url init| |cb ms| | | | |]; cbn [omap list_omap as_heartbeat as_interval];
    try (split; [exact IH1|exact IH2]).
  - cbn [not_heartbeat] in He. rewrite He. by split.
  - destruct cb as [token|]; [done|]. split; [done|].
    intros token ms' [[=]|Hin]. by apply (IH2 token ms').
Qed.

Lemma heartbeat_event_events token evs :
  Forall (heartbeat_event token) evs ->
  intervals evs = [] /\
  forall h, In h (heartbeats evs) -> h = bearer_headers token.
Proof.
  unfold heartbeats, intervals.
  induction 1 as [|e evs He _ [IH1 IH2]]; [by split; [|intros ? []]|].
  destruct e as [url init| |cb ms| | | | |]; cbn [omap list_omap as_heartbeat as_interval];
    try (split; [exact IH1|exact IH2]); [|done].
  split; [done|]. cbn [heartbeat_event] in He.
  destruct (is_heartbeat_body (body init)) eqn:Hbody; [|done].
  intros h [<-|Hin]; [|by apply IH2].
  destruct He as [[_ ->]|[_ Hh]]; [done|exact Hh].
Qed.

Lemma heartbeats_app evs evs' : heartbeats (evs ++ evs') = heartbeats evs ++ heartbeats evs'.
Proof. apply omap_app. Qed.

Lemma intervals_app evs evs' : intervals (evs ++ evs') = intervals evs ++ intervals evs'.
Proof. apply omap_app. Qed.

(** The requests of the retrying client are no heartbeats. *)
Lemma attempts_no_heartbeat evs url delay n :
  without_console evs = attempts_io url no_options delay n -> heartbeats evs = [].
Proof.
  intros Hio. unfold heartbeats.
  rewrite <- (omap_without_console as_heartbeat) by done.
  rewrite Hio. by apply omap_attempts_io.
Qed.

(** ** One task at a time *)

(** The install listener installs at most the heartbeat timer of the
    token stored at that moment, and sends no heartbeat itself. *)
Lemma onInstalled_events w :
  exists evs,
    trace (Background.onInstalled w).2 = trace w ++ evs /\
    heartbeats evs = [] /\
    forall token ms,
      In (HeartbeatTick token, ms) (intervals evs) ->
      has_token w /\ stored_token w = token.
Proof.
  unfold Background.onInstalled, bind, emit.
  set (w0 := record (EvAlarmCreate "dailyRewardsCheck" 1440)
               (record (EvAlarmCreate "nodeTestAlarm" 30) w)).
  assert (Htok : stored_token w0 = stored_token w) by reflexivity.
  destruct (ensureBaseUrl_summary w0)
    as (n & evs & out1 & w1 & Hens & _ & Ht & Hio & _ & Hpf & Hout).
  rewrite (startHeartbeat_run w0 out1 w1 Hens (pf_storage _ _ Hpf)).
  destruct (attempts_only _ _ _ _ _ Hio) as (_ & Hint & _ & _).
  pose proof (attempts_no_heartbeat _ _ _ _ Hio) as Hhb.
  rewrite Htok.
  destruct out1 as [[]|e|]; [|done|].
  - eexists (_ :: _ :: evs ++ [_; _]).
    cbn [snd trace record]. rewrite Ht. subst w0. cbn [trace record].
    rewrite <- !app_assoc. split; [reflexivity|].
    change (heartbeats (?a :: ?b :: ?l)) with (heartbeats l).
    change (intervals (?a :: ?b :: ?l)) with (intervals l).
    rewrite heartbeats_app, intervals_app, Hhb, Hint.
    destruct (truthy (stored_token w)) eqn:Htruthy.
    + split; [done|]. intros token ms [[= <- _]|[]]. by split.
    + split; [done|]. by intros token ms [].
  - exists (EvAlarmCreate "nodeTestAlarm" 30 :: EvAlarmCreate "dailyRewardsCheck" 1440 :: evs).
    cbn [snd]. rewrite Ht. subst w0. cbn [trace record].
    rewrite <- !app_assoc. split; [reflexivity|].
    change (heartbeats (?a :: ?b :: ?l)) with (heartbeats l).
    change (intervals (?a :: ?b :: ?l)) with (intervals l).
    rewrite Hint. split; [done|]. by intros token ms [].
Qed.

(** What one task adds to the trace: a heartbeat timer only when it is
    the install listener and a token is stored, for that token; a
    heartbeat request only when it is a heartbeat callback, authorised
    with the token the callback closed over. *)
Lemma run_task_heartbeats t w :
  exists evs,
    trace (run_task t w) = trace w ++ evs /\
    (forall token ms,
       In (HeartbeatTick token, ms) (intervals evs) ->
       t = OnInstalled /\ has_token w /\ stored_token w = token) /\
    (forall h,
       In h (heartbeats evs) ->
       exists token, t = OnInterval (HeartbeatTick token) /\ h = bearer_headers token).
Proof.
  assert (Hquiet : forall (c : Async unit),
            emits_only not_heartbeat c ->
            exists evs,
              trace (c w).2 = trace w ++ evs /\
              (forall token ms, ~ In (HeartbeatTick token, ms) (intervals evs)) /\
              heartbeats evs = []).
  { intros c Hc. destruct (Hc w) as (evs & Ht & Hall).
    destruct (not_heartbeat_events evs Hall) as [Hhb Hint]. by exists evs. }
  assert (Hnone : forall evs,
            trace (run_task t w) = trace w ++ evs ->
            (forall token ms, ~ In (HeartbeatTick token, ms) (intervals evs)) ->
            heartbeats evs = [] ->
            exists evs,
              trace (run_task t w) = trace w ++ evs /\
              (forall token ms,
                 In (HeartbeatTick token, ms) (intervals evs) ->
                 t = OnInstalled /\ has_token w /\ stored_token w = token) /\
              (forall h,
                 In h (heartbeats evs) ->
                 exists token,
                   t = OnInterval (HeartbeatTick token) /\ h = bearer_headers token)).
  { intros evs Ht Hint Hhb. exists evs. split; [done|]. split.
    - intros token ms Hin. by destruct (Hint token ms).
    - rewrite Hhb. by intros h []. }
  destruct t as [| |name|id idx|[token|]|key [v|]|ms].
  - destruct (Hquiet _ quiet_load) as (evs & Ht & Hint & Hhb). by apply (Hnone evs).
  - destruct (onInstalled_events w) as (evs & Ht & Hhb & Hint).
    exists evs. split; [done|]. split.
    + intros token ms Hin. split; [done|]. by apply (Hint token ms).
    + rewrite Hhb. by intros h [].
  - destruct (Hquiet _ (quiet_onAlarm name)) as (evs & Ht & Hint & Hhb).
    by apply (Hnone evs).
  - destruct (Hquiet _ (quiet_onButtonClicked id idx)) as (evs & Ht & Hint & Hhb).
    by apply (Hnone evs).
  - destruct (heartbeat_emits token w) as (evs & Ht & Hall).
    destruct (heartbeat_event_events token evs Hall) as [Hint Hhb].
    exists evs. split; [done|]. split.
    + rewrite Hint. by intros token' ms [].
    + intros h Hin. exists token. split; [done|]. by apply Hhb.
  - destruct (Hquiet _ quiet_refreshBaseUrl) as (evs & Ht & Hint & Hhb).
    by apply (Hnone evs).
  - apply (Hnone []); [by rewrite app_nil_r|by intros ? ? []|done].
  - apply (Hnone []); [by rewrite app_nil_r|by intros ? ? []|done].
  - apply (Hnone []); [by rewrite app_nil_r|by intros ? ? []|done].
Qed.

(** ** Any number of tasks *)

Lemma run_tasks_snoc tasks t w : run_tasks (tasks ++ [t]) w = run_task t (run_tasks tasks w).
Proof. unfold run_tasks. by rewrite foldl_app. Qed.

Lemma captured_snoc tasks t w0 token :
  captured tasks w0 token -> captured (tasks ++ [t]) w0 token.
Proof.
  intros (before & after & -> & Hhas & Htok).
  exists before, (after ++ [t]). by rewrite <- app_assoc.
Qed.

Lemma fires_installed_prefix tasks rest w0 :
  fires_installed (tasks ++ rest) w0 -> fires_installed tasks w0.
Proof.
  intros Hfires before cb after ->. apply (Hfires before cb (after ++ rest)).
  by rewrite <- app_assoc.
Qed.

(** Every heartbeat timer installed and every heartbeat request sent so
    far goes back to a token captured by [startHeartbeat]. *)
Lemma heartbeats_captured tasks w0 :
  trace w0 = [] ->
  fires_installed tasks w0 ->
  (forall token ms,
     In (HeartbeatTick token, ms) (intervals (trace (run_tasks tasks w0))) ->
     captured tasks w0 token) /\
  (forall h,
     In h (heartbeats (trace (run_tasks tasks w0))) ->
     exists token, captured tasks w0 token /\ h = bearer_headers token).
Proof.
  intros Hfresh. induction tasks as [|t tasks IH] using rev_ind; intros Hfires.
  - cbn [run_tasks foldl]. rewrite Hfresh. split; [by intros ? ? []|by intros ? []].
  - destruct (IH (fires_installed_prefix _ _ _ Hfires)) as [IHint IHhb].
    rewrite run_tasks_snoc.
    destruct (run_task_heartbeats t (run_tasks tasks w0)) as (evs & -> & Hint & Hhb).
    rewrite intervals_app, heartbeats_app. split.
    + intros token ms [Hin|Hin]%in_app_or.
      * apply captured_snoc. by apply (IHint token ms).
      * destruct (Hint token ms Hin) as (-> & Hhas & Htok).
        by exists tasks, [].
    + intros h [Hin|Hin]%in_app_or.
      * destruct (IHhb h Hin) as (token & Hcap & ->).
        exists token. split; [by apply captured_snoc|done].
      * destruct (Hhb h Hin) as (token & -> & ->).
        exists token. split; [|done]. apply captured_snoc.
        specialize (Hfires tasks (HeartbeatTick token) [] eq_refl).
        apply in_map_iff in Hfires as ([cb ms] & Hcb & Hin'). cbn [fst] in Hcb. subst cb.
        by apply (IHint token ms).
Qed.

(** C10.  [startHeartbeat] reads the stored token exactly once, and that
    read comes before the only thing that follows it: the warning when
    there is no token, or the installation of the six-hour timer whose
    callback closes over the value just read.  The call never throws and
    sends no heartbeat itself; with no token it installs no timer, and
    while it is pending it has read nothing and installed nothing.

    A heartbeat callback never reads the storage, does the same whatever
    the storage holds, and authorises the one heartbeat it sends with the
    token it closed over.

    Over any run of the platform (the listeners, the timers, other parts
    of the extension writing or removing the stored token, time passing;
    tasks run one after the other), starting with an empty trace and
    firing a timer only once it has been installed: a heartbeat callback
    fires only with a token that was the stored token at an earlier
    moment at which [startHeartbeat] ran, every heartbeat request ever
    sent is authorised with such a token, whatever has become of the
    stored token since, and if no [startHeartbeat] found a token, no
    heartbeat is ever sent. *)
Theorem startHeartbeat_captures_token :
  (forall w,
     exists out w' evs (n : nat),
       Background.startHeartbeat w = (out, w') /\
       trace w' = trace w ++ evs /\
       (n <= 3)%nat /\
       network_calls evs = repeat (config_url, no_options) n /\
       heartbeats evs = [] /\
       match out with
       | Returned _ =>
           exists evs0,
             storage_reads evs0 = [] /\ intervals evs0 = [] /\
             evs = evs0
                   ++ [EvStorageGet ["token"];
                       if truthy (stored_token w)
                       then EvSetInterval (HeartbeatTick (stored_token w)) six_hours
                       else EvConsole Warn [LStr "No token found. Skipping heartbeat."]]
       | Thrown _ => False
       | Pending => storage_reads evs = [] /\ intervals evs = []
       end /\
       (no_token w -> intervals evs = []) /\
       (has_token w -> out = Returned tt ->
        intervals evs = [(HeartbeatTick (stored_token w), six_hours)])) /\
  (forall token,
     storage_blind (Background.run_callback (HeartbeatTick token)) /\
     emits_only (heartbeat_event token) (Background.run_callback (HeartbeatTick token)) /\
     (forall w d s,
        network w (fetches w) geo_url no_options = Settles d s ->
        exists out w' evs init,
          Background.run_callback (HeartbeatTick token) w = (out, w') /\
          trace w' = trace w ++ evs /\
          network_calls evs = [(geo_url, no_options);
                               (ToString (baseUrl w) +:+ "/api/heartbeat", init)] /\
          method init = Some "POST" /\
          headers init = bearer_headers token /\
          heartbeats evs = [bearer_headers token] /\
          storage_reads evs = [])) /\
  (forall tasks w0,
     trace w0 = [] ->
     fires_installed tasks w0 ->
     (forall before token after,
        tasks = before ++ OnInterval (HeartbeatTick token) :: after ->
        captured before w0 token) /\
     (forall h,
        In h (heartbeats (trace (run_tasks tasks w0))) ->
        exists token, captured tasks w0 token /\ h = bearer_headers token) /\
     ((forall before after,
         tasks = before ++ OnInstalled :: after -> no_token (run_tasks before w0)) ->
      heartbeats (trace (run_tasks tasks w0)) = [])).
Proof.
  split; [|split].
  - intros w.
    destruct (ensureBaseUrl_summary w)
      as (n & evs0 & out1 & w1 & Hens & Hn & Ht & Hio & _ & Hpf & Hout).
    destruct (attempts_only _ _ _ _ _ Hio) as (Hcalls & Hint & Hreads & _).
    pose proof (attempts_no_heartbeat _ _ _ _ Hio) as Hhb.
    rewrite (startHeartbeat_run w out1 w1 Hens (pf_storage _ _ Hpf)).
    destruct out1 as [[]|e|]; [|done|].
    + do 2 eexists. eexists (evs0 ++ [_; _]), n. split; [reflexivity|].
      cbn [trace record]. rewrite Ht, <- !app_assoc. split; [reflexivity|].
      split; [done|]. rewrite network_calls_app, Hcalls, heartbeats_app, Hhb.
      split; [by destruct (truthy (stored_token w)); cbn; rewrite app_nil_r|].
      split; [by destruct (truthy (stored_token w))|].
      split; [by exists evs0|].
      rewrite intervals_app, Hint. unfold no_token, has_token.
      split; [by intros ->|]. by intros -> _.
    + exists Pending, w1, evs0, n. split; [done|]. split; [done|]. split; [done|].
      split; [done|]. split; [done|]. split; [done|]. split; [done|].
      by intros _ [=].
  - intros token. split; [apply blind_heartbeat|]. split; [apply heartbeat_emits|].
    intros w d s Hnet. cbn [Background.run_callback].
    destruct (heartbeat_run token w d s Hnet) as (w' & logs & logs' & Heq & Ht & Hl & Hl').
    do 4 eexists. split; [exact Heq|]. split; [exact Ht|].
    split.
    { cbn [network_calls]. rewrite network_calls_app. cbn [network_calls].
      rewrite <- (network_calls_without_console logs),
        <- (network_calls_without_console logs').
      by rewrite Hl, Hl'. }
    split; [done|]. split; [done|].
    unfold heartbeats, storage_reads.
    cbn [omap list_omap as_heartbeat as_storage_read]. rewrite !omap_app.
    cbn [omap list_omap as_heartbeat as_storage_read].
    rewrite <- (omap_without_console as_heartbeat logs),
      <- (omap_without_console as_heartbeat logs'),
      <- (omap_without_console as_storage_read logs),
      <- (omap_without_console as_storage_read logs') by done.
    by rewrite Hl, Hl'.
  - intros tasks w0 Hfresh Hfires.
    destruct (heartbeats_captured tasks w0 Hfresh Hfires) as [_ Hhb].
    split; [|split; [exact Hhb|]].
    + intros before token after Heq.
      pose proof (Hfires before (HeartbeatTick token) after Heq) as Hin.
      rewrite Heq in Hfires. apply fires_installed_prefix in Hfires.
      destruct (heartbeats_captured before w0 Hfresh Hfires) as [Hint _].
      apply in_map_iff in Hin as ([cb ms] & Hcb & Hin). cbn [fst] in Hcb. subst cb.
      by apply (Hint token ms).
    + intros Hno.
      destruct (heartbeats (trace (run_tasks tasks w0))) as [|h hs] eqn:Hsent; [done|].
      destruct (Hhb h (or_introl eq_refl))
        as (token & (before & after & Heq & Hhas & _) & _).
      specialize (Hno before after Heq). unfold no_token in Hno. unfold has_token in Hhas.
      by rewrite Hno in Hhas.
Qed.

Lemma startHeartbeat_captures_token_witness :
  let w0 :=
    initial_world
      (scripted [respond 10 200 (Some (JObj [("baseUrl", JStr "https://x")]));
                 respond 20 200 (Some (JObj [("ip", JStr "1.2.3.4"); ("city", JStr "c");
                                             ("region", JStr "r");
                                             ("country_name", JStr "n")]));
                 respond 30 200 None])
      {["token" := JStr "secret"]} in
  let before := [OnInstalled; StorageWrite "token" None] in
  let tasks := before ++ [OnInterval (HeartbeatTick (JStr "secret"))] in
  trace w0 = [] /\
  fires_installed tasks w0 /\
  no_token (run_tasks before w0) /\
  heartbeats (trace (run_tasks tasks w0)) = [bearer_headers (JStr "secret")] /\
  captured before w0 (JStr "secret").
Proof.
  intros w0 before tasks.
  assert (Hfires : fires_installed tasks w0).
  { intros pre cb post Heq. subst tasks before. cbn [app] in Heq.
    destruct pre as [|t1 [|t2 [|t3 pre]]]; cbn [app] in Heq.
    - discriminate Heq.
    - discriminate Heq.
    - injection Heq as <- <-. vm_compute. by left.
    - injection Heq as _ _ _ Heq. by destruct pre. }
  split; [reflexivity|]. split; [exact Hfires|].
  split; [vm_compute; reflexivity|]. split; [vm_compute; reflexivity|].
  destruct startHeartbeat_captures_token as (_ & _ & Hrun).
  destruct (Hrun tasks w0 eq_refl Hfires) as (Hcap & _).
  apply (Hcap before (JStr "secret") []). reflexivity.
Defined.
